(** * MovieRecDemo: the authentication and rate-limiting request pipeline

    A shallow embedding of [app/core/config.py], [app/core/cache.py],
    [app/core/security.py], [app/models/user.py], [app/models/movie.py],
    [app/services/user_service.py] and [app/api/deps.py], followed by the
    properties of the pipeline.

    Conventions of the embedding:
    - a Python coroutine or function with effects is a computation in the
      monad [M]: it reads and updates a [World] (wall clock, users table,
      counter store, module globals, log) and either returns a value or
      raises an [Exception]; updates made before a raise are kept, as in
      Python;
    - instants ([datetime], relative to the epoch) and durations
      ([timedelta]) count microseconds, the resolution of Python's
      [datetime] module; the [exp], [iat] and [nbf] claims of a token count
      whole seconds;
    - a [string] is a Python [str] of characters below U+0100, one [ascii]
      per character;
    - the third-party services the code calls (the Redis server, the SQL
      table behind SQLAlchemy, python-jose) are modelled by their contract:
      see the sections [Redis], [Database] and [jose]. *)

From Stdlib Require Import ZArith QArith Qminmax String Ascii List Lia.
From stdpp Require Import base gmap strings list pretty.

Open Scope string_scope.
Open Scope Z_scope.

(** ** Python values and exceptions *)

Definition datetime := Z.
Definition timedelta := Z.

Definition timedelta_seconds (s : Z) : timedelta := 1000000 * s.
Definition timedelta_minutes (m : Z) : timedelta := 60000000 * m.
Definition timedelta_days (d : Z) : timedelta := 86400000000 * d.

(** [calendar.timegm(t.utctimetuple())]: the whole seconds of an instant, its
    fraction dropped. *)
Definition timegm (t : datetime) : Z := t / 1000000.

Inductive pyval :=
  | PyNone
  | PyStr (s : string)
  | PyInt (z : Z)
  | PyDatetime (t : datetime).

#[global] Instance pyval_eq_dec : EqDecision pyval.
Proof. solve_decision. Defined.

(** [dict.get(key)]: the value, or [None] when the key is absent. *)
Definition dict_get (d : gmap string pyval) (key : string) : pyval :=
  default PyNone (d !! key).

Definition is_PyNone (v : pyval) : bool :=
  match v with PyNone => true | _ => false end.

Record HTTPException := {
  status_code : Z;
  detail : string;
  headers : list (string * string)
}.

(** The subclasses of [jose.exceptions.JWTError] that [jwt.decode] raises. *)
Inductive JWTErrorKind :=
  | DecodeError
  | AlgorithmNotAllowed
  | SignatureVerificationFailed
  | ExpiredSignatureError
  | JWTClaimsError (msg : string)
  | AlgorithmMissing.

(** Every class below derives from Python's [Exception]. *)
Inductive Exception :=
  | HTTPError (e : HTTPException)
  | JWTError (k : JWTErrorKind)
  | JWSError (msg : string)
  | ValueError (msg : string)
  | TypeError (msg : string)
  | AttributeError (msg : string)
  | IndexError (msg : string)
  | OverflowError
  | JWKError
  | RedisConnectionError
  | OperationalError
  | DataError
  | MultipleResultsFound
  | IntegrityError.

Definition is_JWTError (e : Exception) : bool :=
  match e with JWTError _ => true | _ => false end.

Inductive Res (A : Type) :=
  | Ret (a : A)
  | Exc (e : Exception).
Arguments Ret {A} a.
Arguments Exc {A} e.

(** [datetime.min] and [datetime.max]: the years 1 to 9999. *)
Definition datetime_min : datetime := -62135596800000000.
Definition datetime_max : datetime := 253402300799999999.

(** [t + d]: [OverflowError] when the sum is no [datetime]. *)
Definition datetime_add (t : datetime) (d : timedelta) : Res datetime :=
  let sum := t + d in
  if (datetime_min <=? sum) && (sum <=? datetime_max)
  then Ret sum
  else Exc OverflowError.

(** [timedelta(minutes=m)]: a [timedelta] holds less than 10^9 days in
    either direction. *)
Definition timedelta_of_minutes (m : Z) : Res timedelta :=
  let d := timedelta_minutes m in
  if (timedelta_days (-999999999) <=? d) && (d <? timedelta_days 1000000000)
  then Ret d
  else Exc OverflowError.

(** *** [int(s)] on a [str]

    White space around the literal is dropped; the literal is an optional
    sign and decimal digits, where single underscores may separate digits.
    (The cap CPython 3.11 puts on the number of digits, 4300 by default, is
    left out: no counter and no time stamp comes near it.) *)

Definition is_space (c : ascii) : bool :=
  let n := N_of_ascii c in
  ((9 <=? n) && (n <=? 13) || (n =? 32) || (n =? 133) || (n =? 160))%N.

Fixpoint lstrip (s : string) : string :=
  match s with
  | EmptyString => EmptyString
  | String c s' => if is_space c then lstrip s' else s
  end.

Fixpoint all_space (s : string) : bool :=
  match s with
  | EmptyString => true
  | String c s' => is_space c && all_space s'
  end.

Definition digit_of_ascii (c : ascii) : option Z :=
  let n := Z.of_N (N_of_ascii c) in
  if (48 <=? n) && (n <=? 57) then Some (n - 48) else None.

(** The digits of a literal, read after [acc]; [after_digit] tells whether
    the previous character was a digit. White space ends the literal and
    must run to the end of the string. *)
Fixpoint parse_digits (acc : Z) (after_digit : bool) (s : string) : option Z :=
  match s with
  | EmptyString => if after_digit then Some acc else None
  | String c s' =>
      match digit_of_ascii c with
      | Some d => parse_digits (10 * acc + d) true s'
      | None =>
          if negb after_digit then None
          else if Ascii.eqb c "_" then parse_digits acc false s'
          else if all_space s then Some acc
          else None
      end
  end.

Definition py_int (s : string) : Res Z :=
  let invalid := Exc (ValueError "invalid literal for int() with base 10") in
  match lstrip s with
  | EmptyString => invalid
  | String c digits =>
      if Ascii.eqb c "-"
      then match parse_digits 0 false digits with
           | Some n => Ret (- n)
           | None => invalid
           end
      else if Ascii.eqb c "+"
      then match parse_digits 0 false digits with
           | Some n => Ret n
           | None => invalid
           end
      else match parse_digits 0 false (String c digits) with
           | Some n => Ret n
           | None => invalid
           end
  end.

Definition HTTP_400_BAD_REQUEST : Z := 400.
Definition HTTP_401_UNAUTHORIZED : Z := 401.
Definition HTTP_429_TOO_MANY_REQUESTS : Z := 429.

(** ** app/models/user.py: the [users] table row *)

Record User := {
  id : Z;
  username : string;
  email : string;
  hashed_password : string;
  is_active : bool;
  is_verified : bool;
  api_key : option string;
  api_key_expires_at : option datetime
}.

Definition set_api_key (u : User) (k : option string) (e : option datetime) : User :=
  {| id := id u; username := username u; email := email u;
     hashed_password := hashed_password u; is_active := is_active u;
     is_verified := is_verified u; api_key := k; api_key_expires_at := e |}.

(** ** The world a request runs in *)

Inductive Level := INFO | WARNING | ERROR.

Record LogRecord := {
  levelname : Level;
  message : string;
  exc_info : option Exception
}.

(** One key of the counter store: its integer value and, when a time to live
    was set, the instant at which the key disappears. *)
Record RedisEntry := {
  entry_value : Z;
  entry_deadline : option datetime
}.

Record World := {
  clock : datetime;                     (* the wall clock, UTC *)
  users : list User;                    (* the rows of the users table *)
  db_up : bool;                         (* the SQL server answers *)
  redis_up : bool;                      (* the Redis server answers *)
  redis_data : gmap string RedisEntry;  (* the keys of the Redis server *)
  redis_client : bool;                  (* cache.py's global is not None *)
  log : list LogRecord                  (* newest record first *)
}.

Definition with_users (us : list User) (w : World) : World :=
  {| clock := clock w; users := us; db_up := db_up w; redis_up := redis_up w;
     redis_data := redis_data w; redis_client := redis_client w; log := log w |}.

Definition with_redis_data (d : gmap string RedisEntry) (w : World) : World :=
  {| clock := clock w; users := users w; db_up := db_up w; redis_up := redis_up w;
     redis_data := d; redis_client := redis_client w; log := log w |}.

Definition with_redis_client (c : bool) (w : World) : World :=
  {| clock := clock w; users := users w; db_up := db_up w; redis_up := redis_up w;
     redis_data := redis_data w; redis_client := c; log := log w |}.

Definition with_log (l : list LogRecord) (w : World) : World :=
  {| clock := clock w; users := users w; db_up := db_up w; redis_up := redis_up w;
     redis_data := redis_data w; redis_client := redis_client w; log := l |}.

Definition with_clock (t : datetime) (w : World) : World :=
  {| clock := t; users := users w; db_up := db_up w; redis_up := redis_up w;
     redis_data := redis_data w; redis_client := redis_client w; log := log w |}.

(** ** The monad of Python computations *)

Definition M (A : Type) : Type := World -> Res A * World.

#[global] Instance M_ret : MRet M := fun A a w => (Ret a, w).

#[global] Instance M_bind : MBind M := fun A B f m w =>
  match m w with
  | (Ret a, w') => f a w'
  | (Exc e, w') => (Exc e, w')
  end.

Definition raise {A} (e : Exception) : M A := fun w => (Exc e, w).

(** [try: body except Exception as e: handler e] *)
Definition try_except {A} (body : M A) (handler : Exception -> M A) : M A :=
  fun w =>
    match body w with
    | (Ret a, w') => (Ret a, w')
    | (Exc e, w') => handler e w'
    end.

(** Lifting of a pure result. *)
Definition lift_res {A} (r : Res A) : M A := fun w => (r, w).

Definition utcnow : M datetime := fun w => (Ret (clock w), w).

Definition logger_log (lvl : Level) (msg : string) (e : option Exception) : M unit :=
  fun w => (Ret tt, with_log ({| levelname := lvl; message := msg; exc_info := e |} :: log w) w).

Definition logger_info (msg : string) : M unit := logger_log INFO msg None.
Definition logger_warning (msg : string) (e : Exception) : M unit :=
  logger_log WARNING msg (Some e).
Definition logger_error (msg : string) (e : Exception) : M unit :=
  logger_log ERROR msg (Some e).

(** ** app/core/config.py *)

Record Settings := {
  secret_key : string;
  algorithm : string;
  access_token_expire_minutes : Z;
  rate_limit_per_minute : Z
}.

Definition validate_secret_key (v : string) : Res string :=
  if Z.of_nat (String.length v) <? 32
  then Exc (ValueError "Secret key must be at least 32 characters long")
  else Ret v.

Definition validate_rate_limit (v : Z) : Res Z :=
  if v <? 1
  then Exc (ValueError "Rate limit must be at least 1 request per minute")
  else Ret v.

(** [Settings()]: the fields read from the environment go through the two
    validators; a failing validator makes the construction fail. *)
Definition Settings_init (env : Settings) : Res Settings :=
  match validate_secret_key (secret_key env) with
  | Exc e => Exc e
  | Ret k =>
      match validate_rate_limit (rate_limit_per_minute env) with
      | Exc e => Exc e
      | Ret r =>
          Ret {| secret_key := k; algorithm := algorithm env;
                 access_token_expire_minutes := access_token_expire_minutes env;
                 rate_limit_per_minute := r |}
      end
  end.

(** ** Redis: the contract of the counter store

    A key holds an integer and an optional deadline; a key whose deadline has
    been reached is gone. [INCR] adds one to a live key (keeping its deadline)
    and creates a missing key at 1 without deadline; [EXPIRE] sets the
    deadline of a live key to [seconds] seconds from now. *)

Definition redis_live (now : datetime) (e : RedisEntry) : bool :=
  match entry_deadline e with
  | None => true
  | Some d => now <? d
  end.

Definition redis_lookup (now : Z) (data : gmap string RedisEntry) (key : string)
  : option RedisEntry :=
  match data !! key with
  | Some e => if redis_live now e then Some e else None
  | None => None
  end.

Inductive RedisCommand :=
  | INCR (key : string)
  | EXPIRE (key : string) (seconds : Z).

Definition redis_apply (now : Z) (cmd : RedisCommand) (data : gmap string RedisEntry)
  : Z * gmap string RedisEntry :=
  match cmd with
  | INCR key =>
      match redis_lookup now data key with
      | Some e =>
          let v := entry_value e + 1 in
          (v, <[key := {| entry_value := v; entry_deadline := entry_deadline e |}]> data)
      | None =>
          (1, <[key := {| entry_value := 1; entry_deadline := None |}]> data)
      end
  | EXPIRE key seconds =>
      match redis_lookup now data key with
      | Some e =>
          if 0 <? seconds
          then (1, <[key := {| entry_value := entry_value e;
                               entry_deadline := Some (now + timedelta_seconds seconds) |}]>
                  data)
          else (1, delete key data)
      | None => (0, data)
      end
  end.

Fixpoint redis_run (now : Z) (cmds : list RedisCommand) (data : gmap string RedisEntry)
  : list Z * gmap string RedisEntry :=
  match cmds with
  | [] => ([], data)
  | c :: cs =>
      let '(r, d) := redis_apply now c data in
      let '(rs, d') := redis_run now cs d in
      (r :: rs, d')
  end.

(** [await client.ping()] *)
Definition redis_ping : M unit := fun w =>
  if redis_up w then (Ret tt, w) else (Exc RedisConnectionError, w).

(** [await pipe.execute()]: the queued commands run as one transaction. *)
Definition pipeline_execute (pipe : list RedisCommand) : M (list Z) := fun w =>
  if redis_up w
  then let '(rs, d) := redis_run (clock w) pipe (redis_data w) in
       (Ret rs, with_redis_data d w)
  else (Exc RedisConnectionError, w).

(** ** app/core/cache.py *)

Definition read_redis_client : M bool := fun w => (Ret (redis_client w), w).
Definition write_redis_client (c : bool) : M unit := fun w =>
  (Ret tt, with_redis_client c w).

Definition get_redis_client : M unit :=
  c ← read_redis_client;
  (if negb c
   then try_except
          (write_redis_client true;;
           redis_ping;;
           logger_info "Redis connection established")
          (fun e =>
             logger_error "Failed to connect to Redis" e;;
             write_redis_client false;;
             raise e)
   else mret tt);;
  mret tt.

Definition increment_rate_limit (key : string) (expire : Z) : M Z :=
  try_except
    (get_redis_client;;
     results ← pipeline_execute [INCR key; EXPIRE key expire];
     match results !! 0%nat with
     | Some r => mret r
     | None => raise (IndexError "list index out of range")
     end)
    (fun e =>
       logger_warning ("Rate limit increment error for key " +:+ key) e;;
       mret 0).

(** ** jose: the contract of python-jose's [jwt] module (version 3.3.0)

    A compact token is kept in parsed form: the algorithm of its header, its
    claims and its signature; a string that does not parse as three segments
    with a JSON header and a JSON object as payload is [Malformed].

    The signature is an ideal MAC: a tag determines the key, the algorithm
    and the claims it was made for, where the key counts as HMAC uses it
    (see [prepare]).

    What the contract leaves out, and how:
    - the RS* and ES* algorithms read the secret as a PEM document; the
      secret of the settings is taken to be a passphrase, no PEM document,
      so that no such key can be constructed;
    - on verification python-jose first tries to read the secret as a JSON
      document (a JWK or a set of keys) and uses the text as it stands when
      that fails, or when the document is a number with the very text of the
      secret; a secret that may read as another JSON value, [json_like], is
      given no key here, and the properties that need a verified token
      assume a secret that is not [json_like];
    - a claim holds a string, an integer or [null]: the other values of JSON
      (fractions, booleans, arrays, objects) are left out. *)

Module jwt.

Definition HMAC : list string := ["HS256"; "HS384"; "HS512"].
Definition RSA_DS : list string := ["RS256"; "RS384"; "RS512"].
Definition EC_DS : list string := ["ES256"; "ES384"; "ES512"].

(** [ALGORITHMS.SUPPORTED]: the algorithms [jws.sign] lets through, among
    them the ones of JWE, with which no key can sign. *)
Definition SUPPORTED : list string :=
  (HMAC ++ RSA_DS ++ EC_DS
   ++ ["dir"; "A128CBC-HS256"; "A192CBC-HS384"; "A256CBC-HS512";
       "A128GCM"; "A192GCM"; "A256GCM";
       "RSA1_5"; "RSA-OAEP"; "RSA-OAEP-256"; "A128KW"; "A192KW"; "A256KW"])%list.

(** *** Keys *)

(** [needle in s] *)
Fixpoint contains (needle s : string) : bool :=
  String.prefix needle s
  || match s with
     | EmptyString => false
     | String _ s' => contains needle s'
     end.

(** The markers with which [HMACKey] refuses a key. *)
Definition invalid_strings : list string :=
  ["-----BEGIN PUBLIC KEY-----"; "-----BEGIN RSA PUBLIC KEY-----";
   "-----BEGIN CERTIFICATE-----"; "ssh-rsa"].

Definition asymmetric_marker (key : string) : bool :=
  existsb (fun marker => contains marker key) invalid_strings.

(** The key as HMAC uses it. The bytes of the key (its UTF-8 encoding) are
    padded with zero bytes to the block of the hash, so that zero bytes at
    the end of a key do not count; a key longer than the block is replaced
    by its hash, taken to be ideal. *)
Inductive HMACKey :=
  | Padded (key : string)
  | Hashed (key : string).

#[global] Instance HMACKey_eq_dec : EqDecision HMACKey.
Proof. solve_decision. Defined.

Definition block_size (alg : string) : nat :=
  if bool_decide (alg = "HS256") then 64%nat else 128%nat.

Fixpoint utf8_length (s : string) : nat :=
  match s with
  | EmptyString => 0%nat
  | String c s' =>
      ((if (N_of_ascii c <? 128)%N then 1 else 2) + utf8_length s')%nat
  end.

Fixpoint rstrip_nul (s : string) : string :=
  match s with
  | EmptyString => EmptyString
  | String c s' =>
      match rstrip_nul s' with
      | EmptyString => if Ascii.eqb c Ascii.zero then EmptyString else String c EmptyString
      | rest => String c rest
      end
  end.

Definition prepare (alg key : string) : HMACKey :=
  if (utf8_length key <=? block_size alg)%nat
  then Padded (rstrip_nul key)
  else Hashed key.

(** [jwk.construct(key, alg)] for a secret given as text. *)
Definition construct (key alg : string) : Res HMACKey :=
  if bool_decide (alg ∈ HMAC)
  then if asymmetric_marker key then Exc JWKError else Ret (prepare alg key)
  else Exc JWKError.

(** [json_like key]: the key may read as a JSON document whose value is not
    the text of [key] itself. A JSON document starts, after white space,
    with a brace, a bracket or a quotation mark (characters 123, 91 and 34),
    or it is one of the constants, or it is a number. A number is read with
    [parse_int=str] and [parse_float=str], so that it comes out as its own
    text without the white space around it: as [key] itself, when there is
    no such white space. In every other case [json.loads(key)] fails. *)
Definition json_space (c : ascii) : bool :=
  let n := N_of_ascii c in ((n =? 32) || (n =? 9) || (n =? 10) || (n =? 13))%N.

Fixpoint json_lstrip (s : string) : string :=
  match s with
  | EmptyString => EmptyString
  | String c s' => if json_space c then json_lstrip s' else s
  end.

Fixpoint json_rstrip (s : string) : string :=
  match s with
  | EmptyString => EmptyString
  | String c s' =>
      match json_rstrip s' with
      | EmptyString => if json_space c then EmptyString else String c EmptyString
      | rest => String c rest
      end
  end.

Definition number_char (c : ascii) : bool :=
  let n := N_of_ascii c in
  ((48 <=? n) && (n <=? 57) || (n =? 43) || (n =? 45) || (n =? 46)
   || (n =? 69) || (n =? 101))%N.

Fixpoint all_number (s : string) : bool :=
  match s with
  | EmptyString => true
  | String c s' => number_char c && all_number s'
  end.

Definition json_like (key : string) : bool :=
  let s := json_rstrip (json_lstrip key) in
  match s with
  | EmptyString => false
  | String c _ =>
      existsb (N.eqb (N_of_ascii c)) [123; 91; 34]%N
      || existsb (String.eqb s) ["null"; "true"; "false"; "NaN"; "Infinity"; "-Infinity"]
      || all_number s && negb (String.eqb s key)
  end.

(** *** Tokens *)

Record Signature := {
  signed_key : HMACKey;
  signed_alg : string;
  signed_claims : gmap string pyval
}.

Inductive Token :=
  | Malformed (raw : string)
  | JWS (alg : string) (claims : gmap string pyval) (sig : Signature).

(** The token is the empty string. *)
Definition is_empty (token : Token) : bool :=
  match token with
  | Malformed raw => bool_decide (raw = "")
  | JWS _ _ _ => false
  end.

#[global] Instance Signature_eq_dec : EqDecision Signature.
Proof. solve_decision. Defined.

Definition sign (key alg : string) (claims : gmap string pyval) : Signature :=
  {| signed_key := prepare alg key; signed_alg := alg; signed_claims := claims |}.

(** *** [jwt.encode] *)

(** A [datetime] under a time claim is replaced by its integer timestamp. *)
Definition int_date (name : string) (claims : gmap string pyval) : gmap string pyval :=
  match claims !! name with
  | Some (PyDatetime t) => <[name := PyInt (timegm t)]> claims
  | _ => claims
  end.

Definition json_serializable (v : pyval) : bool :=
  match v with
  | PyDatetime _ => false
  | _ => true
  end.

(** [jws.sign] refuses an algorithm it does not know, serialises the claims
    and signs; whatever goes wrong with the key comes out as [JWSError]. *)
Definition encode (claims : gmap string pyval) (key algorithm : string) : Res Token :=
  let claims := int_date "nbf" (int_date "iat" (int_date "exp" claims)) in
  if bool_decide (algorithm ∈ SUPPORTED)
  then if forallb (fun kv => json_serializable (snd kv)) (map_to_list claims)
       then match construct key algorithm with
            | Ret _ => Ret (JWS algorithm claims (sign key algorithm claims))
            | Exc _ => Exc (JWSError "The key cannot sign with the algorithm.")
            end
       else Exc (TypeError "Object of type datetime is not JSON serializable")
  else Exc (JWSError ("Algorithm " +:+ algorithm +:+ " not supported.")).

(** *** [jwt.decode] *)

(** [int(v)] on the value of a claim. *)
Definition int_of (v : pyval) : Res Z :=
  match v with
  | PyInt z => Ret z
  | PyStr s => py_int s
  | PyNone =>
      Exc (TypeError "int() argument must be a string, a bytes-like object or a real number, not 'NoneType'")
  | PyDatetime _ =>
      Exc (TypeError "int() argument must be a string, a bytes-like object or a real number, not 'datetime.datetime'")
  end.

(** [try: int(v) except ValueError: raise JWTClaimsError(msg)] *)
Definition int_claim (v : pyval) (msg : string) : Res Z :=
  match int_of v with
  | Exc (ValueError _) => Exc (JWTError (JWTClaimsError msg))
  | r => r
  end.

Definition validate_iat (claims : gmap string pyval) : Res unit :=
  match claims !! "iat" with
  | None => Ret tt
  | Some v =>
      match int_claim v "Issued At claim (iat) must be an integer." with
      | Exc e => Exc e
      | Ret _ => Ret tt
      end
  end.

Definition validate_nbf (claims : gmap string pyval) (utcnow : datetime) : Res unit :=
  match claims !! "nbf" with
  | None => Ret tt
  | Some v =>
      match int_claim v "Not Before claim (nbf) must be an integer." with
      | Exc e => Exc e
      | Ret nbf =>
          let now := timegm utcnow in
          if now <? nbf
          then Exc (JWTError (JWTClaimsError "The token is not yet valid (nbf)"))
          else Ret tt
      end
  end.

Definition validate_exp (claims : gmap string pyval) (utcnow : datetime) : Res unit :=
  match claims !! "exp" with
  | None => Ret tt
  | Some v =>
      match int_claim v "Expiration Time claim (exp) must be an integer." with
      | Exc e => Exc e
      | Ret exp =>
          let now := timegm utcnow in
          if exp <? now
          then Exc (JWTError ExpiredSignatureError)
          else Ret tt
      end
  end.

(** No audience is given to [jwt.decode]: an [aud] claim never matches. *)
Definition validate_aud (claims : gmap string pyval) : Res unit :=
  match claims !! "aud" with
  | None => Ret tt
  | Some (PyStr _) => Exc (JWTError (JWTClaimsError "Invalid audience"))
  | Some _ => Exc (JWTError (JWTClaimsError "Invalid claim format in token"))
  end.

Definition validate_sub (claims : gmap string pyval) : Res unit :=
  match claims !! "sub" with
  | None | Some (PyStr _) => Ret tt
  | Some _ => Exc (JWTError (JWTClaimsError "Subject must be a string."))
  end.

Definition validate_jti (claims : gmap string pyval) : Res unit :=
  match claims !! "jti" with
  | None | Some (PyStr _) => Ret tt
  | Some _ => Exc (JWTError (JWTClaimsError "JWT ID must be a string."))
  end.

(** No access token is given to [jwt.decode]: an [at_hash] claim cannot be
    checked. *)
Definition validate_at_hash (claims : gmap string pyval) : Res unit :=
  match claims !! "at_hash" with
  | None => Ret tt
  | Some _ =>
      Exc (JWTError (JWTClaimsError
             "No access_token provided to compare against at_hash claim."))
  end.

(** The validations run in this order; no issuer is given, so that [iss] is
    not looked at. *)
Definition validate_claims (claims : gmap string pyval) (utcnow : datetime) : Res unit :=
  match validate_iat claims with
  | Exc e => Exc e
  | Ret _ =>
  match validate_nbf claims utcnow with
  | Exc e => Exc e
  | Ret _ =>
  match validate_exp claims utcnow with
  | Exc e => Exc e
  | Ret _ =>
  match validate_aud claims with
  | Exc e => Exc e
  | Ret _ =>
  match validate_sub claims with
  | Exc e => Exc e
  | Ret _ =>
  match validate_jti claims with
  | Exc e => Exc e
  | Ret _ => validate_at_hash claims
  end end end end end end.

(** [jws.verify], then the validation of the claims, at the instant
    [utcnow]. *)
Definition decode_at (utcnow : datetime) (token : Token) (key : string)
    (algorithms : list string) : Res (gmap string pyval) :=
  match token with
  | Malformed _ => Exc (JWTError DecodeError)
  | JWS alg claims sig =>
      if bool_decide (alg = "") then Exc (JWTError AlgorithmMissing)
      else if negb (bool_decide (alg ∈ algorithms))
      then Exc (JWTError AlgorithmNotAllowed)
      else if json_like key then Exc (JWTError SignatureVerificationFailed)
      else match construct key alg with
           | Exc e => Exc e
           | Ret prepared =>
               if negb (bool_decide (sig = {| signed_key := prepared; signed_alg := alg;
                                              signed_claims := claims |}))
               then Exc (JWTError SignatureVerificationFailed)
               else match validate_claims claims utcnow with
                    | Exc e => Exc e
                    | Ret _ => Ret claims
                    end
           end
  end.

(** [jwt.decode] reads the current time itself. *)
Definition decode (token : Token) (key : string) (algorithms : list string)
  : M (gmap string pyval) :=
  fun w => (decode_at (clock w) token key algorithms, w).

End jwt.

(** ** The calendar behind [strftime('%Y%m%d')] *)

(** Year, month and day of the proleptic Gregorian calendar for a number of
    days since 1970-01-01. *)
Definition civil_from_days (days : Z) : Z * Z * Z :=
  let z := days + 719468 in
  let era := z / 146097 in
  let doe := z - era * 146097 in
  let yoe := (doe - doe / 1460 + doe / 36524 - doe / 146096) / 365 in
  let doy := doe - (365 * yoe + yoe / 4 - yoe / 100) in
  let mp := (5 * doy + 2) / 153 in
  let d := doy - (153 * mp + 2) / 5 + 1 in
  let m := if mp <? 10 then mp + 3 else mp - 9 in
  let y := yoe + era * 400 in
  (if m <=? 2 then y + 1 else y, m, d).

Fixpoint zeros (n : nat) : string :=
  match n with
  | O => ""
  | S n' => "0" +:+ zeros n'
  end.

(** A non-negative number printed on at least [width] digits. *)
Definition zero_padded (width : nat) (n : Z) : string :=
  let s := pretty n in
  zeros (width - String.length s) +:+ s.

Definition strftime_Ymd (t : datetime) : string :=
  let '(y, m, d) := civil_from_days (t / 86400000000) in
  zero_padded 4 y +:+ zero_padded 2 m +:+ zero_padded 2 d.

(** ** app/core/security.py *)

Section security.

Variable settings : Settings.

(** Truth value of an [Optional[timedelta]]: [None] and the zero duration
    are false. *)
Definition timedelta_truthy (d : option timedelta) : bool :=
  match d with
  | Some d => negb (d =? 0)
  | None => false
  end.

Definition create_access_token (data : gmap string pyval)
    (expires_delta : option timedelta) : M jwt.Token :=
  let to_encode := data in
  expire ← (if timedelta_truthy expires_delta
            then now ← utcnow; lift_res (datetime_add now (default 0 expires_delta))
            else now ← utcnow;
                 delta ← lift_res (timedelta_of_minutes (access_token_expire_minutes settings));
                 lift_res (datetime_add now delta));
  iat ← utcnow;
  let to_encode := <["iat" := PyDatetime iat]> (<["exp" := PyDatetime expire]> to_encode) in
  try_except
    (lift_res (jwt.encode to_encode (secret_key settings) (algorithm settings)))
    (fun e =>
       logger_error "Error creating access token" e;;
       raise (ValueError "Failed to create access token")).

Definition verify_token (token : jwt.Token) : M (option (gmap string pyval)) :=
  try_except
    (payload ← jwt.decode token (secret_key settings) [algorithm settings];
     mret (Some payload))
    (fun e =>
       if is_JWTError e
       then logger_warning "Invalid token" e;; mret None
       else logger_error "Token verification error" e;; mret None).

Definition generate_api_key : M string :=
  now ← utcnow;
  mret ("sk_" +:+ String.substring 0 16 (secret_key settings) +:+ "_" +:+ strftime_Ymd now).

End security.

(** ** app/models/user.py: [User.is_api_key_valid] *)

(** Truth value of an [Optional[str]]: [None] and the empty string are false. *)
Definition str_truthy (s : option string) : bool :=
  match s with
  | Some s => negb (bool_decide (s = ""))
  | None => false
  end.

Definition is_api_key_valid (self : User) : M bool :=
  if negb (str_truthy (api_key self))
  then mret false
  else match api_key_expires_at self with
       | Some expires_at =>
           now ← utcnow;
           if expires_at <? now then mret false else mret true
       | None => mret true
       end.

(** ** app/core/cache.py: reading and clearing a counter *)

Definition with_redis_up (up : bool) (w : World) : World :=
  {| clock := clock w; users := users w; db_up := db_up w; redis_up := up;
     redis_data := redis_data w; redis_client := redis_client w; log := log w |}.

(** [await client.get(key)]: the decimal string of the integer a live key
    holds (the client decodes responses to [str]). *)
Definition redis_get (key : string) : M (option string) := fun w =>
  if redis_up w
  then (Ret (pretty <$> (entry_value <$> redis_lookup (clock w) (redis_data w) key)), w)
  else (Exc RedisConnectionError, w).

(** [await client.delete(key)]: the number of keys removed. *)
Definition redis_del (key : string) : M Z := fun w =>
  if redis_up w
  then (Ret (match redis_lookup (clock w) (redis_data w) key with
             | Some _ => 1
             | None => 0
             end),
        with_redis_data (delete key (redis_data w)) w)
  else (Exc RedisConnectionError, w).

Definition get_rate_limit (key : string) : M Z :=
  try_except
    (get_redis_client;;
     value ← redis_get key;
     if str_truthy value then lift_res (py_int (default "" value)) else mret 0)
    (fun e =>
       logger_warning ("Rate limit get error for key " +:+ key) e;;
       mret 0).

Definition delete_cache (key : string) : M bool :=
  try_except
    (get_redis_client;;
     result ← redis_del key;
     mret (0 <? result))
    (fun e =>
       logger_warning ("Cache delete error for key " +:+ key) e;;
       mret false).

Definition clear_rate_limit (key : string) : M bool := delete_cache key.

(** ** Database: the contract of the users table behind SQLAlchemy

    A query fails with [OperationalError] when the server does not answer.
    [api_key] is declared [unique=True]: an update that would give two rows
    the same non-null key is refused with [IntegrityError]. *)

Definition db_select (where_ : User -> bool) : M (list User) := fun w =>
  if db_up w
  then (Ret (List.filter where_ (users w)), w)
  else (Exc OperationalError, w).

Definition scalar_one_or_none (rows : list User) : M (option User) :=
  match rows with
  | [] => mret None
  | [u] => mret (Some u)
  | _ => raise MultipleResultsFound
  end.

Definition api_key_taken_by_other (user : User) (rows : list User) : bool :=
  existsb (fun u => negb (id u =? id user)
                    && bool_decide (is_Some (api_key user))
                    && bool_decide (api_key u = api_key user)) rows.

(** [await db.commit()] with [user]'s [api_key] columns modified. *)
Definition db_commit (user : User) : M unit := fun w =>
  if negb (db_up w) then (Exc OperationalError, w)
  else if api_key_taken_by_other user (users w) then (Exc IntegrityError, w)
  else (Ret tt,
        with_users (List.map (fun u => if id u =? id user then user else u) (users w)) w).

(** [await db.refresh(user)] *)
Definition db_refresh (user : User) : M unit := fun w =>
  if db_up w then (Ret tt, w) else (Exc OperationalError, w).

(** ** app/services/user_service.py *)

Section user_service.

Variable settings : Settings.

(** [user_id] is whatever the token's payload holds; only an integer can be
    compared with the integer primary key. *)
Definition get_user_by_id (user_id : pyval) : M (option User) :=
  match user_id with
  | PyInt n =>
      rows ← db_select (fun u => id u =? n);
      scalar_one_or_none rows
  | _ => raise DataError
  end.

Definition get_user_by_api_key (key : string) : M (option User) :=
  rows ← db_select (fun u => bool_decide (api_key u = Some key));
  scalar_one_or_none rows.

Definition create_access_token_for_user (user : User) : M jwt.Token :=
  let data := <["user_id" := PyInt (id user)]> (<["sub" := PyStr (username user)]> ∅) in
  create_access_token settings data None.

Definition generate_api_key_for_user (user : User) : M string :=
  key ← generate_api_key settings;
  now ← utcnow;
  let user := set_api_key user (Some key) (Some (now + timedelta_days 365)) in
  db_commit user;;
  db_refresh user;;
  mret key.

End user_service.

(** ** app/models/user.py: the [user_ratings] table;
       app/services/user_service.py: ratings

    The rating functions run against the users' database: its availability
    and its clock are those of the world; the table of ratings and the
    sequence that numbers its rows are kept beside it. A new row takes the
    next number of the sequence as its [id] and the current time as
    [created_at] and [updated_at], the defaults of the columns. *)

Module ratings.

Record UserRating := {
  id : Z;
  user_id : Z;
  movie_id : Z;
  rating : Z;
  review : option string;
  created_at : datetime;
  updated_at : datetime
}.

Record Database := {
  world : World;
  user_ratings : list UserRating;
  user_ratings_id_seq : Z
}.

Definition DB (A : Type) : Type := Database -> Res A * Database.

Definition ret {A} (a : A) : DB A := fun db => (Ret a, db).

Definition bind {A B} (m : DB A) (f : A -> DB B) : DB B := fun db =>
  match m db with
  | (Ret a, db') => f a db'
  | (Exc e, db') => (Exc e, db')
  end.

Definition with_user_ratings (rows : list UserRating) (db : Database) : Database :=
  {| world := world db; user_ratings := rows;
     user_ratings_id_seq := user_ratings_id_seq db |}.

(** [select(UserRating).where(and_(user_id == .., movie_id == ..))] *)
Definition rated (uid mid : Z) (r : UserRating) : bool :=
  (user_id r =? uid) && (movie_id r =? mid).

Definition execute_select (where_ : UserRating -> bool) : DB (list UserRating) := fun db =>
  if db_up (world db)
  then (Ret (List.filter where_ (user_ratings db)), db)
  else (Exc OperationalError, db).

Definition one_or_none (rows : list UserRating) : DB (option UserRating) :=
  match rows with
  | [] => ret None
  | [r] => ret (Some r)
  | _ => fun db => (Exc MultipleResultsFound, db)
  end.

(** [await db.commit()] after attribute changes on a loaded row: the row
    with its primary key is replaced. *)
Definition replace_row (row r : UserRating) : UserRating :=
  if id r =? id row then row else r.

Definition commit_update (row : UserRating) : DB unit := fun db =>
  if db_up (world db)
  then (Ret tt, with_user_ratings (List.map (replace_row row) (user_ratings db)) db)
  else (Exc OperationalError, db).

(** [db.add(row); await db.commit(); await db.refresh(row)] for a new row:
    the row as stored, with its generated columns. *)
Definition commit_insert (uid mid value : Z) (text : option string) : DB UserRating :=
  fun db =>
    if db_up (world db)
    then let row := {| id := user_ratings_id_seq db; user_id := uid; movie_id := mid;
                       rating := value; review := text;
                       created_at := clock (world db);
                       updated_at := clock (world db) |} in
         (Ret row,
          {| world := world db; user_ratings := (user_ratings db ++ [row])%list;
             user_ratings_id_seq := user_ratings_id_seq db + 1 |})
    else (Exc OperationalError, db).

(** [await db.delete(row); await db.commit()] *)
Definition commit_delete (row : UserRating) : DB unit := fun db =>
  if db_up (world db)
  then (Ret tt,
        with_user_ratings
          (List.filter (fun r => negb (id r =? id row)) (user_ratings db)) db)
  else (Exc OperationalError, db).

Definition datetime_utcnow : DB datetime := fun db => (Ret (clock (world db)), db).

Definition add_user_rating (uid mid value : Z) (text : option string) : DB UserRating :=
  bind (execute_select (rated uid mid)) (fun result =>
  bind (one_or_none result) (fun existing_rating =>
  match existing_rating with
  | Some existing_rating =>
      bind datetime_utcnow (fun now =>
      let existing_rating :=
        {| id := id existing_rating; user_id := user_id existing_rating;
           movie_id := movie_id existing_rating;
           rating := value;
           review := match text with
                     | Some _ => text
                     | None => review existing_rating
                     end;
           created_at := created_at existing_rating;
           updated_at := now |} in
      bind (commit_update existing_rating) (fun _ =>
      ret existing_rating))
  | None => commit_insert uid mid value text
  end)).

Definition delete_user_rating (uid mid : Z) : DB bool :=
  bind (execute_select (rated uid mid)) (fun result =>
  bind (one_or_none result) (fun found =>
  match found with
  | Some found => bind (commit_delete found) (fun _ => ret true)
  | None => ret false
  end)).

End ratings.

(** ** app/api/deps.py *)

Record Address := {
  host : string;
  port : Z
}.

Record HTTPAuthorizationCredentials := {
  scheme : string;
  credentials : jwt.Token
}.

(** The part of a Starlette request the dependencies read: the headers (names
    in lower case), the Authorization header split into scheme and token, and
    the peer address when the server knows it. *)
Record Request := {
  req_headers : gmap string string;
  req_authorization : option (string * jwt.Token);
  req_client : option Address
}.

Definition ascii_lower (c : ascii) : ascii :=
  let n := N_of_ascii c in
  if ((65 <=? n) && (n <=? 90))%N then ascii_of_N (n + 32) else c.

Fixpoint str_lower (s : string) : string :=
  match s with
  | EmptyString => EmptyString
  | String c s' => String (ascii_lower c) (str_lower s')
  end.

(** [request.headers.get(name)]: header names compare without case. *)
Definition headers_get (request : Request) (name : string) : option string :=
  req_headers request !! str_lower name.

(** [security = HTTPBearer(auto_error=False)] *)
Definition security (request : Request) : option HTTPAuthorizationCredentials :=
  match req_authorization request with
  | Some (sch, tok) =>
      if bool_decide (sch = "") || jwt.is_empty tok then None
      else if negb (bool_decide (str_lower sch = "bearer")) then None
      else Some {| scheme := sch; credentials := tok |}
  | None => None
  end.

Section deps.

Variable settings : Settings.

Definition get_current_user (creds : option HTTPAuthorizationCredentials)
  : M (option User) :=
  match creds with
  | None => mret None
  | Some creds =>
      try_except
        (payload ← verify_token settings (credentials creds);
         match payload with
         | None => mret None
         | Some payload =>
             let username := dict_get payload "sub" in
             let user_id := dict_get payload "user_id" in
             if is_PyNone username || is_PyNone user_id then mret None
             else
               user ← get_user_by_id user_id;
               match user with
               | None => mret None
               | Some user =>
                   if negb (is_active user) then mret None else mret (Some user)
               end
         end)
        (fun e => logger_error "Authentication error" e;; mret None)
  end.

Definition get_current_active_user (current_user : option User) : M User :=
  match current_user with
  | None =>
      raise (HTTPError {| status_code := HTTP_401_UNAUTHORIZED;
                          detail := "Not authenticated";
                          headers := [("WWW-Authenticate", "Bearer")] |})
  | Some current_user =>
      if negb (is_active current_user)
      then raise (HTTPError {| status_code := HTTP_400_BAD_REQUEST;
                               detail := "Inactive user";
                               headers := [] |})
      else mret current_user
  end.

Definition verify_api_key (request : Request) : M (option User) :=
  let key := headers_get request "X-API-Key" in
  match key with
  | None => mret None
  | Some key =>
      if bool_decide (key = "") then mret None
      else
        try_except
          (user ← get_user_by_api_key key;
           match user with
           | None => mret None
           | Some user =>
               valid ← is_api_key_valid user;
               if valid && is_active user then mret (Some user) else mret None
           end)
          (fun e => logger_error "API key verification error" e;; mret None)
  end.

(** The local [user_id] of [rate_limit_middleware]. *)
Definition rate_limit_user_id (request : Request) (current_user api_user : option User)
  : M string :=
  match current_user, api_user with
  | Some current_user, _ => mret ("user:" +:+ pretty (id current_user))
  | None, Some api_user => mret ("api:" +:+ pretty (id api_user))
  | None, None =>
      match req_client request with
      | Some client => mret ("ip:" +:+ host client)
      | None => raise (AttributeError "'NoneType' object has no attribute 'host'")
      end
  end.

Definition RateLimitExceeded : HTTPException :=
  {| status_code := HTTP_429_TOO_MANY_REQUESTS;
     detail := "Rate limit exceeded. Maximum "
               +:+ pretty (rate_limit_per_minute settings)
               +:+ " requests per minute.";
     headers := [("Retry-After", "60")] |}.

Definition rate_limit_middleware (request : Request)
    (current_user api_user : option User) : M unit :=
  user_id ← rate_limit_user_id request current_user api_user;
  current_count ← increment_rate_limit user_id 60;
  if rate_limit_per_minute settings <? current_count
  then raise (HTTPError RateLimitExceeded)
  else mret tt.

Definition require_auth (current_user api_user : option User) : M User :=
  match current_user, api_user with
  | Some current_user, _ => mret current_user
  | None, Some api_user => mret api_user
  | None, None =>
      raise (HTTPError {| status_code := HTTP_401_UNAUTHORIZED;
                          detail := "Authentication required";
                          headers := [("WWW-Authenticate", "Bearer")] |})
  end.

Definition optional_auth (current_user api_user : option User) : M (option User) :=
  match current_user, api_user with
  | Some current_user, _ => mret (Some current_user)
  | None, Some api_user => mret (Some api_user)
  | None, None => mret None
  end.

(** *** Dependency resolution

    FastAPI computes the [Depends(...)] parameters of a dependency from the
    request, in the order of the parameters, before calling it. *)

Definition Depends_get_current_user (request : Request) : M (option User) :=
  get_current_user (security request).

Definition call_get_current_active_user (request : Request) : M User :=
  current_user ← Depends_get_current_user request;
  get_current_active_user current_user.

Definition call_rate_limit_middleware (request : Request) : M unit :=
  current_user ← Depends_get_current_user request;
  api_user ← verify_api_key request;
  rate_limit_middleware request current_user api_user.

Definition call_require_auth (request : Request) : M User :=
  current_user ← Depends_get_current_user request;
  api_user ← verify_api_key request;
  require_auth current_user api_user.

Definition call_optional_auth (request : Request) : M (option User) :=
  current_user ← Depends_get_current_user request;
  api_user ← verify_api_key request;
  optional_auth current_user api_user.

End deps.

(** ** app/api/v1/endpoints/auth.py

    The dependencies of an endpoint are resolved in the order of its
    parameters, and a dependency that several of them share is resolved
    once per request. *)

Section endpoints_auth.

Variable settings : Settings.

(** GET /me *)
Definition get_current_user_info (request : Request) : M User :=
  current_user ← get_current_user settings (security request);
  api_user ← verify_api_key request;
  user ← require_auth current_user api_user;
  rate_limit_middleware settings request current_user api_user;;
  mret user.

(** POST /logout *)
Definition logout_user (request : Request) : M (list (string * string)) :=
  current_user ← get_current_user settings (security request);
  api_user ← verify_api_key request;
  rate_limit_middleware settings request current_user api_user;;
  mret [("message", "Successfully logged out")].

End endpoints_auth.

(** ** Sequences of calls

    [run_at m arrivals w] issues the computation [m] once per arrival time, in
    sequence, each call seeing the world left by the previous one with the
    clock moved to its arrival time. *)

Fixpoint run_at {A} (m : M A) (arrivals : list datetime) (w : World)
  : list (Res A) * World :=
  match arrivals with
  | [] => ([], w)
  | t :: ts =>
      let '(r, w1) := m (with_clock t w) in
      let '(rs, w2) := run_at m ts w1 in
      (r :: rs, w2)
  end.

(** ** app/models/movie.py

    Python floats are idealised as rationals. *)

Module movie.

Record Movie := {
  id : Z;
  title : string;
  release_date : option datetime;
  vote_average : option Q;
  vote_count : option Z;
  popularity : option Q;
  budget : option Z;
  revenue : option Z
}.

(** [x or d] on an optional number: [d] when [x] is [None] or zero. *)
Definition float_or (x : option Q) (d : Q) : Q :=
  match x with
  | Some q => if Qeq_bool q 0 then d else q
  | None => d
  end.

Definition int_or (x : option Z) (d : Z) : Z :=
  match x with
  | Some z => if z =? 0 then d else z
  | None => d
  end.

Definition int_truthy (x : option Z) : bool :=
  match x with
  | Some z => negb (z =? 0)
  | None => false
  end.

(** [(a - b).days] *)
Definition timedelta_days_of (a b : datetime) : Z := (a - b) / 86400000000.

Definition datetime_now : M datetime := fun w => (Ret (clock w), w).

Definition popularity_score (self : Movie) : M Q :=
  let base_score := float_or (popularity self) 0 in
  let vote_score :=
    (float_or (vote_average self) 0
     * Qmin (inject_Z (int_or (vote_count self) 0) / 1000) 1)%Q in
  recency_bonus ←
    match release_date self with
    | Some released =>
        now ← datetime_now;
        let years_old := (inject_Z (timedelta_days_of now released) / 365)%Q in
        mret (Qmax 0 (1 - years_old / 10))%Q
    | None => mret (1 # 2)%Q
    end;
  let financial_bonus :=
    if int_truthy (budget self) && int_truthy (revenue self)
       && (0 <? default 0 (budget self))
    then
      let b := default 0 (budget self) in
      let r := default 0 (revenue self) in
      let roi := (inject_Z (r - b)%Z / inject_Z b)%Q in
      Qmin (roi / 10) 1
    else 0%Q in
  mret (base_score + vote_score + recency_bonus * (1 # 2) + financial_bonus * (3 # 10))%Q.

End movie.

(** ** Vocabulary of the properties *)

(** Every arrival comes less than [window] after the previous one, so that it
    finds the counter of the previous call alive. *)
Fixpoint within_window (window : timedelta) (prev : datetime) (arrivals : list datetime)
  : Prop :=
  match arrivals with
  | [] => True
  | t :: ts => t < prev + window /\ within_window window t ts
  end.

(** The store answers and holds [count] under [key], written at [prev] with
    a time to live of 60 seconds. *)
Definition counter_at (key : string) (count : Z) (prev : datetime) (w : World) : Prop :=
  redis_up w = true /\
  redis_data w !! key
  = Some {| entry_value := count; entry_deadline := Some (prev + timedelta_seconds 60) |}.

(** The outcomes of calls number [first], [first + 1], ... under [limit]. *)
Definition admitted_up_to (limit : Z) (rejection : HTTPException) (first n : nat)
  : list (Res unit) :=
  List.map (fun i => if limit <? Z.of_nat i then Exc (HTTPError rejection) else Ret tt)
           (seq first n).

Definition counts_from (first n : nat) : list (Res Z) :=
  List.map (fun i => Ret (Z.of_nat i)) (seq first n).

(** What the middleware does with the result of the increment. *)
Definition rate_limit_decision (settings : Settings) (r : Res Z) : Res unit :=
  match r with
  | Ret count =>
      if rate_limit_per_minute settings <? count
      then Exc (HTTPError (RateLimitExceeded settings))
      else Ret tt
  | Exc e => Exc e
  end.

Ltac run :=
  unfold mbind, M_bind, mret, M_ret, try_except, raise, lift_res, utcnow,
    logger_info, logger_warning, logger_error, logger_log,
    read_redis_client, write_redis_client, redis_ping, pipeline_execute,
    db_select, scalar_one_or_none in *.

(** The address of the caller, as the server reports it. *)
Definition caller_address (request : Request) : string :=
  default "" (host <$> req_client request).

(** The key of the rate counter as the specification words it: the session
    identity first, then the API-key identity, then the caller's address. *)
Definition expected_rate_limit_key (request : Request)
    (session_identity api_key_identity : option User) : string :=
  match session_identity with
  | Some u => "user:" +:+ pretty (id u)
  | None =>
      match api_key_identity with
      | Some u => "api:" +:+ pretty (id u)
      | None => "ip:" +:+ caller_address request
      end
  end.

Definition Unauthenticated (detail : string) : HTTPException :=
  {| status_code := 401; detail := detail;
     headers := [("WWW-Authenticate", "Bearer")] |}.

Definition InactiveAccount : HTTPException :=
  {| status_code := 400; detail := "Inactive user"; headers := [] |}.



(** The token is expired at the instant [now]: its [exp] claim reads as an
    integer that lies before the second of [now]. *)
Definition token_expired (now : datetime) (token : jwt.Token) : Prop :=
  exists alg claims sig v exp,
    token = jwt.JWS alg claims sig
    /\ claims !! "exp" = Some v
    /\ jwt.int_of v = Ret exp
    /\ exp < timegm now.

(** The registered claims pass at the instant [now]: the time claims read as
    integers, the second of [now] lies between [nbf] and [exp], where they
    are present, [sub] and [jti] are strings, and there is neither an
    audience nor an access-token hash to compare. *)
Definition claims_valid (now : datetime) (claims : gmap string pyval) : Prop :=
  (forall v, claims !! "iat" = Some v -> exists t, jwt.int_of v = Ret t)
  /\ (forall v, claims !! "nbf" = Some v ->
        exists t, jwt.int_of v = Ret t /\ t <= timegm now)
  /\ (forall v, claims !! "exp" = Some v ->
        exists t, jwt.int_of v = Ret t /\ timegm now <= t)
  /\ claims !! "aud" = None
  /\ (claims !! "sub" = None \/ exists s, claims !! "sub" = Some (PyStr s))
  /\ (claims !! "jti" = None \/ exists s, claims !! "jti" = Some (PyStr s))
  /\ claims !! "at_hash" = None.


(** The server signs with an HS* algorithm and a secret that python-jose
    takes as it stands, for signing and for verifying. *)
Definition passphrase_settings (settings : Settings) : Prop :=
  algorithm settings ∈ jwt.HMAC
  /\ jwt.asymmetric_marker (secret_key settings) = false
  /\ jwt.json_like (secret_key settings) = false.

(** A token carrying [claims], signed with the server's key and algorithm,
    valid at [now]. *)
Definition token_valid (settings : Settings) (now : datetime) (token : jwt.Token)
    (claims : gmap string pyval) : Prop :=
  exists alg sig,
    token = jwt.JWS alg claims sig
    /\ alg = algorithm settings
    /\ sig = jwt.sign (secret_key settings) alg claims
    /\ claims_valid now claims.

(** The claims of a token issued to subject [sub] with identity [user_id]. *)
Definition user_data (sub : string) (user_id : Z) : gmap string pyval :=
  <["user_id" := PyInt user_id]> (<["sub" := PyStr sub]> ∅).

Definition user_claims (sub : string) (user_id : Z) (iat exp : Z) : gmap string pyval :=
  <["iat" := PyInt iat]> (<["exp" := PyInt exp]> (user_data sub user_id)).

(** The expiry instant of a token issued at [now]: the given time to live
    when there is one and it is not zero, the configured one otherwise. *)
Definition expiry_instant (settings : Settings) (expires_delta : option timedelta)
    (now : datetime) : datetime :=
  now + (if timedelta_truthy expires_delta
         then default 0 expires_delta
         else timedelta_minutes (access_token_expire_minutes settings)).

(** The expiry instant can be computed: the configured minutes make a
    [timedelta] (when they are used) and the expiry instant is a
    [datetime]. *)
Definition expiry_representable (settings : Settings) (expires_delta : option timedelta)
    (now : datetime) : bool :=
  (timedelta_truthy expires_delta
   || (timedelta_days (-999999999)
         <=? timedelta_minutes (access_token_expire_minutes settings))
      && (timedelta_minutes (access_token_expire_minutes settings)
            <? timedelta_days 1000000000))
  && ((datetime_min <=? expiry_instant settings expires_delta now)
      && (expiry_instant settings expires_delta now <=? datetime_max)).

(** The popularity score as the specification words it. An integer field is
    unset when it holds no value or the column default 0. *)
Definition unset (x : option Z) : bool :=
  match x with
  | None => true
  | Some z => z =? 0
  end.

Definition expected_vote_component (m : movie.Movie) : Q :=
  (default 0 (movie.vote_average m)
   * Qmin (inject_Z (default 0%Z (movie.vote_count m)) / 1000) 1)%Q.

Definition expected_recency_bonus (m : movie.Movie) (now : datetime) : Q :=
  match movie.release_date m with
  | None => (1 # 2)%Q
  | Some released =>
      let days_since_release := movie.timedelta_days_of now released in
      (Qmax 0 (1 - (inject_Z days_since_release / 365) / 10))%Q
  end.

Definition expected_financial_bonus (m : movie.Movie) : Q :=
  let budget := default 0 (movie.budget m) in
  let revenue := default 0 (movie.revenue m) in
  if (budget <=? 0) || unset (movie.budget m) || unset (movie.revenue m)
  then 0%Q
  else (Qmin ((inject_Z (revenue - budget)%Z / inject_Z budget) / 10) 1)%Q.

Definition expected_score (m : movie.Movie) (now : datetime) : Q :=
  (default 0 (movie.popularity m)
   + expected_vote_component m
   + (1 # 2) * expected_recency_bonus m now
   + (3 # 10) * expected_financial_bonus m)%Q.

(** Two worlds that differ at most in their log. *)
Definition same_but_log (w w' : World) : Prop :=
  clock w' = clock w /\ users w' = users w /\ db_up w' = db_up w
  /\ redis_up w' = redis_up w /\ redis_data w' = redis_data w
  /\ redis_client w' = redis_client w.

(** Two worlds that agree on what identity resolution reads: the clock and
    the users table with its availability. *)
Definition same_accounts (w w' : World) : Prop :=
  clock w' = clock w /\ users w' = users w /\ db_up w' = db_up w.

(** The identity the token path resolves, as a function of what it reads:
    the clock, the rows of the users table and whether the database
    answers. *)
Definition session_identity (settings : Settings)
    (creds : option HTTPAuthorizationCredentials)
    (now : datetime) (rows : list User) (up : bool) : option User :=
  match creds with
  | None => None
  | Some c =>
      match jwt.decode_at now (credentials c) (secret_key settings) [algorithm settings] with
      | Exc _ => None
      | Ret claims =>
          if is_PyNone (dict_get claims "sub") then None
          else match dict_get claims "user_id" with
               | PyInt n =>
                   if up
                   then match List.filter (fun u => id u =? n) rows with
                        | [u] => if is_active u then Some u else None
                        | _ => None
                        end
                   else None
               | _ => None
               end
      end
  end.

(** No API key is held by two accounts. *)
Definition api_keys_unique (rows : list User) : Prop :=
  forall u v key,
    In u rows -> In v rows ->
    api_key u = Some key -> api_key v = Some key -> id u = id v.

(** A movie with another popularity, another vote average. *)
Definition with_popularity (p : option Q) (m : movie.Movie) : movie.Movie :=
  {| movie.id := movie.id m; movie.title := movie.title m;
     movie.release_date := movie.release_date m;
     movie.vote_average := movie.vote_average m; movie.vote_count := movie.vote_count m;
     movie.popularity := p; movie.budget := movie.budget m;
     movie.revenue := movie.revenue m |}.

Definition with_vote_average (v : option Q) (m : movie.Movie) : movie.Movie :=
  {| movie.id := movie.id m; movie.title := movie.title m;
     movie.release_date := movie.release_date m;
     movie.vote_average := v; movie.vote_count := movie.vote_count m;
     movie.popularity := movie.popularity m; movie.budget := movie.budget m;
     movie.revenue := movie.revenue m |}.

(** The ratings table is well formed: its ids are distinct and below the
    next number of the sequence, and a user has at most one rating per
    movie. *)
Definition ratings_wf (db : ratings.Database) : Prop :=
  NoDup (List.map ratings.id (ratings.user_ratings db))
  /\ (forall r, In r (ratings.user_ratings db) -> ratings.id r < ratings.user_ratings_id_seq db)
  /\ (forall r1 r2,
        In r1 (ratings.user_ratings db) -> In r2 (ratings.user_ratings db) ->
        ratings.user_id r1 = ratings.user_id r2 ->
        ratings.movie_id r1 = ratings.movie_id r2 -> r1 = r2).

(** The ratings of user [uid] for movie [mid]. *)
Definition ratings_of (uid mid : Z) (db : ratings.Database) : list ratings.UserRating :=
  List.filter (ratings.rated uid mid) (ratings.user_ratings db).

(** ** A sample deployment

    Three accounts (the third one disabled), a token issued to each of them
    at the sample instant, and requests carrying the various credentials. *)

Definition sample_settings : Settings :=
  {| secret_key := "0123456789abcdef0123456789abcdef";
     algorithm := "HS256";
     access_token_expire_minutes := 30;
     rate_limit_per_minute := 3 |}.

Definition alice : User :=
  {| id := 7; username := "alice"; email := "alice@example.org";
     hashed_password := "$2b$12$alice"; is_active := true; is_verified := true;
     api_key := None; api_key_expires_at := None |}.

Definition bob : User :=
  {| id := 8; username := "bob"; email := "bob@example.org";
     hashed_password := "$2b$12$bob"; is_active := true; is_verified := false;
     api_key := Some "sk_machine_client"; api_key_expires_at := None |}.

Definition carol : User :=
  {| id := 9; username := "carol"; email := "carol@example.org";
     hashed_password := "$2b$12$carol"; is_active := false; is_verified := true;
     api_key := None; api_key_expires_at := None |}.

(** 2024-02-29 12:33:20 UTC *)
Definition sample_instant : datetime := 1709210000000000.

Definition sample_world : World :=
  {| clock := sample_instant; users := [alice; bob; carol]; db_up := true;
     redis_up := true; redis_data := ∅; redis_client := false; log := [] |}.

(** The same deployment with the counter store unreachable, behind a client
    handle obtained earlier. *)
Definition sample_world_store_down : World :=
  {| clock := sample_instant; users := [alice; bob; carol]; db_up := true;
     redis_up := false; redis_data := ∅; redis_client := true; log := [] |}.

Definition sample_token (user : User) : jwt.Token :=
  match fst (create_access_token_for_user sample_settings user sample_world) with
  | Ret token => token
  | Exc _ => jwt.Malformed ""
  end.

(** The token issued to alice at [issued_at] for one second. *)
Definition sample_token_at (issued_at : datetime) : jwt.Token :=
  match fst (create_access_token sample_settings
               (<["user_id" := PyInt 7]> (<["sub" := PyStr "alice"]> ∅))
               (Some (timedelta_seconds 1)) (with_clock issued_at sample_world)) with
  | Ret token => token
  | Exc _ => jwt.Malformed ""
  end.

Definition sample_client : Address := {| host := "10.0.0.5"; port := 51234 |}.

Definition request_anonymous : Request :=
  {| req_headers := ∅; req_authorization := None; req_client := Some sample_client |}.

Definition request_with_token (user : User) : Request :=
  {| req_headers := ∅;
     req_authorization := Some ("Bearer", sample_token user);
     req_client := Some sample_client |}.

Definition request_with_api_key (key : string) : Request :=
  {| req_headers := {[ "x-api-key" := key ]};
     req_authorization := None;
     req_client := Some sample_client |}.

Definition request_with_both (user : User) (key : string) : Request :=
  {| req_headers := {[ "x-api-key" := key ]};
     req_authorization := Some ("Bearer", sample_token user);
     req_client := Some sample_client |}.

(** The movie of the test suite's fixture. *)
Definition sample_movie : movie.Movie :=
  {| movie.id := 1; movie.title := "Test Movie"; movie.release_date := None;
     movie.vote_average := Some (17 # 2)%Q; movie.vote_count := Some 1000;
     movie.popularity := Some 100%Q; movie.budget := None; movie.revenue := None |}.

(** The same deployment while the database does not answer. *)
Definition sample_world_db_down : World :=
  {| clock := sample_instant; users := [alice; bob; carol]; db_up := false;
     redis_up := true; redis_data := ∅; redis_client := false; log := [] |}.

(** Two ratings of the same movie, by alice and by bob. *)
Definition sample_ratings : ratings.Database :=
  {| ratings.world := sample_world;
     ratings.user_ratings :=
       [ {| ratings.id := 1; ratings.user_id := 7; ratings.movie_id := 603;
            ratings.rating := 6; ratings.review := Some "Good";
            ratings.created_at := 1709000000000000;
            ratings.updated_at := 1709000000000000 |};
         {| ratings.id := 2; ratings.user_id := 8; ratings.movie_id := 603;
            ratings.rating := 9; ratings.review := None;
            ratings.created_at := 1709100000000000;
            ratings.updated_at := 1709100000000000 |} ];
     ratings.user_ratings_id_seq := 3 |}.

(** * Properties *)

(** ** The rate limiter *)

Lemma get_redis_client_up w :
  redis_up w = true ->
  exists w', get_redis_client w = (Ret tt, w') /\ redis_up w' = true /\
             redis_data w' = redis_data w /\ clock w' = clock w.
Proof.
  intros Hup. unfold get_redis_client. run. cbn.
  destruct (redis_client w); cbn; rewrite ?Hup; cbn; eauto 10.
Qed.

Lemma get_redis_client_down w :
  redis_up w = false ->
  (exists w', get_redis_client w = (Ret tt, w') /\ redis_up w' = false /\ log w' = log w)
  \/ (exists w', get_redis_client w = (Exc RedisConnectionError, w')).
Proof.
  intros Hdown. unfold get_redis_client. run. cbn.
  destruct (redis_client w); cbn; rewrite ?Hdown; cbn; eauto 10.
Qed.

Lemma increment_first key w :
  redis_up w = true -> redis_data w !! key = None ->
  exists w', increment_rate_limit key 60 w = (Ret 1, w') /\ counter_at key 1 (clock w) w'.
Proof.
  intros Hup Hfresh. unfold increment_rate_limit.
  destruct (get_redis_client_up w Hup) as (w1 & Hc & Hup1 & Hd1 & Hclk).
  run. rewrite Hc. cbn. rewrite Hup1. cbn.
  unfold redis_lookup. rewrite Hd1, Hfresh, lookup_insert_eq. cbn.
  eexists; split; [reflexivity|]. split; cbn; [done|].
  by rewrite lookup_insert_eq, Hclk.
Qed.

Lemma increment_next key count prev w :
  counter_at key count prev w -> clock w < prev + timedelta_seconds 60 ->
  exists w', increment_rate_limit key 60 w = (Ret (count + 1), w')
             /\ counter_at key (count + 1) (clock w) w'.
Proof.
  intros [Hup Hkey] Hlive. unfold increment_rate_limit.
  destruct (get_redis_client_up w Hup) as (w1 & Hc & Hup1 & Hd1 & Hclk).
  run. rewrite Hc. cbn. rewrite Hup1. cbn.
  assert (Hlt : (clock w <? prev + timedelta_seconds 60) = true) by lia.
  unfold redis_lookup. rewrite Hd1, Hkey, Hclk. cbn. rewrite Hlt.
  rewrite lookup_insert_eq. cbn. rewrite Hlt. cbn.
  eexists; split; [reflexivity|]. split; cbn; [done|].
  by rewrite lookup_insert_eq.
Qed.

Lemma counter_at_with_clock key count prev t w :
  counter_at key count prev w -> counter_at key count prev (with_clock t w).
Proof. intros [? ?]. by split. Qed.

Lemma increments_continue key ts : forall count prev w,
  (0 <= count) ->
  counter_at key count prev w -> within_window (timedelta_seconds 60) prev ts ->
  fst (run_at (increment_rate_limit key 60) ts w)
  = counts_from (S (Z.to_nat count)) (length ts).
Proof.
  induction ts as [|t ts IH]; intros count prev w Hpos Hat Hwin; [done|].
  destruct Hwin as [Hlive Hwin]. cbn [run_at].
  destruct (increment_next key count prev (with_clock t w)) as (w1 & Hrun & Hat1);
    [by apply counter_at_with_clock | done |].
  rewrite Hrun. cbn in Hat1.
  specialize (IH (count + 1) t w1 ltac:(lia) Hat1 Hwin).
  destruct (run_at _ ts w1) as [rs w2]. cbn in IH |- *. rewrite IH.
  unfold counts_from. cbn. repeat f_equal; lia.
Qed.

Lemma increments_from_fresh key t ts w :
  redis_up w = true -> redis_data w !! key = None -> within_window (timedelta_seconds 60) t ts ->
  fst (run_at (increment_rate_limit key 60) (t :: ts) w)
  = counts_from 1 (S (length ts)).
Proof.
  intros Hup Hfresh Hwin. cbn [run_at].
  destruct (increment_first key (with_clock t w)) as (w1 & Hrun & Hat1); [done..|].
  rewrite Hrun. cbn in Hat1.
  pose proof (increments_continue key ts 1 t w1 ltac:(lia) Hat1 Hwin) as Hrest.
  destruct (run_at _ ts w1) as [rs w2]. cbn in Hrest |- *. by rewrite Hrest.
Qed.

Lemma rate_limit_middleware_decides settings request current_user api_user key w :
  (forall w', rate_limit_user_id request current_user api_user w' = (Ret key, w')) ->
  rate_limit_middleware settings request current_user api_user w
  = (rate_limit_decision settings (fst (increment_rate_limit key 60 w)),
     snd (increment_rate_limit key 60 w)).
Proof.
  intros Hkey. unfold rate_limit_middleware, rate_limit_decision. run.
  rewrite Hkey. destruct (increment_rate_limit key 60 w) as [[count|e] w1]; cbn; [|done].
  by destruct (rate_limit_per_minute settings <? count).
Qed.

Lemma rate_limit_middleware_runs settings request current_user api_user key ts :
  (forall w', rate_limit_user_id request current_user api_user w' = (Ret key, w')) ->
  forall w,
  run_at (rate_limit_middleware settings request current_user api_user) ts w
  = (List.map (rate_limit_decision settings)
       (fst (run_at (increment_rate_limit key 60) ts w)),
     snd (run_at (increment_rate_limit key 60) ts w)).
Proof.
  intros Hkey. induction ts as [|t ts IH]; intros w; [done|].
  cbn [run_at]. rewrite (rate_limit_middleware_decides _ _ _ _ key) by done.
  destruct (increment_rate_limit key 60 (with_clock t w)) as [r w1]. cbn [fst snd].
  rewrite IH. by destruct (run_at (increment_rate_limit key 60) ts w1).
Qed.

Lemma decisions_of_counts settings first n :
  List.map (rate_limit_decision settings) (counts_from first n)
  = admitted_up_to (rate_limit_per_minute settings) (RateLimitExceeded settings) first n.
Proof. unfold counts_from, admitted_up_to. by rewrite List.map_map. Qed.

Lemma admitted_up_to_lookup limit rejection first n (i : nat) :
  (i < n)%nat ->
  admitted_up_to limit rejection first n !! i
  = Some (if limit <? Z.of_nat (first + i)
          then Exc (HTTPError rejection) else Ret tt).
Proof.
  intros Hi. unfold admitted_up_to.
  change (List.map ?f ?l) with (f <$> l).
  rewrite list_lookup_fmap. by rewrite lookup_seq_lt.
Qed.

(** C1. With the store reachable and no counter yet under the key of a
    caller, calls that follow each other within the window make
    [increment_rate_limit] return 1, 2, ..., n; the middleware raises
    [RateLimitExceeded] (status 429, header Retry-After: 60) exactly when the
    returned count is greater than [rate_limit_per_minute]; so call number
    [i] is admitted when [i <= limit] and rejected when [i > limit]: exactly
    [limit] calls succeed and call [limit + 1] is the first one rejected. *)
Theorem rate_limit_decision_rule settings request current_user api_user key t ts w :
  (forall w', rate_limit_user_id request current_user api_user w' = (Ret key, w')) ->
  redis_up w = true ->
  redis_data w !! key = None ->
  within_window (timedelta_seconds 60) t ts ->
  let limit := rate_limit_per_minute settings in
  let middleware := rate_limit_middleware settings request current_user api_user in
  let n := length (t :: ts) in
  fst (run_at (increment_rate_limit key 60) (t :: ts) w) = counts_from 1 n
  /\ (forall w1,
        fst (middleware w1)
        = match fst (increment_rate_limit key 60 w1) with
          | Ret count =>
              if limit <? count
              then Exc (HTTPError (RateLimitExceeded settings))
              else Ret tt
          | Exc e => Exc e
          end)
  /\ status_code (RateLimitExceeded settings) = 429
  /\ headers (RateLimitExceeded settings) = [("Retry-After", "60")]
  /\ (forall i : nat, (i < n)%nat ->
        fst (run_at middleware (t :: ts) w) !! i
        = Some (if limit <? Z.of_nat (S i)
                then Exc (HTTPError (RateLimitExceeded settings))
                else Ret tt)).
Proof.
  intros Hkey Hup Hfresh Hwin limit middleware n.
  pose proof (increments_from_fresh key t ts w Hup Hfresh Hwin) as Hcounts.
  split; [exact Hcounts|]. split.
  { intros w1. unfold middleware.
    by rewrite (rate_limit_middleware_decides _ _ _ _ key). }
  split; [done|]. split; [done|].
  intros i Hi. unfold middleware.
  rewrite (rate_limit_middleware_runs _ _ _ _ key) by done. cbn [fst].
  rewrite Hcounts, decisions_of_counts.
  by rewrite admitted_up_to_lookup.
Qed.

Lemma validated_rate_limit env settings :
  Settings_init env = Ret settings -> 1 <= rate_limit_per_minute settings.
Proof.
  unfold Settings_init, validate_secret_key, validate_rate_limit.
  destruct (_ <? 32); [done|].
  destruct (Z.ltb_spec (rate_limit_per_minute env) 1); [done|].
  intros [= <-]. by cbn.
Qed.

Lemma increment_rate_limit_down key expire w :
  redis_up w = false ->
  exists w',
    increment_rate_limit key expire w = (Ret 0, w')
    /\ exists rest,
         log w' = {| levelname := WARNING;
                     message := "Rate limit increment error for key " +:+ key;
                     exc_info := Some RedisConnectionError |} :: rest.
Proof.
  intros Hdown. unfold increment_rate_limit.
  destruct (get_redis_client_down w Hdown) as [(w1 & Hc & Hd1 & _)|(w1 & Hc)];
    run; rewrite Hc; cbn; rewrite ?Hd1; cbn; eauto.
Qed.

Lemma redis_run_two now c1 c2 data :
  exists r1 r2 data', redis_run now [c1; c2] data = ([r1; r2], data').
Proof.
  cbn [redis_run].
  destruct (redis_apply now c1 data) as [r1 d1].
  destruct (redis_apply now c2 d1) as [r2 d2]. eauto.
Qed.

Lemma increment_rate_limit_returns key expire w :
  exists count w', increment_rate_limit key expire w = (Ret count, w').
Proof.
  unfold increment_rate_limit. run.
  destruct (get_redis_client w) as [[[]|e] w1]; cbv beta iota; [|eauto].
  destruct (redis_up w1); cbv beta iota; [|eauto].
  destruct (redis_run_two (clock w1) (INCR key) (EXPIRE key expire) (redis_data w1))
    as (r1 & r2 & d & ->).
  cbn. eauto.
Qed.

(** C6. [increment_rate_limit] never raises; when the counter store is
    unreachable it returns 0 and logs a warning, and the middleware, whose
    limit passed [validate_rate_limit] and is therefore at least 1, does not
    raise [RateLimitExceeded]: it admits the request. *)
Theorem rate_limiter_fails_open env settings key expire w :
  Settings_init env = Ret settings ->
  redis_up w = false ->
  (forall w0, exists count w', increment_rate_limit key expire w0 = (Ret count, w'))
  /\ (exists w',
        increment_rate_limit key expire w = (Ret 0, w')
        /\ exists rest,
             log w' = {| levelname := WARNING;
                         message := "Rate limit increment error for key " +:+ key;
                         exc_info := Some RedisConnectionError |} :: rest)
  /\ (forall request current_user api_user,
        fst (rate_limit_middleware settings request current_user api_user w)
        <> Exc (HTTPError (RateLimitExceeded settings)))
  /\ (forall request current_user api_user,
        (forall w', rate_limit_user_id request current_user api_user w' = (Ret key, w')) ->
        fst (rate_limit_middleware settings request current_user api_user w) = Ret tt).
Proof.
  intros Hsettings Hdown.
  pose proof (validated_rate_limit env settings Hsettings) as Hlimit.
  split; [intros w0; apply increment_rate_limit_returns|].
  split; [by apply increment_rate_limit_down|].
  assert (Hadmit : forall request current_user api_user k,
    (forall w', rate_limit_user_id request current_user api_user w' = (Ret k, w')) ->
    fst (rate_limit_middleware settings request current_user api_user w) = Ret tt).
  { intros request cu au k Hk.
    rewrite (rate_limit_middleware_decides _ _ _ _ k) by done.
    destruct (increment_rate_limit_down k 60 w Hdown) as (w1 & -> & _). cbn.
    by destruct (Z.ltb_spec (rate_limit_per_minute settings) 0); [lia|]. }
  split; [|intros; by eapply Hadmit].
  intros request cu au.
  destruct cu as [cu|]; [by erewrite Hadmit|].
  destruct au as [au|]; [by erewrite Hadmit|].
  destruct (req_client request) as [client|] eqn:Hclient.
  - erewrite Hadmit; [done|]. intros w'. unfold rate_limit_user_id. by rewrite Hclient.
  - unfold rate_limit_middleware, rate_limit_user_id. rewrite Hclient. by run.
Qed.

Lemma rate_limit_decision_rule_witness :
  (forall w', rate_limit_user_id request_anonymous None None w' = (Ret "ip:10.0.0.5", w'))
  /\ redis_up sample_world = true
  /\ redis_data sample_world !! "ip:10.0.0.5" = None
  /\ within_window (timedelta_seconds 60) 100 [110; 120; 130; 140]
  /\ fst (run_at (increment_rate_limit "ip:10.0.0.5" 60) [100; 110; 120; 130; 140] sample_world)
     = [Ret 1; Ret 2; Ret 3; Ret 4; Ret 5]
  /\ fst (run_at (rate_limit_middleware sample_settings request_anonymous None None)
            [100; 110; 120; 130; 140] sample_world) !! 2%nat
     = Some (Ret tt)
  /\ fst (run_at (rate_limit_middleware sample_settings request_anonymous None None)
            [100; 110; 120; 130; 140] sample_world) !! 3%nat
     = Some (Exc (HTTPError (RateLimitExceeded sample_settings))).
Proof.
  assert (Hkey : forall w', rate_limit_user_id request_anonymous None None w'
                            = (Ret "ip:10.0.0.5", w')) by reflexivity.
  assert (Hwin : within_window (timedelta_seconds 60) 100 [110; 120; 130; 140]) by (unfold timedelta_seconds; simpl; lia).
  destruct (rate_limit_decision_rule sample_settings request_anonymous None None
              "ip:10.0.0.5" 100 [110; 120; 130; 140] sample_world
              Hkey eq_refl eq_refl Hwin) as (Hcounts & _ & _ & _ & Hcalls).
  split; [exact Hkey|]. split; [reflexivity|]. split; [reflexivity|].
  split; [exact Hwin|]. split; [exact Hcounts|].
  split; [exact (Hcalls 2%nat ltac:(simpl; lia)) | exact (Hcalls 3%nat ltac:(simpl; lia))].
Defined.

Lemma rate_limiter_fails_open_witness :
  Settings_init sample_settings = Ret sample_settings
  /\ redis_up sample_world_store_down = false
  /\ fst (rate_limit_middleware sample_settings request_anonymous None None
            sample_world_store_down) = Ret tt.
Proof.
  split; [reflexivity|]. split; [reflexivity|].
  refine (proj2 (proj2 (proj2
    (rate_limiter_fails_open sample_settings sample_settings "ip:10.0.0.5" 60
       sample_world_store_down eq_refl eq_refl))) request_anonymous None None _).
  reflexivity.
Defined.

Lemma redis_lookup_live now data key e :
  redis_lookup now data key = Some e -> redis_live now e = true.
Proof.
  unfold redis_lookup. destruct (data !! key) as [e'|]; [|done].
  destruct (redis_live now e') eqn:Hlive; [|done]. by intros [= <-].
Qed.

Lemma redis_incr_expire now key data :
  exists count,
    redis_run now [INCR key; EXPIRE key 60] data
    = ([count; 1],
       <[key := {| entry_value := count; entry_deadline := Some (now + timedelta_seconds 60) |}]> data).
Proof.
  cbn [redis_run redis_apply].
  destruct (redis_lookup now data key) as [e|] eqn:Hlookup;
    unfold redis_lookup; rewrite lookup_insert_eq.
  - apply redis_lookup_live in Hlookup. unfold redis_live in Hlookup |- *.
    cbn. rewrite Hlookup, insert_insert_eq. eauto.
  - cbn. rewrite insert_insert_eq. eauto.
Qed.

Lemma increment_rate_limit_store key w :
  redis_up w = true ->
  exists count w',
    increment_rate_limit key 60 w = (Ret count, w')
    /\ redis_up w' = true
    /\ redis_data w'
       = <[key := {| entry_value := count; entry_deadline := Some (clock w + timedelta_seconds 60) |}]>
           (redis_data w).
Proof.
  intros Hup. unfold increment_rate_limit.
  destruct (get_redis_client_up w Hup) as (w1 & Hc & Hup1 & Hd1 & Hclk).
  run. rewrite Hc. cbv beta iota. rewrite Hup1. cbv beta iota.
  destruct (redis_incr_expire (clock w1) key (redis_data w1)) as (count & ->).
  rewrite Hd1, Hclk. cbn. eauto.
Qed.

(** Counting a request under one key leaves the counters of the other keys
    as they are. *)
Lemma increment_other_key key key' count prev w :
  key' <> key ->
  counter_at key count prev w ->
  counter_at key count prev (snd (increment_rate_limit key' 60 w)).
Proof.
  intros Hne [Hup Hkey].
  destruct (increment_rate_limit_store key' w Hup) as (c & w1 & -> & Hup1 & Hdata).
  split; [done|]. cbn [snd]. by rewrite Hdata, lookup_insert_ne.
Qed.

(** ** Identity resolution *)

Lemma try_except_returns {A} (body : M A) handler w :
  (forall e w1, exists a w2, handler e w1 = (Ret a, w2)) ->
  exists a w', try_except body handler w = (Ret a, w').
Proof.
  intros Hh. unfold try_except. destruct (body w) as [[a|e] w1]; eauto.
Qed.

Lemma get_current_user_returns settings creds w :
  exists r w', get_current_user settings creds w = (Ret r, w').
Proof.
  destruct creds as [c|]; cbn; [|eauto].
  apply try_except_returns. intros e w1. run. cbn. eauto.
Qed.

Lemma verify_api_key_returns request w :
  exists r w', verify_api_key request w = (Ret r, w').
Proof.
  unfold verify_api_key. destruct (headers_get request "X-API-Key") as [k|]; [|by eauto].
  case_bool_decide; [by eauto|].
  apply try_except_returns. intros e w1. run. cbn. eauto.
Qed.

Lemma get_current_user_active settings creds w u w' :
  get_current_user settings creds w = (Ret (Some u), w') -> is_active u = true.
Proof.
  unfold get_current_user. destruct creds as [c|]; [|by run].
  unfold try_except, mbind, M_bind.
  destruct (verify_token settings (credentials c) w) as [[[p|]|e] w1]; try by run.
  destruct (is_PyNone (dict_get p "sub") || is_PyNone (dict_get p "user_id")); [by run|].
  destruct (get_user_by_id (dict_get p "user_id") w1) as [[[v|]|e] w2]; try by run.
  destruct (is_active v) eqn:Hact; run; cbn; congruence.
Qed.

(** C2. The key under which the middleware counts a request is "user:<id>"
    when a session identity resolved, otherwise "api:<id>" when an API-key
    identity resolved, otherwise "ip:<caller address>"; it is the key the
    counter store sees. A session identity 7 gives "user:7", an API-key
    identity 7 gives "api:7", a caller at 10.0.0.5 without identity gives
    "ip:10.0.0.5". *)
Theorem rate_limit_key_derivation settings request current_user api_user w :
  (current_user = None -> api_user = None -> is_Some (req_client request)) ->
  redis_up w = true ->
  let key := expected_rate_limit_key request current_user api_user in
  rate_limit_user_id request current_user api_user w = (Ret key, w)
  /\ (exists count,
        redis_data (snd (rate_limit_middleware settings request current_user api_user w))
        = <[key := {| entry_value := count; entry_deadline := Some (clock w + timedelta_seconds 60) |}]>
            (redis_data w))
  /\ (forall u, id u = 7 ->
        expected_rate_limit_key request (Some u) api_user = "user:7")
  /\ (forall u, id u = 7 ->
        expected_rate_limit_key request None (Some u) = "api:7")
  /\ (caller_address request = "10.0.0.5" ->
        expected_rate_limit_key request None None = "ip:10.0.0.5").
Proof.
  intros Hclient Hup key.
  assert (Hkey : forall w', rate_limit_user_id request current_user api_user w' = (Ret key, w')).
  { intros w'. unfold key, rate_limit_user_id, expected_rate_limit_key, caller_address.
    destruct current_user as [cu|]; [done|]. destruct api_user as [au|]; [done|].
    destruct (Hclient eq_refl eq_refl) as [a ->]. done. }
  split; [apply Hkey|]. split.
  { rewrite (rate_limit_middleware_decides _ _ _ _ key) by done. cbn [snd].
    destruct (increment_rate_limit_store key w Hup) as (count & w1 & Hrun & _ & Hdata).
    rewrite Hrun. cbn [snd]. eauto. }
  split; [|split].
  - intros u Hu. cbn. by rewrite Hu.
  - intros u Hu. cbn. by rewrite Hu.
  - intros Haddr. cbn. by rewrite Haddr.
Qed.

Lemma rate_limit_key_derivation_witness :
  redis_up sample_world = true
  /\ rate_limit_user_id (request_with_both alice "sk_machine_client") (Some alice) (Some bob)
       sample_world
     = (Ret "user:7", sample_world)
  /\ rate_limit_user_id request_anonymous None None sample_world
     = (Ret "ip:10.0.0.5", sample_world).
Proof.
  split; [reflexivity|]. split.
  - exact (proj1 (rate_limit_key_derivation sample_settings
                    (request_with_both alice "sk_machine_client") (Some alice) (Some bob)
                    sample_world ltac:(discriminate) eq_refl)).
  - refine (proj1 (rate_limit_key_derivation sample_settings request_anonymous None None
                     sample_world _ eq_refl)).
    intros _ _. simpl. eauto.
Defined.

(** End to end: the three kinds of caller of the sample deployment leave
    their first count under the expected key. *)
Example rate_limit_keys_end_to_end :
  redis_data (snd (call_rate_limit_middleware sample_settings
                     (request_with_token alice) sample_world)) !! "user:7"
  = Some {| entry_value := 1; entry_deadline := Some (sample_instant + timedelta_seconds 60) |}
  /\ redis_data (snd (call_rate_limit_middleware sample_settings
                        (request_with_api_key "sk_machine_client") sample_world)) !! "api:8"
     = Some {| entry_value := 1; entry_deadline := Some (sample_instant + timedelta_seconds 60) |}
  /\ redis_data (snd (call_rate_limit_middleware sample_settings
                        request_anonymous sample_world)) !! "ip:10.0.0.5"
     = Some {| entry_value := 1; entry_deadline := Some (sample_instant + timedelta_seconds 60) |}.
Proof. repeat split; vm_compute; reflexivity. Qed.

Lemma call_get_current_active_user_outcomes settings request w :
  (exists u, fst (call_get_current_active_user settings request w) = Ret u
             /\ is_active u = true)
  \/ fst (call_get_current_active_user settings request w)
     = Exc (HTTPError (Unauthenticated "Not authenticated")).
Proof.
  unfold call_get_current_active_user, Depends_get_current_user.
  destruct (get_current_user_returns settings (security request) w) as (r & w1 & Hres).
  unfold mbind, M_bind. rewrite Hres. destruct r as [u|]; [left|by right].
  pose proof (get_current_user_active _ _ _ _ _ Hres) as Hactive.
  exists u. unfold get_current_active_user. by rewrite Hactive.
Qed.

(** C3, as stated, fails. The token of the disabled account [carol] is
    valid and her row exists, yet the request is answered 401, not 400; and
    no request state at all reaches the 400 outcome through the dependency,
    because [get_current_user] already answers "no identity" for a disabled
    account. *)
Lemma inactive_account_is_answered_401 :
  (exists payload,
      fst (verify_token sample_settings (sample_token carol) sample_world)
      = Ret (Some payload)
      /\ payload !! "user_id" = Some (PyInt (id carol)))
  /\ In carol (users sample_world)
  /\ is_active carol = false
  /\ fst (call_get_current_active_user sample_settings (request_with_token carol)
            sample_world)
     = Exc (HTTPError (Unauthenticated "Not authenticated"))
  /\ ~ (exists settings request w e,
          fst (call_get_current_active_user settings request w) = Exc (HTTPError e)
          /\ status_code e = HTTP_400_BAD_REQUEST).
Proof.
  split; [eexists; split; vm_compute; reflexivity|].
  split; [simpl; tauto|]. split; [reflexivity|]. split; [vm_compute; reflexivity|].
  intros (settings & request & w & e & Hres & Hstatus).
  destruct (call_get_current_active_user_outcomes settings request w)
    as [(u & Hu & _)|Hu]; rewrite Hu in Hres; [done|].
  injection Hres as <-. discriminate Hstatus.
Qed.

(** C3, amended. [get_current_active_user] raises 401 with
    WWW-Authenticate: Bearer when it is handed no identity and the distinct
    400 when it is handed an identity whose [is_active] is false. Resolved
    from a request, its identity comes from [get_current_user], which only
    returns active accounts: the request then either yields an active
    identity or is answered 401, also for a valid token of a disabled
    account. *)
Theorem require_active_user_outcomes :
  (forall w,
     get_current_active_user None w
     = (Exc (HTTPError (Unauthenticated "Not authenticated")), w))
  /\ (forall u w,
        is_active u = false ->
        get_current_active_user (Some u) w = (Exc (HTTPError InactiveAccount), w))
  /\ (forall settings creds w u w',
        get_current_user settings creds w = (Ret (Some u), w') -> is_active u = true)
  /\ (forall settings request w,
        (exists u, fst (call_get_current_active_user settings request w) = Ret u
                   /\ is_active u = true)
        \/ fst (call_get_current_active_user settings request w)
           = Exc (HTTPError (Unauthenticated "Not authenticated"))).
Proof.
  split; [done|]. split.
  { intros u w Hinactive. unfold get_current_active_user. by rewrite Hinactive. }
  split; [apply get_current_user_active|apply call_get_current_active_user_outcomes].
Qed.

Lemma require_active_user_outcomes_witness :
  is_active carol = false
  /\ get_current_active_user (Some carol) sample_world
     = (Exc (HTTPError InactiveAccount), sample_world)
  /\ is_active alice = true.
Proof.
  destruct require_active_user_outcomes as (_ & Hinactive & Hactive & _).
  split; [reflexivity|]. split; [exact (Hinactive carol sample_world eq_refl)|].
  refine (Hactive sample_settings (security (request_with_token alice)) sample_world alice
            (snd (get_current_user sample_settings (security (request_with_token alice))
                    sample_world)) _).
  vm_compute. reflexivity.
Defined.

(** C4. When the token path and the API-key path of a request both resolve
    an identity, [require_auth] and [optional_auth] return the one of the
    token path; [optional_auth] never raises, and returns no identity when
    neither path resolves. *)
Theorem token_path_priority settings request w token_user api_user w1 w2 :
  Depends_get_current_user settings request w = (Ret (Some token_user), w1) ->
  verify_api_key request w1 = (Ret (Some api_user), w2) ->
  call_require_auth settings request w = (Ret token_user, w2)
  /\ call_optional_auth settings request w = (Ret (Some token_user), w2)
  /\ (forall request' w', exists r w'',
        call_optional_auth settings request' w' = (Ret r, w''))
  /\ (forall request' w' w1' w2',
        Depends_get_current_user settings request' w' = (Ret None, w1') ->
        verify_api_key request' w1' = (Ret None, w2') ->
        call_optional_auth settings request' w' = (Ret None, w2')).
Proof.
  intros Htoken Hkey.
  unfold call_require_auth, call_optional_auth.
  split; [|split; [|split]].
  - unfold mbind, M_bind. by rewrite Htoken, Hkey.
  - unfold mbind, M_bind. by rewrite Htoken, Hkey.
  - intros request' w'. unfold Depends_get_current_user.
    destruct (get_current_user_returns settings (security request') w') as (cu & wa & Hcu).
    destruct (verify_api_key_returns request' wa) as (au & wb & Hau).
    unfold mbind, M_bind. rewrite Hcu, Hau.
    destruct cu, au; cbn; eauto.
  - intros request' w' w1' w2' Hcu Hau. unfold mbind, M_bind. by rewrite Hcu, Hau.
Qed.

Lemma token_path_priority_witness :
  fst (Depends_get_current_user sample_settings
         (request_with_both alice "sk_machine_client") sample_world) = Ret (Some alice)
  /\ fst (verify_api_key (request_with_both alice "sk_machine_client") sample_world)
     = Ret (Some bob)
  /\ fst (call_require_auth sample_settings
            (request_with_both alice "sk_machine_client") sample_world) = Ret alice
  /\ fst (call_optional_auth sample_settings
            (request_with_both alice "sk_machine_client") sample_world) = Ret (Some alice).
Proof.
  destruct (token_path_priority sample_settings
              (request_with_both alice "sk_machine_client") sample_world alice bob
              sample_world sample_world
              ltac:(vm_compute; reflexivity) ltac:(vm_compute; reflexivity))
    as (Hrequire & Hoptional & _).
  split; [vm_compute; reflexivity|]. split; [vm_compute; reflexivity|].
  split; [by rewrite Hrequire | by rewrite Hoptional].
Defined.

(** C10. A non-empty API key without stored expiry is valid at every
    instant, so the API-key path accepts it at every instant for an active
    account that is the only holder of the key; an account without API key
    has no valid key. *)
Theorem api_key_without_expiry_never_expires user :
  (forall key w,
     api_key user = Some key -> key <> "" -> api_key_expires_at user = None ->
     is_api_key_valid user w = (Ret true, w))
  /\ (forall key request w,
        api_key user = Some key -> key <> "" -> api_key_expires_at user = None ->
        is_active user = true ->
        headers_get request "X-API-Key" = Some key ->
        db_up w = true ->
        List.filter (fun u => bool_decide (api_key u = Some key)) (users w) = [user] ->
        verify_api_key request w = (Ret (Some user), w))
  /\ (forall w, api_key user = None -> is_api_key_valid user w = (Ret false, w)).
Proof.
  assert (Hvalid : forall key w,
    api_key user = Some key -> key <> "" -> api_key_expires_at user = None ->
    is_api_key_valid user w = (Ret true, w)).
  { intros key w Hkey Hne Hexp. unfold is_api_key_valid, str_truthy.
    rewrite Hkey, Hexp. by rewrite bool_decide_false. }
  split; [exact Hvalid|]. split.
  - intros key request w Hkey Hne Hexp Hactive Hheader Hup Hrows.
    unfold verify_api_key, get_user_by_api_key. rewrite Hheader.
    rewrite bool_decide_false by done. run. rewrite Hup, Hrows. run. cbv beta iota.
    rewrite (Hvalid key w Hkey Hne Hexp). by rewrite Hactive.
  - intros w Hkey. unfold is_api_key_valid, str_truthy. by rewrite Hkey.
Qed.

Lemma api_key_without_expiry_never_expires_witness :
  api_key bob = Some "sk_machine_client"
  /\ api_key_expires_at bob = None
  /\ is_api_key_valid bob (with_clock 32503680000000000 sample_world)
     = (Ret true, with_clock 32503680000000000 sample_world)
  /\ verify_api_key (request_with_api_key "sk_machine_client")
       (with_clock 32503680000000000 sample_world)
     = (Ret (Some bob), with_clock 32503680000000000 sample_world)
  /\ is_api_key_valid alice sample_world = (Ret false, sample_world).
Proof.
  destruct (api_key_without_expiry_never_expires bob) as (Hvalid & Hpath & _).
  destruct (api_key_without_expiry_never_expires alice) as (_ & _ & Hnone).
  split; [reflexivity|]. split; [reflexivity|].
  split; [apply (Hvalid "sk_machine_client"); [reflexivity|discriminate|reflexivity]|].
  split; [|exact (Hnone sample_world eq_refl)].
  apply (Hpath "sk_machine_client");
    [reflexivity|discriminate|reflexivity|reflexivity|vm_compute; reflexivity
    |reflexivity|vm_compute; reflexivity].
Defined.

(** ** Tokens *)

Lemma verify_token_decode settings token w :
  fst (verify_token settings token w)
  = match jwt.decode_at (clock w) token (secret_key settings) [algorithm settings] with
    | Ret payload => Ret (Some payload)
    | Exc _ => Ret None
    end.
Proof.
  unfold verify_token, jwt.decode. run.
  destruct (jwt.decode_at _ _ _ _) as [payload|e]; [done|].
  by destruct (is_JWTError e).
Qed.

Lemma int_claim_ok v msg t :
  jwt.int_claim v msg = Ret t <-> jwt.int_of v = Ret t.
Proof.
  unfold jwt.int_claim. destruct (jwt.int_of v) as [z|[]]; split; congruence.
Qed.

Lemma validate_iat_ok claims :
  jwt.validate_iat claims = Ret tt
  <-> (forall v, claims !! "iat" = Some v -> exists t, jwt.int_of v = Ret t).
Proof.
  unfold jwt.validate_iat. destruct (claims !! "iat") as [v|]; [|done].
  destruct (jwt.int_claim v _) as [t|e] eqn:Hint; split.
  - intros _ v' [= <-]. exists t. by apply int_claim_ok in Hint.
  - done.
  - discriminate.
  - intros Hall. destruct (Hall v eq_refl) as [t Ht].
    eapply int_claim_ok in Ht. rewrite Hint in Ht. discriminate Ht.
Qed.

Lemma validate_nbf_ok claims now :
  jwt.validate_nbf claims now = Ret tt
  <-> (forall v, claims !! "nbf" = Some v ->
         exists t, jwt.int_of v = Ret t /\ t <= timegm now).
Proof.
  unfold jwt.validate_nbf. destruct (claims !! "nbf") as [v|]; [|done].
  destruct (jwt.int_claim v _) as [t|e] eqn:Hint; cbv zeta.
  - apply int_claim_ok in Hint.
    destruct (Z.ltb_spec (timegm now) t) as [Hlt|Hge]; split.
    + discriminate.
    + intros Hall. destruct (Hall v eq_refl) as (t' & Ht' & ?).
      rewrite Hint in Ht'. injection Ht' as <-. lia.
    + intros _ v' [= <-]. eauto.
    + done.
  - split; [discriminate|]. intros Hall. destruct (Hall v eq_refl) as (t & Ht & _).
    eapply int_claim_ok in Ht. rewrite Hint in Ht. discriminate Ht.
Qed.

Lemma validate_exp_ok claims now :
  jwt.validate_exp claims now = Ret tt
  <-> (forall v, claims !! "exp" = Some v ->
         exists t, jwt.int_of v = Ret t /\ timegm now <= t).
Proof.
  unfold jwt.validate_exp. destruct (claims !! "exp") as [v|]; [|done].
  destruct (jwt.int_claim v _) as [t|e] eqn:Hint; cbv zeta.
  - apply int_claim_ok in Hint.
    destruct (Z.ltb_spec t (timegm now)) as [Hlt|Hge]; split.
    + discriminate.
    + intros Hall. destruct (Hall v eq_refl) as (t' & Ht' & ?).
      rewrite Hint in Ht'. injection Ht' as <-. lia.
    + intros _ v' [= <-]. eauto.
    + done.
  - split; [discriminate|]. intros Hall. destruct (Hall v eq_refl) as (t & Ht & _).
    eapply int_claim_ok in Ht. rewrite Hint in Ht. discriminate Ht.
Qed.

Lemma validate_aud_ok claims :
  jwt.validate_aud claims = Ret tt <-> claims !! "aud" = None.
Proof. unfold jwt.validate_aud. by destruct (claims !! "aud") as [[]|]. Qed.

Lemma validate_sub_ok claims :
  jwt.validate_sub claims = Ret tt
  <-> (claims !! "sub" = None \/ exists s, claims !! "sub" = Some (PyStr s)).
Proof.
  unfold jwt.validate_sub.
  destruct (claims !! "sub") as [[|t| |]|]; (split; [intros H|intros [H|[? H]]]);
    try discriminate H; eauto.
Qed.

Lemma validate_jti_ok claims :
  jwt.validate_jti claims = Ret tt
  <-> (claims !! "jti" = None \/ exists s, claims !! "jti" = Some (PyStr s)).
Proof.
  unfold jwt.validate_jti.
  destruct (claims !! "jti") as [[|t| |]|]; (split; [intros H|intros [H|[? H]]]);
    try discriminate H; eauto.
Qed.

Lemma validate_at_hash_ok claims :
  jwt.validate_at_hash claims = Ret tt <-> claims !! "at_hash" = None.
Proof. unfold jwt.validate_at_hash. by destruct (claims !! "at_hash"). Qed.

Lemma validate_claims_ok claims now :
  jwt.validate_claims claims now = Ret tt <-> claims_valid now claims.
Proof.
  unfold jwt.validate_claims, claims_valid.
  rewrite <- validate_iat_ok, <- validate_nbf_ok, <- validate_exp_ok, <- validate_aud_ok,
    <- validate_sub_ok, <- validate_jti_ok, <- validate_at_hash_ok.
  destruct (jwt.validate_iat claims) as [[]|]; [|split; [done|by intros (? & _)]].
  destruct (jwt.validate_nbf claims now) as [[]|]; [|split; [done|by intros (_ & ? & _)]].
  destruct (jwt.validate_exp claims now) as [[]|]; [|split; [done|by intros (_ & _ & ? & _)]].
  destruct (jwt.validate_aud claims) as [[]|];
    [|split; [done|by intros (_ & _ & _ & ? & _)]].
  destruct (jwt.validate_sub claims) as [[]|];
    [|split; [done|by intros (_ & _ & _ & _ & ? & _)]].
  destruct (jwt.validate_jti claims) as [[]|];
    [|split; [done|by intros (_ & _ & _ & _ & _ & ? & _)]].
  split; [done|by intros (_ & _ & _ & _ & _ & _ & ?)].
Qed.

Lemma hmac_algorithm_named alg : alg ∈ jwt.HMAC -> alg <> "".
Proof.
  intros Hin ->. revert Hin.
  unfold jwt.HMAC. rewrite !elem_of_cons. intros [H|[H|[H|H]]];
    [discriminate H..|inversion H].
Qed.

Lemma construct_ok key alg prepared :
  jwt.construct key alg = Ret prepared
  <-> alg ∈ jwt.HMAC /\ jwt.asymmetric_marker key = false /\ prepared = jwt.prepare alg key.
Proof.
  unfold jwt.construct. case_bool_decide as Hhmac.
  - destruct (jwt.asymmetric_marker key); split.
    + discriminate.
    + by intros (_ & ? & _).
    + by intros [= <-].
    + by intros (_ & _ & ->).
  - split; [discriminate|]. by intros (? & _).
Qed.

Lemma decode_at_valid settings now token claims :
  jwt.decode_at now token (secret_key settings) [algorithm settings] = Ret claims
  <-> passphrase_settings settings /\ token_valid settings now token claims.
Proof.
  unfold token_valid, passphrase_settings.
  destruct token as [raw|alg claims' sig]; cbn [jwt.decode_at].
  { split; [done|]. by intros (_ & ? & ? & ? & _). }
  split.
  - case_bool_decide as Halg; [done|].
    case_bool_decide as Hallowed; cbn [negb]; [|done].
    apply list_elem_of_singleton in Hallowed as ->.
    destruct (jwt.json_like (secret_key settings)) eqn:Hjson; [done|].
    destruct (jwt.construct (secret_key settings) (algorithm settings))
      as [prepared|e] eqn:Hkey; [|done].
    apply construct_ok in Hkey as (Hhmac & Hmarker & ->).
    case_bool_decide as Hsig; cbn [negb]; [|done].
    destruct (jwt.validate_claims claims' now) as [[]|e] eqn:Hclaims; [|done].
    intros [= <-]. split; [done|]. exists (algorithm settings), sig.
    split; [done|]. split; [done|]. split; [exact Hsig|].
    by apply validate_claims_ok.
  - intros ((Hhmac & Hmarker & Hjson) & alg' & sig' & [= <- <- <-] & -> & -> & Hvalid).
    rewrite (bool_decide_false _ (hmac_algorithm_named _ Hhmac)).
    rewrite bool_decide_true by (by apply list_elem_of_singleton). cbn [negb].
    rewrite Hjson.
    rewrite (proj2 (construct_ok (secret_key settings) (algorithm settings) _)
               (conj Hhmac (conj Hmarker eq_refl))).
    rewrite bool_decide_true by reflexivity. cbn [negb].
    apply validate_claims_ok in Hvalid. by rewrite Hvalid.
Qed.

Lemma decode_at_expired now token key algorithms :
  token_expired now token -> exists e, jwt.decode_at now token key algorithms = Exc e.
Proof.
  intros (alg & claims & sig & v & exp & -> & Hexp & Hint & Hlate). cbn [jwt.decode_at].
  destruct (jwt.validate_claims claims now) as [[]|e] eqn:Hclaims.
  { apply validate_claims_ok in Hclaims as (_ & _ & Hexp' & _).
    destruct (Hexp' _ Hexp) as (t & Ht & ?). rewrite Hint in Ht. injection Ht as <-. lia. }
  repeat case_match; eauto.
Qed.


Lemma verify_token_accepts settings token w claims :
  passphrase_settings settings /\ token_valid settings (clock w) token claims
  <-> fst (verify_token settings token w) = Ret (Some claims).
Proof.
  rewrite verify_token_decode, <- decode_at_valid.
  destruct (jwt.decode_at _ _ _ _) as [payload|e]; split; congruence.
Qed.

Lemma verify_token_rejects_expired settings token w :
  token_expired (clock w) token -> fst (verify_token settings token w) = Ret None.
Proof.
  intros Hexpired. rewrite verify_token_decode.
  by destruct (decode_at_expired _ _ (secret_key settings) [algorithm settings] Hexpired)
    as [e ->].
Qed.




Lemma user_claims_lookups sub user_id iat exp :
  user_claims sub user_id iat exp !! "iat" = Some (PyInt iat)
  /\ user_claims sub user_id iat exp !! "nbf" = None
  /\ user_claims sub user_id iat exp !! "exp" = Some (PyInt exp)
  /\ user_claims sub user_id iat exp !! "sub" = Some (PyStr sub)
  /\ user_claims sub user_id iat exp !! "user_id" = Some (PyInt user_id)
  /\ user_claims sub user_id iat exp !! "aud" = None
  /\ user_claims sub user_id iat exp !! "jti" = None
  /\ user_claims sub user_id iat exp !! "at_hash" = None.
Proof. repeat split; vm_compute; reflexivity. Qed.

Lemma hmac_supported alg : alg ∈ jwt.HMAC -> alg ∈ jwt.SUPPORTED.
Proof. intros Hin. unfold jwt.SUPPORTED. apply elem_of_app. by left. Qed.

Lemma int_date_datetime name claims t :
  claims !! name = Some (PyDatetime t) ->
  jwt.int_date name claims = <[name := PyInt (timegm t)]> claims.
Proof. intros Hlookup. unfold jwt.int_date. by rewrite Hlookup. Qed.

Lemma int_date_absent name claims :
  claims !! name = None -> jwt.int_date name claims = claims.
Proof. intros Hlookup. unfold jwt.int_date. by rewrite Hlookup. Qed.

Lemma encode_user_claims sub user_id iat exp key alg :
  alg ∈ jwt.HMAC ->
  jwt.asymmetric_marker key = false ->
  jwt.encode (<["iat" := PyDatetime iat]> (<["exp" := PyDatetime exp]>
                (user_data sub user_id))) key alg
  = Ret (jwt.JWS alg (user_claims sub user_id (timegm iat) (timegm exp))
           (jwt.sign key alg (user_claims sub user_id (timegm iat) (timegm exp)))).
Proof.
  intros Hhmac Hmarker. unfold jwt.encode.
  rewrite (bool_decide_true _ (hmac_supported _ Hhmac)).
  rewrite (proj2 (construct_ok key alg _) (conj Hhmac (conj Hmarker eq_refl))).
  rewrite (int_date_datetime "exp" _ exp) by (vm_compute; reflexivity).
  generalize (timegm exp). intros e.
  rewrite (int_date_datetime "iat" _ iat) by (vm_compute; reflexivity).
  generalize (timegm iat). intros i.
  rewrite (int_date_absent "nbf") by (vm_compute; reflexivity).
  assert (<["iat" := PyInt i]> (<["exp" := PyInt e]>
            (<["iat" := PyDatetime iat]> (<["exp" := PyDatetime exp]>
               (user_data sub user_id))))
          = user_claims sub user_id i e) as -> by (vm_compute; reflexivity).
  assert (forallb (fun kv => jwt.json_serializable (snd kv))
            (map_to_list (user_claims sub user_id i e)) = true) as ->
    by (vm_compute; reflexivity).
  reflexivity.
Qed.

Lemma create_access_token_outcome settings data expires_delta w :
  create_access_token settings data expires_delta w
  = if expiry_representable settings expires_delta (clock w)
    then match jwt.encode
                 (<["iat" := PyDatetime (clock w)]>
                    (<["exp" := PyDatetime (expiry_instant settings expires_delta (clock w))]>
                       data))
                 (secret_key settings) (algorithm settings) with
         | Ret token => (Ret token, w)
         | Exc cause =>
             (Exc (ValueError "Failed to create access token"),
              with_log ({| levelname := ERROR; message := "Error creating access token";
                           exc_info := Some cause |} :: log w) w)
         end
    else (Exc OverflowError, w).
Proof.
  unfold create_access_token, expiry_representable, expiry_instant, datetime_add,
    timedelta_of_minutes. run.
  destruct (timedelta_truthy expires_delta); cbv beta iota zeta; cbn [orb andb].
  - destruct (_ && _); [|done]. by destruct (jwt.encode _ _ _).
  - destruct (_ && _); cbn [andb]; [|done].
    destruct (_ && _); [|done]. by destruct (jwt.encode _ _ _).
Qed.

Lemma create_access_token_issues settings sub user_id expires_delta w token w1 :
  create_access_token settings (user_data sub user_id) expires_delta w = (Ret token, w1) ->
  let claims := user_claims sub user_id (timegm (clock w))
                  (timegm (expiry_instant settings expires_delta (clock w))) in
  algorithm settings ∈ jwt.HMAC
  /\ jwt.asymmetric_marker (secret_key settings) = false
  /\ token = jwt.JWS (algorithm settings) claims
               (jwt.sign (secret_key settings) (algorithm settings) claims).
Proof.
  rewrite create_access_token_outcome.
  destruct (expiry_representable _ _ _); [|discriminate].
  destruct (jwt.construct (secret_key settings) (algorithm settings))
    as [prepared|e] eqn:Hkey.
  - apply construct_ok in Hkey as (Hhmac & Hmarker & _).
    rewrite encode_user_claims by done. by intros [= <- <-].
  - unfold jwt.encode. rewrite Hkey. by repeat case_match.
Qed.

Lemma issued_token_valid settings sub user_id iat exp now :
  timegm now <= exp ->
  token_valid settings now
    (jwt.JWS (algorithm settings) (user_claims sub user_id iat exp)
       (jwt.sign (secret_key settings) (algorithm settings)
          (user_claims sub user_id iat exp)))
    (user_claims sub user_id iat exp).
Proof.
  intros Hnow.
  destruct (user_claims_lookups sub user_id iat exp)
    as (Hiat & Hnbf & Hexp & Hsub & _ & Haud & Hjti & Hhash).
  exists (algorithm settings), (jwt.sign (secret_key settings) (algorithm settings)
                                 (user_claims sub user_id iat exp)).
  split; [done|]. split; [done|]. split; [done|].
  split; [|split; [|split; [|split; [done|split; [eauto|split; [by left|done]]]]]].
  - intros v. rewrite Hiat. intros [= <-]. by eexists.
  - intros v. rewrite Hnbf. discriminate.
  - intros v. rewrite Hexp. intros [= <-]. by eexists.
Qed.

Lemma timegm_mono t1 t2 : t1 <= t2 -> timegm t1 <= timegm t2.
Proof. intros Hle. unfold timegm. apply Z.div_le_mono; lia. Qed.

Lemma timegm_next_second t1 t2 :
  t1 + timedelta_seconds 1 <= t2 -> timegm t1 < timegm t2.
Proof.
  intros Hle. apply timegm_mono in Hle. unfold timegm, timedelta_seconds in *.
  replace (t1 + 1000000 * 1) with (t1 + 1 * 1000000) in Hle by lia.
  rewrite Z.div_add in Hle by lia. lia.
Qed.

(** C8, as stated, does not hold: the [exp] claim and the time of the
    verification are cut to whole seconds, so that a token lives to the end
    of the second in which it expires. A token issued at 12:33:20.9 for one
    second expires at 12:33:21.9 and is still verified at 12:33:21.95. *)
Lemma token_outlives_its_expiry_instant :
  let issued_at := sample_instant + 900000 in
  let verified_at := sample_instant + 1950000 in
  let token := sample_token_at issued_at in
  fst (create_access_token sample_settings (user_data "alice" 7)
         (Some (timedelta_seconds 1)) (with_clock issued_at sample_world)) = Ret token
  /\ expiry_instant sample_settings (Some (timedelta_seconds 1)) issued_at < verified_at
  /\ exists payload,
       fst (verify_token sample_settings token (with_clock verified_at sample_world))
       = Ret (Some payload)
       /\ payload !! "sub" = Some (PyStr "alice")
       /\ payload !! "user_id" = Some (PyInt 7).
Proof.
  cbv zeta. split; [vm_compute; reflexivity|]. split; [vm_compute; reflexivity|].
  eexists. split; [vm_compute; reflexivity|]. split; vm_compute; reflexivity.
Qed.

(** C8, amended. A token issued by [create_access_token] for subject [sub]
    and identity [user_id], by a server whose secret python-jose takes as it
    stands, is verified to a payload with that very [sub] and [user_id] at
    every instant whose second is not after the second of its expiry
    instant, hence at every instant up to the expiry instant; it is verified
    to no payload at every instant whose second is after the second of the
    expiry instant, hence from one second after the expiry instant on. The
    expiry instant is the issue time plus the given time to live, or plus
    the configured minutes when none (or a zero one) is given. *)
Theorem token_round_trip settings sub user_id expires_delta w token w1 :
  create_access_token settings (user_data sub user_id) expires_delta w = (Ret token, w1) ->
  jwt.json_like (secret_key settings) = false ->
  let expiry := expiry_instant settings expires_delta (clock w) in
  (forall w2, timegm (clock w2) <= timegm expiry ->
     exists payload,
       fst (verify_token settings token w2) = Ret (Some payload)
       /\ payload !! "sub" = Some (PyStr sub)
       /\ payload !! "user_id" = Some (PyInt user_id)
       /\ payload !! "exp" = Some (PyInt (timegm expiry)))
  /\ (forall w2, timegm expiry < timegm (clock w2) ->
        fst (verify_token settings token w2) = Ret None)
  /\ (forall w2, clock w2 <= expiry ->
        exists payload,
          fst (verify_token settings token w2) = Ret (Some payload)
          /\ payload !! "sub" = Some (PyStr sub)
          /\ payload !! "user_id" = Some (PyInt user_id))
  /\ (forall w2, expiry + timedelta_seconds 1 <= clock w2 ->
        fst (verify_token settings token w2) = Ret None).
Proof.
  intros Hissued Hjson expiry.
  destruct (create_access_token_issues _ _ _ _ _ _ _ Hissued) as (Hhmac & Hmarker & ->).
  fold expiry.
  destruct (user_claims_lookups sub user_id (timegm (clock w)) (timegm expiry))
    as (_ & _ & Hexp & Hsub & Huser & _).
  assert (Haccepted : forall w2, timegm (clock w2) <= timegm expiry ->
    fst (verify_token settings
           (jwt.JWS (algorithm settings)
              (user_claims sub user_id (timegm (clock w)) (timegm expiry))
              (jwt.sign (secret_key settings) (algorithm settings)
                 (user_claims sub user_id (timegm (clock w)) (timegm expiry)))) w2)
    = Ret (Some (user_claims sub user_id (timegm (clock w)) (timegm expiry)))).
  { intros w2 Hnow. apply verify_token_accepts. split; [done|].
    by apply issued_token_valid. }
  assert (Hrejected : forall w2, timegm expiry < timegm (clock w2) ->
    fst (verify_token settings
           (jwt.JWS (algorithm settings)
              (user_claims sub user_id (timegm (clock w)) (timegm expiry))
              (jwt.sign (secret_key settings) (algorithm settings)
                 (user_claims sub user_id (timegm (clock w)) (timegm expiry)))) w2)
    = Ret None).
  { intros w2 Hafter. apply verify_token_rejects_expired.
    do 3 eexists. exists (PyInt (timegm expiry)), (timegm expiry). done. }
  split; [|split; [|split]].
  - intros w2 Hbefore. eexists. split; [by apply Haccepted|done].
  - exact Hrejected.
  - intros w2 Hbefore. eexists. split; [by apply Haccepted, timegm_mono|done].
  - intros w2 Hafter. by apply Hrejected, timegm_next_second.
Qed.

Lemma token_round_trip_witness :
  (exists token,
      fst (create_access_token sample_settings (user_data "alice" 7)
             (Some (timedelta_seconds 1)) sample_world)
      = Ret token
      /\ jwt.json_like (secret_key sample_settings) = false
      /\ fst (verify_token sample_settings token sample_world)
         = Ret (Some (user_claims "alice" 7 1709210000 1709210001))
      /\ fst (verify_token sample_settings token
                (with_clock (sample_instant + timedelta_seconds 2) sample_world)) = Ret None)
  /\ expiry_instant sample_settings (Some (timedelta_seconds 1)) sample_instant
     = sample_instant + timedelta_seconds 1
  /\ expiry_instant sample_settings (Some 0) sample_instant
     = sample_instant + timedelta_minutes 30
  /\ expiry_instant sample_settings None sample_instant
     = sample_instant + timedelta_minutes 30.
Proof.
  split; [|repeat split; reflexivity].
  destruct (create_access_token sample_settings (user_data "alice" 7)
              (Some (timedelta_seconds 1)) sample_world)
    as [[token|e] w1] eqn:Hissued; [|vm_compute in Hissued; discriminate Hissued].
  destruct (token_round_trip sample_settings "alice" 7 (Some (timedelta_seconds 1))
              sample_world token w1 Hissued eq_refl)
    as (_ & _ & _ & Hafter).
  exists token. split; [reflexivity|]. split; [reflexivity|]. split.
  - vm_compute in Hissued. injection Hissued as <- _. vm_compute. reflexivity.
  - apply Hafter. vm_compute. discriminate.
Defined.

(** ** API keys *)

Lemma generate_api_key_same_day settings w w' :
  clock w / 86400000000 = clock w' / 86400000000 ->
  fst (generate_api_key settings w) = fst (generate_api_key settings w').
Proof.
  intros Hday. unfold generate_api_key, strftime_Ymd. run. cbn. by rewrite Hday.
Qed.

(** The generator does not tell accounts apart: the key is built from the
    first 16 characters of the server secret and the UTC date, so the key
    computed for [bob] an hour after [alice] got hers is the same string;
    [api_key] being a unique column, bob's update is refused and he obtains
    no key, while alice holds the only copy. *)
Example second_key_of_the_day_is_refused :
  let later := with_clock (sample_instant + timedelta_minutes 60)
                 (snd (generate_api_key_for_user sample_settings alice sample_world)) in
  id alice <> id bob
  /\ fst (generate_api_key_for_user sample_settings alice sample_world)
     = Ret "sk_0123456789abcdef_20240229"
  /\ fst (generate_api_key sample_settings later) = Ret "sk_0123456789abcdef_20240229"
  /\ fst (generate_api_key_for_user sample_settings bob later) = Exc IntegrityError
  /\ List.map api_key (users (snd (generate_api_key_for_user sample_settings bob later)))
     = [Some "sk_0123456789abcdef_20240229"; Some "sk_machine_client"; None].
Proof. repeat split; try discriminate; vm_compute; reflexivity. Qed.

(** ** The recommendation scorer *)

Lemma float_or_default x : (movie.float_or x 0 == default 0 x)%Q.
Proof.
  destruct x as [q|]; cbn; [|reflexivity].
  destruct (Qeq_bool q 0) eqn:Hzero; [|reflexivity].
  symmetry. by apply Qeq_bool_eq.
Qed.

Lemma int_or_default x : movie.int_or x 0 = default 0 x.
Proof.
  destruct x as [z|]; cbn; [|done]. destruct (Z.eqb_spec z 0); congruence.
Qed.

Lemma financial_condition budget revenue :
  movie.int_truthy budget && movie.int_truthy revenue && (0 <? default 0 budget)
  = negb ((default 0 budget <=? 0) || unset budget || unset revenue).
Proof.
  destruct budget as [b|], revenue as [r|]; cbn;
    repeat match goal with
           | |- context [?x =? ?y] => destruct (Z.eqb_spec x y)
           | |- context [?x <? ?y] => destruct (Z.ltb_spec x y)
           | |- context [?x <=? ?y] => destruct (Z.leb_spec x y)
           end; cbn; first [reflexivity | lia].
Qed.

Lemma popularity_score_expected m w :
  exists score,
    movie.popularity_score m w = (Ret score, w)
    /\ (score == expected_score m (clock w))%Q.
Proof.
  unfold movie.popularity_score, expected_score, expected_vote_component,
    expected_recency_bonus, expected_financial_bonus.
  rewrite financial_condition, int_or_default.
  destruct (movie.release_date m) as [released|];
    unfold movie.datetime_now; run; cbv beta iota; (eexists; split; [reflexivity|]);
    rewrite !float_or_default;
    destruct ((default 0 (movie.budget m) <=? 0) || unset (movie.budget m)
              || unset (movie.revenue m)); cbn [negb]; ring.
Qed.

(** C9. [popularity_score] raises no error and its value is
    popularity + vote_average * min(vote_count / 1000, 1) + 0.5 * recency_bonus
    + 0.3 * financial_bonus, absent inputs counting as 0, with the recency
    bonus 0.5 for an unknown release date and max(0, 1 - (days / 365) / 10)
    otherwise, and the financial bonus 0 when the budget is not positive or
    budget or revenue is unset and min((revenue - budget) / budget / 10, 1)
    otherwise. Without release date and financial data the score is the
    base plus the vote component plus 0.25. *)
Theorem popularity_score_formula m w :
  (exists score,
      movie.popularity_score m w = (Ret score, w)
      /\ (score == expected_score m (clock w))%Q)
  /\ (forall score,
        movie.release_date m = None ->
        unset (movie.budget m) = true \/ unset (movie.revenue m) = true ->
        fst (movie.popularity_score m w) = Ret score ->
        (score == default 0 (movie.popularity m) + expected_vote_component m + (1 # 4))%Q).
Proof.
  destruct (popularity_score_expected m w) as (score & Hrun & Hscore).
  split; [eauto|].
  intros score' Hrelease Hfinancial. rewrite Hrun. intros [= <-].
  rewrite Hscore. unfold expected_score, expected_recency_bonus, expected_financial_bonus.
  rewrite Hrelease.
  assert (Hcond : (default 0 (movie.budget m) <=? 0) || unset (movie.budget m)
                  || unset (movie.revenue m) = true).
  { destruct Hfinancial as [-> | ->]; by rewrite ?orb_true_r. }
  rewrite Hcond. ring.
Qed.

Lemma popularity_score_formula_witness :
  movie.release_date sample_movie = None
  /\ unset (movie.budget sample_movie) = true
  /\ exists score,
       fst (movie.popularity_score sample_movie sample_world) = Ret score
       /\ (score == 100 + (17 # 2) * 1 + (1 # 4))%Q
       /\ (score == 435 # 4)%Q.
Proof.
  split; [reflexivity|]. split; [reflexivity|].
  destruct (proj1 (popularity_score_formula sample_movie sample_world))
    as (score & Hrun & _).
  exists score. split; [by rewrite Hrun|].
  pose proof (proj2 (popularity_score_formula sample_movie sample_world) score
                eq_refl (or_introl eq_refl) ltac:(by rewrite Hrun)) as Hscore.
  split; rewrite Hscore; vm_compute; reflexivity.
Defined.

(** A budget with a revenue of zero earns no financial bonus: zero counts as
    unset. *)
Example zero_revenue_counts_as_unset :
  expected_financial_bonus
    {| movie.id := 2; movie.title := "Flop"; movie.release_date := None;
       movie.vote_average := None; movie.vote_count := None; movie.popularity := None;
       movie.budget := Some 1000; movie.revenue := Some 0 |} = 0%Q.
Proof. reflexivity. Qed.

(** ** The counter store: reading, clearing, idle windows and outages *)

Lemma digit_of_pretty_N_char d :
  (d < 10)%N -> digit_of_ascii (pretty_N_char d) = Some (Z.of_N d).
Proof.
  intros Hd.
  assert (d = 0 \/ d = 1 \/ d = 2 \/ d = 3 \/ d = 4 \/ d = 5 \/ d = 6 \/ d = 7
          \/ d = 8 \/ d = 9)%N as Hcases by lia.
  repeat (destruct Hcases as [->|Hcases]; [reflexivity|]). by subst.
Qed.

Lemma parse_digits_pretty_N_go x : forall s,
  exists k : nat, forall acc after_digit,
    parse_digits acc after_digit (pretty_N_go x s)
    = parse_digits (acc * 10 ^ Z.of_nat k + Z.of_N x)
        (if decide (x = 0)%N then after_digit else true) s.
Proof.
  induction (N.lt_wf_0 x) as [x _ IH]. intros s.
  destruct (decide (x = 0)%N) as [->|Hpos].
  { exists 0%nat. intros acc after_digit. rewrite pretty_N_go_0. f_equal.
    change (Z.of_nat 0) with 0. change (Z.of_N 0) with 0.
    by rewrite Z.pow_0_r, Z.mul_1_r, Z.add_0_r. }
  rewrite pretty_N_go_step by lia.
  destruct (IH (x `div` 10)%N ltac:(apply N.div_lt; lia)
              (String (pretty_N_char (x `mod` 10)) s)) as [k Hk].
  exists (S k). intros acc after_digit. rewrite Hk. cbn [parse_digits].
  rewrite digit_of_pretty_N_char by (apply N.mod_lt; lia).
  f_equal. rewrite Nat2Z.inj_succ, Z.pow_succ_r by lia.
  rewrite N2Z.inj_mod, N2Z.inj_div. change (Z.of_N 10) with 10.
  pose proof (Z.div_mod (Z.of_N x) 10 ltac:(lia)) as Hx.
  clear IH Hk. lia.
Qed.

Lemma parse_digits_pretty_N x : (0 < x)%N ->
  parse_digits 0 false (pretty_N_go x "") = Some (Z.of_N x).
Proof.
  intros Hpos. destruct (parse_digits_pretty_N_go x "") as [k Hk].
  rewrite Hk. destruct (decide (x = 0)%N); [lia|]. cbn. f_equal.
Qed.

Lemma pretty_N_go_head x : forall s, (0 < x)%N ->
  exists d rest, (d < 10)%N /\ pretty_N_go x s = String (pretty_N_char d) rest.
Proof.
  induction (N.lt_wf_0 x) as [x _ IH]. intros s Hpos.
  rewrite pretty_N_go_step by lia.
  destruct (decide (x `div` 10 = 0)%N) as [Hzero|Hmore].
  - rewrite Hzero, pretty_N_go_0. exists (x `mod` 10)%N, s.
    split; [apply N.mod_lt; lia|done].
  - apply IH; [apply N.div_lt; lia|by apply N.neq_0_lt_0].
Qed.

Lemma pretty_N_char_plain d :
  (d < 10)%N ->
  is_space (pretty_N_char d) = false
  /\ Ascii.eqb (pretty_N_char d) "-" = false
  /\ Ascii.eqb (pretty_N_char d) "+" = false.
Proof.
  intros Hd.
  assert (d = 0 \/ d = 1 \/ d = 2 \/ d = 3 \/ d = 4 \/ d = 5 \/ d = 6 \/ d = 7
          \/ d = 8 \/ d = 9)%N as Hcases by lia.
  repeat (destruct Hcases as [->|Hcases]; [by vm_compute|]). subst. by vm_compute.
Qed.

(** [int(str(z)) == z] *)
Lemma py_int_pretty (z : Z) : py_int (pretty z) = Ret z /\ pretty z <> "".
Proof.
  destruct z as [|p|p]; [done|..].
  - assert (Hparse := parse_digits_pretty_N (N.pos p) ltac:(lia)).
    destruct (pretty_N_go_head (N.pos p) "" ltac:(lia)) as (d & rest & Hd & Hhead).
    destruct (pretty_N_char_plain d Hd) as (Hspace & Hminus & Hplus).
    change (pretty (Z.pos p)) with (pretty_N_go (N.pos p) "").
    rewrite Hhead in *. split; [|done].
    unfold py_int. cbn [lstrip]. by rewrite Hspace, Hminus, Hplus, Hparse.
  - assert (Hparse := parse_digits_pretty_N (N.pos p) ltac:(lia)).
    change (pretty (Z.neg p)) with (String "-" (pretty_N_go (N.pos p) "")).
    split; [|done]. unfold py_int. cbn [lstrip].
    change (is_space "-") with false. cbv beta iota.
    rewrite Ascii.eqb_refl. by rewrite Hparse.
Qed.

Lemma get_rate_limit_up key w :
  redis_up w = true ->
  exists w',
    get_rate_limit key w
    = (Ret (default 0 (entry_value <$> redis_lookup (clock w) (redis_data w) key)), w')
    /\ redis_up w' = true /\ redis_data w' = redis_data w /\ clock w' = clock w.
Proof.
  intros Hup. unfold get_rate_limit, redis_get.
  destruct (get_redis_client_up w Hup) as (w1 & Hc & Hup1 & Hd1 & Hclk).
  run. rewrite Hc. cbv beta iota. rewrite Hup1, Hd1, Hclk. cbv beta iota.
  destruct (redis_lookup (clock w) (redis_data w) key) as [e|]; cbn; [|eauto].
  destruct (py_int_pretty (entry_value e)) as [Hint Hne].
  rewrite (bool_decide_false _ Hne), Hint. cbn. eauto.
Qed.

Lemma get_rate_limit_down key w :
  redis_up w = false ->
  exists w',
    get_rate_limit key w = (Ret 0, w')
    /\ redis_data w' = redis_data w
    /\ exists rest,
         log w' = {| levelname := WARNING;
                     message := "Rate limit get error for key " +:+ key;
                     exc_info := Some RedisConnectionError |} :: rest.
Proof.
  intros Hdown. unfold get_rate_limit, redis_get.
  unfold get_redis_client. run. cbn.
  destruct (redis_client w); cbn; rewrite ?Hdown; cbn; eauto 10.
Qed.

Lemma redis_lookup_written t key count deadline data :
  redis_lookup t (<[key := {| entry_value := count; entry_deadline := Some deadline |}]> data) key
  = if t <? deadline
    then Some {| entry_value := count; entry_deadline := Some deadline |}
    else None.
Proof. unfold redis_lookup. by rewrite lookup_insert_eq. Qed.

(** X1. What [get_rate_limit] reads is what [increment_rate_limit] last
    returned, as long as the counter is alive: until 60 seconds after the
    increment; from then on, as for a key that was never counted, it reads 0.
    With the store unreachable it reads 0 as well, after a warning. *)
Theorem get_rate_limit_reads_the_counter key w :
  (redis_up w = true ->
   exists count w1,
     increment_rate_limit key 60 w = (Ret count, w1)
     /\ (forall t, t < clock w + timedelta_seconds 60 ->
           fst (get_rate_limit key (with_clock t w1)) = Ret count)
     /\ (forall t, clock w + timedelta_seconds 60 <= t ->
           fst (get_rate_limit key (with_clock t w1)) = Ret 0))
  /\ (redis_up w = true -> redis_data w !! key = None ->
      fst (get_rate_limit key w) = Ret 0)
  /\ (redis_up w = false ->
      exists w1 rest,
        get_rate_limit key w = (Ret 0, w1)
        /\ log w1 = {| levelname := WARNING;
                       message := "Rate limit get error for key " +:+ key;
                       exc_info := Some RedisConnectionError |} :: rest).
Proof.
  split; [|split].
  - intros Hup.
    destruct (increment_rate_limit_store key w Hup) as (count & w1 & Hrun & Hup1 & Hdata).
    exists count, w1. split; [done|]. split; intros t Ht.
    + destruct (get_rate_limit_up key (with_clock t w1) Hup1) as (w2 & -> & _).
      cbn. rewrite Hdata, redis_lookup_written.
      by destruct (Z.ltb_spec t (clock w + timedelta_seconds 60)); [|lia].
    + destruct (get_rate_limit_up key (with_clock t w1) Hup1) as (w2 & -> & _).
      cbn. rewrite Hdata, redis_lookup_written.
      by destruct (Z.ltb_spec t (clock w + timedelta_seconds 60)); [lia|].
  - intros Hup Hfresh. destruct (get_rate_limit_up key w Hup) as (w2 & -> & _).
    cbn. unfold redis_lookup. by rewrite Hfresh.
  - intros Hdown. destruct (get_rate_limit_down key w Hdown) as (w1 & Hrun & _ & rest & Hlog).
    eauto.
Qed.

Lemma get_rate_limit_reads_the_counter_witness :
  redis_up sample_world = true
  /\ fst (increment_rate_limit "ip:10.0.0.5" 60 sample_world) = Ret 1
  /\ fst (get_rate_limit "ip:10.0.0.5"
            (with_clock (sample_instant + timedelta_seconds 59)
               (snd (increment_rate_limit "ip:10.0.0.5" 60 sample_world)))) = Ret 1
  /\ fst (get_rate_limit "ip:10.0.0.5"
            (with_clock (sample_instant + timedelta_seconds 60)
               (snd (increment_rate_limit "ip:10.0.0.5" 60 sample_world)))) = Ret 0
  /\ fst (get_rate_limit "ip:10.0.0.5" sample_world_store_down) = Ret 0.
Proof.
  destruct (proj1 (get_rate_limit_reads_the_counter "ip:10.0.0.5" sample_world) eq_refl)
    as (count & w1 & Hrun & Hlive & Hgone).
  destruct (proj2 (proj2 (get_rate_limit_reads_the_counter "ip:10.0.0.5"
                            sample_world_store_down)) eq_refl)
    as (w2 & rest & Hdown & _).
  assert (Hcount : count = 1) by (vm_compute in Hrun; congruence).
  subst count. rewrite Hrun, Hdown. cbn [fst snd].
  split; [reflexivity|]. split; [reflexivity|].
  split; [apply Hlive; vm_compute; reflexivity|].
  split; [apply Hgone; vm_compute; discriminate|reflexivity].
Defined.

Lemma clear_rate_limit_up key w :
  redis_up w = true ->
  exists w1,
    clear_rate_limit key w
    = (Ret (match redis_lookup (clock w) (redis_data w) key with
            | Some _ => true
            | None => false
            end), w1)
    /\ redis_up w1 = true /\ clock w1 = clock w
    /\ redis_data w1 = delete key (redis_data w).
Proof.
  intros Hup. unfold clear_rate_limit, delete_cache, redis_del.
  destruct (get_redis_client_up w Hup) as (w1 & Hc & Hup1 & Hd1 & Hclk).
  run. rewrite Hc. cbv beta iota. rewrite Hup1, Hd1, Hclk. cbv beta iota.
  destruct (redis_lookup (clock w) (redis_data w) key);
    (eexists; split; [reflexivity|by cbn]).
Qed.

(** X2. With the store reachable, [clear_rate_limit] answers whether the
    key had a live counter and removes it, leaving the other keys alone:
    afterwards the key reads 0 and its next increment, at whatever time,
    returns 1. *)
Theorem clear_rate_limit_resets key w :
  redis_up w = true ->
  exists answer w1,
    clear_rate_limit key w = (Ret answer, w1)
    /\ (answer = true <-> is_Some (redis_lookup (clock w) (redis_data w) key))
    /\ (forall t, fst (get_rate_limit key (with_clock t w1)) = Ret 0)
    /\ (forall t, fst (increment_rate_limit key 60 (with_clock t w1)) = Ret 1)
    /\ (forall key', key' <> key -> redis_data w1 !! key' = redis_data w !! key').
Proof.
  intros Hup. destruct (clear_rate_limit_up key w Hup) as (w1 & Hrun & Hup1 & _ & Hdata).
  eexists _, w1. split; [exact Hrun|].
  assert (Hgone : redis_data w1 !! key = None) by (by rewrite Hdata, lookup_delete_eq).
  split; [|split; [|split]].
  - destruct (redis_lookup (clock w) (redis_data w) key) as [e|].
    + split; [by eexists|done].
    + split; [done|by intros [? ?]].
  - intros t. destruct (get_rate_limit_up key (with_clock t w1) Hup1) as (w2 & -> & _).
    cbn. unfold redis_lookup. by rewrite Hgone.
  - intros t. by destruct (increment_first key (with_clock t w1) Hup1 Hgone) as (w2 & -> & _).
  - intros key' Hne. by rewrite Hdata, lookup_delete_ne.
Qed.

Lemma clear_rate_limit_resets_witness :
  redis_up sample_world = true
  /\ exists w1 w2,
       increment_rate_limit "user:7" 60 sample_world = (Ret 1, w1)
       /\ clear_rate_limit "user:7" w1 = (Ret true, w2)
       /\ fst (increment_rate_limit "user:7" 60 w2) = Ret 1.
Proof.
  split; [reflexivity|].
  destruct (increment_rate_limit "user:7" 60 sample_world) as [r w1] eqn:Hfirst.
  assert (Hup1 : redis_up w1 = true) by (vm_compute in Hfirst; by injection Hfirst as <- <-).
  destruct (clear_rate_limit_resets "user:7" w1 Hup1)
    as (answer & w2 & Hclear & Hanswer & _ & Hnext & _).
  exists w1, w2. split; [vm_compute in Hfirst; by injection Hfirst as <- _|].
  split.
  - rewrite Hclear. f_equal. f_equal. apply Hanswer.
    vm_compute in Hfirst. injection Hfirst as _ <-. vm_compute. by eexists.
  - specialize (Hnext (clock w2)). by destruct w2.
Defined.

Lemma increment_after_window key count prev w :
  counter_at key count prev w -> prev + timedelta_seconds 60 <= clock w ->
  exists w', increment_rate_limit key 60 w = (Ret 1, w')
             /\ counter_at key 1 (clock w) w'.
Proof.
  intros [Hup Hkey] Hidle. unfold increment_rate_limit.
  destruct (get_redis_client_up w Hup) as (w1 & Hc & Hup1 & Hd1 & Hclk).
  assert (Hlt : (clock w <? prev + timedelta_seconds 60) = false) by lia.
  run. rewrite Hc. cbn. rewrite Hup1. cbn.
  unfold redis_lookup. rewrite Hd1, Hkey, Hclk. cbn. rewrite Hlt.
  rewrite lookup_insert_eq. cbn.
  eexists; split; [reflexivity|]. split; cbn; [done|].
  by rewrite lookup_insert_eq.
Qed.

(** X3. The window closes 60 seconds after the last counted request,
    admitted or rejected: the next request then counts as 1 again, whatever
    the count had reached, and the middleware admits it. *)
Theorem counter_restarts_after_idle_window
    env settings request current_user api_user key count prev w :
  Settings_init env = Ret settings ->
  (forall w', rate_limit_user_id request current_user api_user w' = (Ret key, w')) ->
  counter_at key count prev w ->
  prev + timedelta_seconds 60 <= clock w ->
  fst (increment_rate_limit key 60 w) = Ret 1
  /\ fst (rate_limit_middleware settings request current_user api_user w) = Ret tt
  /\ counter_at key 1 (clock w)
       (snd (rate_limit_middleware settings request current_user api_user w)).
Proof.
  intros Hsettings Hkey Hat Hidle.
  pose proof (validated_rate_limit env settings Hsettings) as Hlimit.
  destruct (increment_after_window key count prev w Hat Hidle) as (w1 & Hrun & Hat1).
  rewrite (rate_limit_middleware_decides _ _ _ _ key) by done.
  rewrite Hrun. cbn. split; [done|]. split; [|done].
  by destruct (Z.ltb_spec (rate_limit_per_minute settings) 1); [lia|].
Qed.

Lemma counter_restarts_after_idle_window_witness :
  exists w,
    fst (run_at (rate_limit_middleware sample_settings request_anonymous None None)
           [100; 101; 102; 103; 104] sample_world)
    = [Ret tt; Ret tt; Ret tt;
       Exc (HTTPError (RateLimitExceeded sample_settings));
       Exc (HTTPError (RateLimitExceeded sample_settings))]
    /\ w = with_clock 60000104
             (snd (run_at (rate_limit_middleware sample_settings request_anonymous None None)
                     [100; 101; 102; 103; 104] sample_world))
    /\ counter_at "ip:10.0.0.5" 5 104 w
    /\ fst (rate_limit_middleware sample_settings request_anonymous None None w) = Ret tt.
Proof.
  eexists. split; [vm_compute; reflexivity|]. split; [reflexivity|].
  assert (Hat : counter_at "ip:10.0.0.5" 5 104
                  (with_clock 60000104
                     (snd (run_at (rate_limit_middleware sample_settings request_anonymous
                                     None None) [100; 101; 102; 103; 104] sample_world))))
    by (split; vm_compute; reflexivity).
  split; [exact Hat|].
  refine (proj1 (proj2 (counter_restarts_after_idle_window sample_settings sample_settings
                   request_anonymous None None "ip:10.0.0.5" 5 104 _ eq_refl _ Hat _))).
  - reflexivity.
  - vm_compute. discriminate.
Defined.

Lemma increment_rate_limit_down_frame key expire w :
  redis_up w = false ->
  exists w', increment_rate_limit key expire w = (Ret 0, w')
             /\ redis_up w' = false /\ redis_data w' = redis_data w.
Proof.
  intros Hdown. unfold increment_rate_limit, get_redis_client. run. cbn.
  destruct (redis_client w); cbn; rewrite ?Hdown; cbn; eauto 10.
Qed.

Lemma increments_during_outage key ts : forall w,
  redis_up w = false ->
  fst (run_at (increment_rate_limit key 60) ts w) = List.map (fun _ => Ret 0) ts
  /\ redis_up (snd (run_at (increment_rate_limit key 60) ts w)) = false
  /\ redis_data (snd (run_at (increment_rate_limit key 60) ts w)) = redis_data w.
Proof.
  induction ts as [|t ts IH]; intros w Hdown; [done|]. cbn [run_at].
  destruct (increment_rate_limit_down_frame key 60 (with_clock t w) Hdown)
    as (w1 & -> & Hdown1 & Hdata1).
  destruct (IH w1 Hdown1) as (Hres & Hdown2 & Hdata2).
  destruct (run_at (increment_rate_limit key 60) ts w1) as [rs w2].
  cbn in *. by rewrite Hres, Hdata2, Hdata1.
Qed.

(** X4. While the counter store is unreachable every increment returns 0
    and nothing is counted: the store holds what it held before, so a
    counter that is still alive when the store answers again continues from
    its value before the outage. *)
Theorem outage_neither_counts_nor_resets key count prev ts t w :
  counter_at key count prev w ->
  t < prev + timedelta_seconds 60 ->
  let during := run_at (increment_rate_limit key 60) ts (with_redis_up false w) in
  fst during = List.map (fun _ => Ret 0) ts
  /\ redis_data (snd during) = redis_data w
  /\ fst (increment_rate_limit key 60 (with_clock t (with_redis_up true (snd during))))
     = Ret (count + 1).
Proof.
  intros [Hup Hkey] Hlive during.
  destruct (increments_during_outage key ts (with_redis_up false w) eq_refl)
    as (Hres & _ & Hdata).
  fold during in Hres, Hdata. split; [done|]. split; [done|].
  destruct (increment_next key count prev (with_clock t (with_redis_up true (snd during))))
    as (w1 & -> & _); [|done..].
  split; [done|]. cbn. by rewrite Hdata.
Qed.

Lemma outage_neither_counts_nor_resets_witness :
  exists w1,
    increment_rate_limit "user:7" 60 sample_world = (Ret 1, w1)
    /\ counter_at "user:7" 1 sample_instant w1
    /\ fst (run_at (increment_rate_limit "user:7" 60)
              [sample_instant + 10; sample_instant + 20] (with_redis_up false w1))
       = [Ret 0; Ret 0]
    /\ fst (increment_rate_limit "user:7" 60
              (with_clock (sample_instant + 30)
                 (with_redis_up true
                    (snd (run_at (increment_rate_limit "user:7" 60)
                            [sample_instant + 10; sample_instant + 20]
                            (with_redis_up false w1))))))
       = Ret 2.
Proof.
  destruct (increment_first "user:7" sample_world eq_refl eq_refl) as (w1 & Hrun & Hat).
  exists w1. split; [exact Hrun|]. split; [exact Hat|].
  destruct (outage_neither_counts_nor_resets "user:7" 1 sample_instant
              [sample_instant + 10; sample_instant + 20] (sample_instant + 30) w1 Hat
              ltac:(vm_compute; reflexivity)) as (Hres & _ & Hnext).
  split; [exact Hres|exact Hnext].
Defined.

(** ** Issuing tokens and keys *)

Lemma int_date_lookup name claims k :
  jwt.int_date name claims !! k
  = if decide (k = name)
    then match claims !! name with
         | Some (PyDatetime t) => Some (PyInt (timegm t))
         | other => other
         end
    else claims !! k.
Proof.
  unfold jwt.int_date. destruct (decide (k = name)) as [->|Hne].
  - destruct (claims !! name) as [[| | |t]|] eqn:Hname; rewrite ?lookup_insert_eq; done.
  - destruct (claims !! name) as [[| | |t]|]; rewrite ?lookup_insert_ne; done.
Qed.

Lemma encoded_claims_lookups data now expire :
  let claims := jwt.int_date "nbf" (jwt.int_date "iat" (jwt.int_date "exp"
                  (<["iat" := PyDatetime now]> (<["exp" := PyDatetime expire]> data)))) in
  claims !! "exp" = Some (PyInt (timegm expire))
  /\ claims !! "iat" = Some (PyInt (timegm now))
  /\ (forall k, k <> "exp" -> k <> "iat" -> k <> "nbf" -> claims !! k = data !! k).
Proof.
  cbv zeta. split; [|split].
  - rewrite !int_date_lookup. cbn. by rewrite lookup_insert_ne, lookup_insert_eq.
  - rewrite !int_date_lookup. cbn. by rewrite lookup_insert_eq.
  - intros k Hexp Hiat Hnbf. rewrite !int_date_lookup.
    rewrite !decide_False by done. by rewrite !lookup_insert_ne.
Qed.

Lemma encode_returns claims0 key alg token :
  jwt.encode claims0 key alg = Ret token ->
  let claims := jwt.int_date "nbf" (jwt.int_date "iat" (jwt.int_date "exp" claims0)) in
  token = jwt.JWS alg claims (jwt.sign key alg claims).
Proof.
  unfold jwt.encode. cbv zeta. case_bool_decide; [|discriminate].
  destruct (forallb _ _); [|discriminate].
  destruct (jwt.construct key alg); [|discriminate]. by intros [= <-].
Qed.

Lemma encode_unknown_family claims0 key alg :
  alg ∉ (jwt.HMAC ++ jwt.RSA_DS ++ jwt.EC_DS)%list ->
  exists cause, jwt.encode claims0 key alg = Exc cause.
Proof.
  intros Hfamily. unfold jwt.encode. cbv zeta.
  case_bool_decide; [|eauto]. destruct (forallb _ _); [|eauto].
  unfold jwt.construct. rewrite bool_decide_false; [eauto|].
  intros Hhmac. apply Hfamily, elem_of_app. by left.
Qed.

Lemma encode_datetime claims0 key alg k t :
  jwt.int_date "nbf" (jwt.int_date "iat" (jwt.int_date "exp" claims0)) !! k
  = Some (PyDatetime t) ->
  exists cause, jwt.encode claims0 key alg = Exc cause.
Proof.
  intros Hk. unfold jwt.encode. cbv zeta.
  destruct (forallb _ _) eqn:Hjson; [|repeat case_match; eauto].
  apply elem_of_map_to_list, list_elem_of_In in Hk.
  rewrite forallb_forall in Hjson. apply Hjson in Hk. discriminate Hk.
Qed.

(** X5. Whatever the caller puts in [data], the expiry and issue time of
    the token are the server's: "exp" is the second of the issue time plus
    the time to live and "iat" the second of the issue time, overriding
    entries of [data] under these names; every other claim (but "nbf", whose
    datetime becomes a timestamp) is the caller's, and issuing a token
    leaves the world as it is. *)
Theorem token_expiry_is_server_set settings data expires_delta w token w1 :
  create_access_token settings data expires_delta w = (Ret token, w1) ->
  w1 = w
  /\ exists claims,
       token = jwt.JWS (algorithm settings) claims
                 (jwt.sign (secret_key settings) (algorithm settings) claims)
       /\ claims !! "exp"
          = Some (PyInt (timegm (expiry_instant settings expires_delta (clock w))))
       /\ claims !! "iat" = Some (PyInt (timegm (clock w)))
       /\ (forall k, k <> "exp" -> k <> "iat" -> k <> "nbf" -> claims !! k = data !! k).
Proof.
  rewrite create_access_token_outcome.
  destruct (expiry_representable _ _ _); [|discriminate].
  destruct (jwt.encode _ _ _) as [token'|cause] eqn:Hencode; [|discriminate].
  intros [= <- <-]. split; [done|]. apply encode_returns in Hencode as ->.
  eexists. split; [reflexivity|]. apply encoded_claims_lookups.
Qed.

Lemma token_expiry_is_server_set_witness :
  exists token claims,
    create_access_token sample_settings
      (<["exp" := PyInt 32503680000]> (user_data "alice" 7)) None sample_world
    = (Ret token, sample_world)
    /\ token = jwt.JWS "HS256" claims
                 (jwt.sign (secret_key sample_settings) "HS256" claims)
    /\ claims !! "exp" = Some (PyInt 1709211800)
    /\ claims !! "sub" = Some (PyStr "alice").
Proof.
  destruct (create_access_token sample_settings
              (<["exp" := PyInt 32503680000]> (user_data "alice" 7)) None sample_world)
    as [[token|e] w1] eqn:Hissued; [|vm_compute in Hissued; discriminate Hissued].
  destruct (token_expiry_is_server_set _ _ _ _ _ _ Hissued)
    as (-> & claims & Htoken & Hexp & _ & Hrest).
  exists token, claims. split; [done|]. split; [exact Htoken|]. split; [exact Hexp|].
  rewrite Hrest by done. vm_compute. reflexivity.
Defined.

(** X6. [create_access_token] fails in two ways only. It raises
    [OverflowError], with nothing logged, exactly when the expiry instant
    cannot be computed: the configured minutes make no [timedelta], or the
    issue time plus the time to live is no [datetime]. Every other failure
    is ValueError("Failed to create access token"), after the cause has been
    logged as an error; that is what happens whenever the configured
    algorithm is outside the HS*, RS* and ES* families, and whenever a claim
    of [data] other than the time claims holds a [datetime]. *)
Theorem create_access_token_failures settings data expires_delta w :
  (forall e w1,
     create_access_token settings data expires_delta w = (Exc e, w1) ->
     (e = OverflowError /\ w1 = w
      /\ expiry_representable settings expires_delta (clock w) = false)
     \/ (e = ValueError "Failed to create access token"
         /\ expiry_representable settings expires_delta (clock w) = true
         /\ exists cause,
              w1 = with_log ({| levelname := ERROR;
                                message := "Error creating access token";
                                exc_info := Some cause |} :: log w) w))
  /\ (expiry_representable settings expires_delta (clock w) = false ->
      create_access_token settings data expires_delta w = (Exc OverflowError, w))
  /\ (expiry_representable settings expires_delta (clock w) = true ->
      algorithm settings ∉ (jwt.HMAC ++ jwt.RSA_DS ++ jwt.EC_DS)%list
      \/ (exists k t, k <> "exp" /\ k <> "iat" /\ k <> "nbf"
                      /\ data !! k = Some (PyDatetime t)) ->
      fst (create_access_token settings data expires_delta w)
      = Exc (ValueError "Failed to create access token")).
Proof.
  rewrite create_access_token_outcome.
  destruct (expiry_representable settings expires_delta (clock w)).
  - split; [|split; [discriminate|]].
    + intros e w1. destruct (jwt.encode _ _ _) as [token|cause]; [discriminate|].
      intros [= <- <-]. right. eauto.
    + intros _ [Hfamily|(k & t & Hexp & Hiat & Hnbf & Hk)].
      * by destruct (encode_unknown_family
                       (<["iat" := PyDatetime (clock w)]>
                          (<["exp" := PyDatetime
                                        (expiry_instant settings expires_delta (clock w))]>
                             data))
                       (secret_key settings) (algorithm settings) Hfamily) as [cause ->].
      * destruct (encoded_claims_lookups data (clock w)
                    (expiry_instant settings expires_delta (clock w))) as (_ & _ & Hrest).
        cbv zeta in Hrest. rewrite <- (Hrest k) in Hk by done.
        by destruct (encode_datetime _ (secret_key settings) (algorithm settings) k t Hk)
          as [cause ->].
  - split; [|split; [done|discriminate]].
    intros e w1 [= <- <-]. by left.
Qed.

Lemma create_access_token_failures_witness :
  expiry_representable sample_settings (Some (timedelta_days 999999999)) sample_instant
  = false
  /\ create_access_token sample_settings (user_data "alice" 7)
       (Some (timedelta_days 999999999)) sample_world
     = (Exc OverflowError, sample_world)
  /\ fst (create_access_token
            {| secret_key := secret_key sample_settings; algorithm := "none";
               access_token_expire_minutes := 30; rate_limit_per_minute := 3 |}
            (user_data "alice" 7) None sample_world)
     = Exc (ValueError "Failed to create access token").
Proof.
  split; [reflexivity|]. split.
  - exact (proj1 (proj2 (create_access_token_failures sample_settings (user_data "alice" 7)
                           (Some (timedelta_days 999999999)) sample_world)) eq_refl).
  - refine (proj2 (proj2 (create_access_token_failures
                             {| secret_key := secret_key sample_settings;
                                algorithm := "none"; access_token_expire_minutes := 30;
                                rate_limit_per_minute := 3 |}
                             (user_data "alice" 7) None sample_world)) eq_refl _).
    left. intros Hin. unfold jwt.HMAC, jwt.RSA_DS, jwt.EC_DS in Hin. cbn [app] in Hin.
    rewrite !elem_of_cons, elem_of_nil in Hin.
    repeat (destruct Hin as [Hin|Hin]; [discriminate Hin|]). exact Hin.
Defined.

Lemma substring_prefix_of_append p rest :
  String.substring 0 (String.length p) (p +:+ rest) = p.
Proof.
  induction p as [|c p IH]; [by destruct rest|].
  change (String.substring 0 (String.length (String c p)) (String c p +:+ rest))
    with (String c (String.substring 0 (String.length p) (p +:+ rest))).
  by rewrite IH.
Qed.

Lemma length_substring_from_0 n s :
  (n <= String.length s)%nat -> String.length (String.substring 0 n s) = n.
Proof.
  revert s. induction n as [|n IH]; intros s Hn; [by destruct s|].
  destruct s as [|c s]; cbn in *; [lia|]. rewrite IH; lia.
Qed.

Lemma validated_secret_key env settings :
  Settings_init env = Ret settings -> (32 <= String.length (secret_key settings))%nat.
Proof.
  unfold Settings_init, validate_secret_key, validate_rate_limit.
  destruct (Z.ltb_spec (Z.of_nat (String.length (secret_key env))) 32); [done|].
  destruct (_ <? 1); [done|]. intros [= <-]. cbn. lia.
Qed.

(** X8. Every API key discloses part of the signing secret: with settings
    that passed validation, characters 3 to 18 of a generated key are the
    first 16 characters of [secret_key], the key tokens are signed with. *)
Theorem api_key_discloses_secret_prefix env settings w key w1 :
  Settings_init env = Ret settings ->
  generate_api_key settings w = (Ret key, w1) ->
  String.substring 3 16 key = String.substring 0 16 (secret_key settings)
  /\ String.length (String.substring 0 16 (secret_key settings)) = 16%nat.
Proof.
  intros Hsettings Hkey.
  pose proof (validated_secret_key env settings Hsettings) as Hlong.
  assert (Hlen : String.length (String.substring 0 16 (secret_key settings)) = 16%nat)
    by (apply length_substring_from_0; lia).
  split; [|done]. revert Hkey. unfold generate_api_key. run. intros [= <- _].
  change (String.substring 3 16 ("sk_" +:+ ?s)) with (String.substring 0 16 s).
  rewrite <- Hlen at 1. apply substring_prefix_of_append.
Qed.

Lemma api_key_discloses_secret_prefix_witness :
  Settings_init sample_settings = Ret sample_settings
  /\ generate_api_key sample_settings sample_world
     = (Ret "sk_0123456789abcdef_20240229", sample_world)
  /\ String.substring 3 16 "sk_0123456789abcdef_20240229"
     = String.substring 0 16 (secret_key sample_settings).
Proof.
  assert (Hkey : generate_api_key sample_settings sample_world
                 = (Ret "sk_0123456789abcdef_20240229", sample_world))
    by (vm_compute; reflexivity).
  split; [reflexivity|]. split; [exact Hkey|].
  exact (proj1 (api_key_discloses_secret_prefix sample_settings sample_settings
                  sample_world _ _ eq_refl Hkey)).
Defined.

(** ** Soundness of identity resolution *)

Lemma verify_token_run settings token w :
  verify_token settings token w
  = match jwt.decode_at (clock w) token (secret_key settings) [algorithm settings] with
    | Ret payload => (Ret (Some payload), w)
    | Exc e =>
        (Ret None,
         with_log ({| levelname := if is_JWTError e then WARNING else ERROR;
                      message := if is_JWTError e then "Invalid token"
                                 else "Token verification error";
                      exc_info := Some e |} :: log w) w)
    end.
Proof.
  unfold verify_token, jwt.decode. run.
  destruct (jwt.decode_at _ _ _ _) as [payload|e]; [done|].
  by destruct (is_JWTError e).
Qed.

Lemma get_user_by_id_run n w :
  get_user_by_id (PyInt n) w
  = if db_up w
    then match List.filter (fun u => id u =? n) (users w) with
         | [] => (Ret None, w)
         | [u] => (Ret (Some u), w)
         | _ => (Exc MultipleResultsFound, w)
         end
    else (Exc OperationalError, w).
Proof.
  unfold get_user_by_id. run. destruct (db_up w); [|done].
  by destruct (List.filter _ (users w)) as [|u [|v l]].
Qed.

Lemma get_user_by_api_key_run key w :
  get_user_by_api_key key w
  = if db_up w
    then match List.filter (fun u => bool_decide (api_key u = Some key)) (users w) with
         | [] => (Ret None, w)
         | [u] => (Ret (Some u), w)
         | _ => (Exc MultipleResultsFound, w)
         end
    else (Exc OperationalError, w).
Proof.
  unfold get_user_by_api_key. run. destruct (db_up w); [|done].
  by destruct (List.filter _ (users w)) as [|u [|v l]].
Qed.

Lemma filter_singleton_In {A} (f : A -> bool) l x :
  List.filter f l = [x] -> In x l /\ f x = true.
Proof. intros Hf. apply filter_In. rewrite Hf. by left. Qed.

Lemma filter_nil_iff {A} (f : A -> bool) l :
  (forall x, In x l -> f x = false) -> List.filter f l = [].
Proof.
  induction l as [|a l IH]; [done|]. intros Hall. cbn.
  rewrite (Hall a) by (by left). apply IH. intros x Hx. apply Hall. by right.
Qed.

Lemma get_current_user_sound settings creds w u w' :
  get_current_user settings creds w = (Ret (Some u), w') ->
  w' = w
  /\ exists c claims,
       creds = Some c
       /\ token_valid settings (clock w) (credentials c) claims
       /\ claims !! "user_id" = Some (PyInt (id u))
       /\ is_PyNone (dict_get claims "sub") = false
       /\ db_up w = true
       /\ In u (users w)
       /\ is_active u = true.
Proof.
  unfold get_current_user. destruct creds as [c|]; [|by run].
  unfold try_except, mbind, M_bind. rewrite verify_token_run.
  destruct (jwt.decode_at _ _ _ _) as [claims|e] eqn:Hdecode; [|by run].
  apply decode_at_valid in Hdecode as [_ Hdecode].
  destruct (is_PyNone (dict_get claims "sub")) eqn:Hsub; [by run|]. cbn [orb].
  destruct (is_PyNone (dict_get claims "user_id")) eqn:Huid; [by run|].
  unfold dict_get in Huid |- *.
  destruct (claims !! "user_id") as [[|s|n|t]|] eqn:Hlookup; try by run.
  cbn [from_option]. unfold Datatypes.id. rewrite get_user_by_id_run.
  destruct (db_up w); [|by run].
  destruct (List.filter _ (users w)) as [|v [|v' l]] eqn:Hrows; try by run.
  apply filter_singleton_In in Hrows as [Hin Hid].
  destruct (is_active v) eqn:Hactive; run; cbn; [|done].
  intros [= <- <-]. split; [done|]. exists c, claims.
  apply Z.eqb_eq in Hid as ->. by rewrite Hlookup.
Qed.



Lemma get_current_user_resolves settings sch token claims n w :
  passphrase_settings settings ->
  token_valid settings (clock w) token claims ->
  is_PyNone (dict_get claims "sub") = false ->
  claims !! "user_id" = Some (PyInt n) ->
  db_up w = true ->
  get_current_user settings (Some {| scheme := sch; credentials := token |}) w
  = (Ret match List.filter (fun u => id u =? n) (users w) with
         | [u] => if is_active u then Some u else None
         | _ => None
         end,
     match List.filter (fun u => id u =? n) (users w) with
     | _ :: _ :: _ =>
         with_log ({| levelname := ERROR; message := "Authentication error";
                      exc_info := Some MultipleResultsFound |} :: log w) w
     | _ => w
     end).
Proof.
  intros Hsettings Hvalid Hsub Huid Hup.
  apply (conj Hsettings), decode_at_valid in Hvalid.
  unfold get_current_user, try_except, mbind, M_bind. cbn [credentials].
  rewrite verify_token_run, Hvalid, Hsub. unfold dict_get. rewrite Huid.
  cbn [from_option orb]. unfold Datatypes.id. cbn [is_PyNone]. cbv beta iota.
  rewrite get_user_by_id_run, Hup.
  destruct (List.filter _ (users w)) as [|v [|v' l]]; try by run.
  by destruct (is_active v).
Qed.

(** X10. Round trip of a session: a token issued by
    [create_access_token_for_user], by a server whose secret python-jose
    takes as it stands, resolves, up to the end of the second in which it
    expires and with the database answering, to the row that holds the
    user's id at the time of the call, provided that row is active; it
    resolves to nothing when that row has been disabled or removed since,
    and to nothing once the second of its expiry instant has passed. The
    subject of the token is not compared with the row. *)
Theorem session_round_trip settings user w0 token w1 sch w :
  create_access_token_for_user settings user w0 = (Ret token, w1) ->
  jwt.json_like (secret_key settings) = false ->
  db_up w = true ->
  let expiry := expiry_instant settings None (clock w0) in
  let creds := Some {| scheme := sch; credentials := token |} in
  (forall row,
     timegm (clock w) <= timegm expiry ->
     List.filter (fun u => id u =? id user) (users w) = [row] ->
     get_current_user settings creds w
     = (Ret (if is_active row then Some row else None), w))
  /\ (timegm (clock w) <= timegm expiry ->
      List.filter (fun u => id u =? id user) (users w) = [] ->
      get_current_user settings creds w = (Ret None, w))
  /\ (timegm expiry < timegm (clock w) ->
      fst (get_current_user settings creds w) = Ret None).
Proof.
  intros Hissued Hjson Hup. cbv zeta. unfold create_access_token_for_user in Hissued.
  change (<["user_id":=PyInt (id user)]> (<["sub":=PyStr (username user)]> ∅))
    with (user_data (username user) (id user)) in Hissued.
  destruct (create_access_token_issues _ _ _ _ _ _ _ Hissued) as (Hhmac & Hmarker & ->).
  set (expiry := expiry_instant settings None (clock w0)).
  destruct (user_claims_lookups (username user) (id user) (timegm (clock w0))
              (timegm expiry)) as (_ & _ & Hexp & Hsub & Huid & _).
  assert (Hresolve := fun Hnow =>
    get_current_user_resolves settings sch _ _ (id user) w
      (conj Hhmac (conj Hmarker Hjson))
      (issued_token_valid settings (username user) (id user) (timegm (clock w0))
         (timegm expiry) (clock w) Hnow)
      ltac:(unfold dict_get; by rewrite Hsub) Huid Hup).
  split; [|split].
  - intros row Hnow Hrows. by rewrite (Hresolve Hnow), Hrows.
  - intros Hnow Hrows. by rewrite (Hresolve Hnow), Hrows.
  - intros Hlate. unfold get_current_user, try_except, mbind, M_bind.
    cbn [credentials]. rewrite verify_token_run.
    destruct (decode_at_expired (clock w)
                (jwt.JWS (algorithm settings)
                   (user_claims (username user) (id user) (timegm (clock w0))
                      (timegm expiry))
                   (jwt.sign (secret_key settings) (algorithm settings)
                      (user_claims (username user) (id user) (timegm (clock w0))
                         (timegm expiry))))
                (secret_key settings) [algorithm settings]) as [e ->]; [|by run].
    do 3 eexists. exists (PyInt (timegm expiry)), (timegm expiry). done.
Qed.

Lemma session_round_trip_witness :
  create_access_token_for_user sample_settings carol sample_world
  = (Ret (sample_token carol), sample_world)
  /\ jwt.json_like (secret_key sample_settings) = false
  /\ db_up sample_world = true
  /\ get_current_user sample_settings
       (Some {| scheme := "Bearer"; credentials := sample_token carol |}) sample_world
     = (Ret None, sample_world)
  /\ fst (get_current_user sample_settings
            (Some {| scheme := "Bearer"; credentials := sample_token alice |})
            (with_clock (sample_instant + timedelta_seconds 1801) sample_world))
     = Ret None.
Proof.
  assert (Hcarol : create_access_token_for_user sample_settings carol sample_world
                   = (Ret (sample_token carol), sample_world)) by (vm_compute; reflexivity).
  assert (Halice : create_access_token_for_user sample_settings alice sample_world
                   = (Ret (sample_token alice), sample_world)) by (vm_compute; reflexivity).
  split; [exact Hcarol|]. split; [reflexivity|]. split; [reflexivity|]. split.
  - refine (proj1 (session_round_trip sample_settings carol sample_world _ _ "Bearer"
                     sample_world Hcarol eq_refl eq_refl) carol _ _).
    + vm_compute. discriminate.
    + vm_compute. reflexivity.
  - refine (proj2 (proj2 (session_round_trip sample_settings alice sample_world _ _ "Bearer"
                            (with_clock (sample_instant + timedelta_seconds 1801)
                               sample_world) Halice eq_refl eq_refl))
              _).
    vm_compute. reflexivity.
Defined.

Lemma is_api_key_valid_run user w :
  is_api_key_valid user w
  = (Ret (str_truthy (api_key user)
          && match api_key_expires_at user with
             | Some expires_at => negb (expires_at <? clock w)
             | None => true
             end), w).
Proof.
  unfold is_api_key_valid. destruct (str_truthy (api_key user)); [|done].
  destruct (api_key_expires_at user) as [e|]; [|done]. run. cbn.
  by destruct (e <? clock w).
Qed.

Lemma verify_api_key_run request key w :
  headers_get request "X-API-Key" = Some key ->
  key <> "" ->
  verify_api_key request w
  = if db_up w
    then match List.filter (fun u => bool_decide (api_key u = Some key)) (users w) with
         | [] => (Ret None, w)
         | [u] =>
             (Ret (if match api_key_expires_at u with
                      | Some expires_at => negb (expires_at <? clock w)
                      | None => true
                      end && is_active u
                   then Some u else None), w)
         | _ =>
             (Ret None,
              with_log ({| levelname := ERROR; message := "API key verification error";
                           exc_info := Some MultipleResultsFound |} :: log w) w)
         end
    else (Ret None,
          with_log ({| levelname := ERROR; message := "API key verification error";
                       exc_info := Some OperationalError |} :: log w) w).
Proof.
  intros Hheader Hne. unfold verify_api_key. rewrite Hheader.
  rewrite (bool_decide_false _ Hne).
  unfold try_except, mbind, M_bind. rewrite get_user_by_api_key_run.
  destruct (db_up w); [|by run].
  destruct (List.filter _ (users w)) as [|u [|v l]] eqn:Hrows; try by run.
  apply filter_singleton_In in Hrows as [_ Hkey]. apply bool_decide_eq_true in Hkey.
  rewrite is_api_key_valid_run. unfold str_truthy. rewrite Hkey.
  rewrite (bool_decide_false _ Hne). cbn [negb andb].
  by destruct (_ && is_active u).
Qed.

Lemma verify_api_key_sound request w u w' :
  verify_api_key request w = (Ret (Some u), w') ->
  w' = w
  /\ exists key,
       headers_get request "X-API-Key" = Some key
       /\ key <> ""
       /\ db_up w = true
       /\ api_key u = Some key
       /\ In u (users w)
       /\ is_active u = true
       /\ (forall expires_at, api_key_expires_at u = Some expires_at -> clock w <= expires_at).
Proof.
  destruct (headers_get request "X-API-Key") as [key|] eqn:Hheader; cycle 1.
  { unfold verify_api_key. rewrite Hheader. by run. }
  destruct (decide (key = "")) as [->|Hne].
  { unfold verify_api_key. rewrite Hheader. by run. }
  rewrite (verify_api_key_run request key w Hheader Hne).
  destruct (db_up w) eqn:Hup; [|discriminate].
  destruct (List.filter _ (users w)) as [|v [|v' l]] eqn:Hrows; try discriminate.
  apply filter_singleton_In in Hrows as [Hin Hkey]. apply bool_decide_eq_true in Hkey.
  destruct (is_active v) eqn:Hactive; [|rewrite andb_false_r; discriminate].
  rewrite andb_true_r.
  destruct (api_key_expires_at v) as [e|] eqn:Hexp.
  - destruct (Z.ltb_spec e (clock w)); [discriminate|]. intros [= <- <-].
    split; [done|]. exists key. repeat split; try done.
    intros e' He'. rewrite Hexp in He'. injection He' as <-. lia.
  - intros [= <- <-]. split; [done|]. exists key. repeat split; try done.
    intros e' He'. by rewrite Hexp in He'.
Qed.


(** X11. An identity resolved from an API key is backed by the table: the
    header carries a non-empty key, the identity is a row of the users table
    holding exactly that key, it is active, and its key has not expired (no
    stored expiry, or the time of the call is not after it). Resolving
    leaves the world as it is. *)
Theorem api_key_identity_is_sound request w u w' :
  verify_api_key request w = (Ret (Some u), w') ->
  w' = w
  /\ exists key,
       headers_get request "X-API-Key" = Some key
       /\ key <> ""
       /\ db_up w = true
       /\ api_key u = Some key
       /\ In u (users w)
       /\ is_active u = true
       /\ (forall expires_at, api_key_expires_at u = Some expires_at -> clock w <= expires_at).
Proof.
  apply verify_api_key_sound.
Qed.

Lemma api_key_identity_is_sound_witness :
  verify_api_key (request_with_api_key "sk_machine_client") sample_world
  = (Ret (Some bob), sample_world)
  /\ api_key bob = Some "sk_machine_client"
  /\ is_active bob = true.
Proof.
  assert (Hrun : verify_api_key (request_with_api_key "sk_machine_client") sample_world
                 = (Ret (Some bob), sample_world)) by (vm_compute; reflexivity).
  destruct (api_key_identity_is_sound _ _ _ _ Hrun)
    as (_ & key & Hheader & _ & _ & Hkey & _ & Hactive & _).
  split; [exact Hrun|]. split; [reflexivity|exact Hactive].
Defined.

(** X12. The API-key path fails closed. A key that two or more rows hold
    authenticates nobody (the lookup's error is logged and swallowed), a key
    past its expiry instant authenticates nobody, and so does the key of a
    disabled account. *)
Theorem api_key_path_fails_closed request key w :
  headers_get request "X-API-Key" = Some key ->
  key <> "" ->
  db_up w = true ->
  (forall u v rest,
     List.filter (fun u => bool_decide (api_key u = Some key)) (users w) = u :: v :: rest ->
     verify_api_key request w
     = (Ret None,
        with_log ({| levelname := ERROR; message := "API key verification error";
                     exc_info := Some MultipleResultsFound |} :: log w) w))
  /\ (forall u expires_at,
        List.filter (fun u => bool_decide (api_key u = Some key)) (users w) = [u] ->
        api_key_expires_at u = Some expires_at ->
        expires_at < clock w ->
        verify_api_key request w = (Ret None, w))
  /\ (forall u,
        List.filter (fun u => bool_decide (api_key u = Some key)) (users w) = [u] ->
        is_active u = false ->
        verify_api_key request w = (Ret None, w)).
Proof.
  intros Hheader Hne Hup. rewrite (verify_api_key_run request key w Hheader Hne), Hup.
  split; [|split].
  - intros u v rest ->. done.
  - intros u e -> -> Hlate. by destruct (Z.ltb_spec e (clock w)); [|lia].
  - intros u -> ->. by rewrite andb_false_r.
Qed.

Lemma api_key_path_fails_closed_witness :
  headers_get (request_with_api_key "sk_machine_client") "X-API-Key"
  = Some "sk_machine_client"
  /\ verify_api_key (request_with_api_key "sk_machine_client")
       (with_users [bob; set_api_key alice (Some "sk_machine_client") None] sample_world)
     = (Ret None,
        with_log [{| levelname := ERROR; message := "API key verification error";
                     exc_info := Some MultipleResultsFound |}]
          (with_users [bob; set_api_key alice (Some "sk_machine_client") None] sample_world)).
Proof.
  split; [reflexivity|].
  refine (proj1 (api_key_path_fails_closed (request_with_api_key "sk_machine_client")
                   "sk_machine_client"
                   (with_users [bob; set_api_key alice (Some "sk_machine_client") None]
                      sample_world) eq_refl _ eq_refl) bob _ [] _).
  - discriminate.
  - vm_compute. reflexivity.
Defined.

Lemma same_but_log_refl w : same_but_log w w.
Proof. by repeat split. Qed.

Lemma same_but_log_with_log l w : same_but_log w (with_log l w).
Proof. by repeat split. Qed.

Lemma same_but_log_trans w1 w2 w3 :
  same_but_log w1 w2 -> same_but_log w2 w3 -> same_but_log w1 w3.
Proof.
  intros (?&?&?&?&?&?) (?&?&?&?&?&?). repeat split; congruence.
Qed.

Lemma verify_token_frame settings token w :
  exists r w', verify_token settings token w = (Ret r, w') /\ same_but_log w w'.
Proof.
  rewrite verify_token_run. destruct (jwt.decode_at _ _ _ _); eauto using same_but_log_refl,
    same_but_log_with_log.
Qed.

Lemma get_current_user_frame settings creds w :
  exists r w', get_current_user settings creds w = (Ret r, w') /\ same_but_log w w'.
Proof.
  unfold get_current_user. destruct creds as [c|]; [|run; eauto using same_but_log_refl].
  unfold try_except, mbind, M_bind. rewrite verify_token_run.
  destruct (jwt.decode_at _ _ _ _) as [claims|e];
    [|run; eauto using same_but_log_with_log].
  destruct (is_PyNone (dict_get claims "sub") || is_PyNone (dict_get claims "user_id"));
    [run; eauto using same_but_log_refl|].
  destruct (dict_get claims "user_id") as [|s|n|t];
    try solve [run; cbn; eauto using same_but_log_with_log].
  rewrite get_user_by_id_run. destruct (db_up w);
    [|run; cbn; eauto using same_but_log_with_log].
  destruct (List.filter _ (users w)) as [|v [|v' l]];
    try solve [run; cbn; eauto using same_but_log_refl, same_but_log_with_log].
  destruct (is_active v); run; cbn; eauto using same_but_log_refl.
Qed.

Lemma verify_api_key_frame request w :
  exists r w', verify_api_key request w = (Ret r, w') /\ same_but_log w w'.
Proof.
  destruct (headers_get request "X-API-Key") as [key|] eqn:Hheader; cycle 1.
  { unfold verify_api_key. rewrite Hheader. run. eauto using same_but_log_refl. }
  destruct (decide (key = "")) as [->|Hne].
  { unfold verify_api_key. rewrite Hheader. run. eauto using same_but_log_refl. }
  rewrite (verify_api_key_run request key w Hheader Hne).
  destruct (db_up w); [|eauto using same_but_log_with_log].
  destruct (List.filter _ (users w)) as [|v [|v' l]];
    eauto using same_but_log_refl, same_but_log_with_log.
Qed.

(** X13. [require_auth], resolved from a request, has two outcomes only: an
    identity that is an active row of the users table, read while the
    database answered, or the 401 "Authentication required" with
    WWW-Authenticate: Bearer. Nothing but the log changes. *)
Theorem require_auth_outcomes settings request w :
  exists w', same_but_log w w'
    /\ ((exists u,
           call_require_auth settings request w = (Ret u, w')
           /\ In u (users w) /\ is_active u = true /\ db_up w = true)
        \/ call_require_auth settings request w
           = (Exc (HTTPError (Unauthenticated "Authentication required")), w')).
Proof.
  unfold call_require_auth, Depends_get_current_user.
  destruct (get_current_user_frame settings (security request) w) as (cu & w1 & Hcu & Hw1).
  destruct (verify_api_key_frame request w1) as (au & w2 & Hau & Hw2).
  exists w2. split; [by eapply same_but_log_trans|].
  unfold mbind, M_bind. rewrite Hcu, Hau.
  destruct cu as [u|].
  - left. exists u. split; [done|].
    destruct (get_current_user_sound _ _ _ _ _ Hcu) as (_ & _ & _ & _ & _ & _ & _ & ? & ? & ?).
    done.
  - destruct au as [u|]; [|by right].
    left. exists u. split; [done|].
    destruct (verify_api_key_sound _ _ _ _ Hau) as (_ & key & _ & _ & Hup & _ & Hin & ? & _).
    destruct Hw1 as (_ & Husers & Hdb & _). by rewrite <- Husers, <- Hdb.
Qed.

(** X14. During a database outage neither path resolves an identity, for
    any credentials: [require_auth] answers 401, not a server error, and
    [optional_auth] serves the request as anonymous. *)
Theorem database_outage_means_unauthenticated settings request w :
  db_up w = false ->
  fst (Depends_get_current_user settings request w) = Ret None
  /\ fst (verify_api_key request w) = Ret None
  /\ fst (call_require_auth settings request w)
     = Exc (HTTPError (Unauthenticated "Authentication required"))
  /\ fst (call_optional_auth settings request w) = Ret None.
Proof.
  intros Hdown.
  assert (Hsession : forall w0, db_up w0 = false ->
    exists w1, get_current_user settings (security request) w0 = (Ret None, w1)
               /\ db_up w1 = false).
  { intros w0 Hw0.
    destruct (get_current_user_frame settings (security request) w0)
      as ([u|] & w1 & Hcu & Hw1).
    - destruct (get_current_user_sound _ _ _ _ _ Hcu) as (_ & _ & _ & _ & _ & _ & _ & ? & _).
      congruence.
    - exists w1. split; [done|]. destruct Hw1 as (_ & _ & -> & _). done. }
  assert (Hkey : forall w0, db_up w0 = false ->
    exists w1, verify_api_key request w0 = (Ret None, w1)).
  { intros w0 Hw0. destruct (verify_api_key_frame request w0) as ([u|] & w1 & Hau & _).
    - destruct (verify_api_key_sound _ _ _ _ Hau) as (_ & _ & _ & _ & ? & _). congruence.
    - eauto. }
  destruct (Hsession w Hdown) as (w1 & Hcu & Hdown1).
  destruct (Hkey w Hdown) as (w1' & Hau0).
  destruct (Hkey w1 Hdown1) as (w2 & Hau).
  unfold call_require_auth, call_optional_auth, Depends_get_current_user, mbind, M_bind.
  by rewrite Hcu, Hau, Hau0.
Qed.

Lemma database_outage_means_unauthenticated_witness :
  db_up sample_world_db_down = false
  /\ fst (call_require_auth sample_settings (request_with_both alice "sk_machine_client")
            sample_world_db_down)
     = Exc (HTTPError (Unauthenticated "Authentication required")).
Proof.
  split; [reflexivity|].
  exact (proj1 (proj2 (proj2 (database_outage_means_unauthenticated sample_settings
           (request_with_both alice "sk_machine_client") sample_world_db_down eq_refl)))).
Defined.

(** ** The API key of an account *)

Lemma generate_api_key_for_user_run settings user w :
  generate_api_key_for_user settings user w
  = let key := "sk_" +:+ String.substring 0 16 (secret_key settings) +:+ "_"
               +:+ strftime_Ymd (clock w) in
    let issued := set_api_key user (Some key) (Some (clock w + timedelta_days 365)) in
    if negb (db_up w) then (Exc OperationalError, w)
    else if api_key_taken_by_other issued (users w) then (Exc IntegrityError, w)
    else (Ret key,
          with_users (List.map (fun u => if id u =? id issued then issued else u) (users w)) w).
Proof.
  unfold generate_api_key_for_user, generate_api_key, db_commit, db_refresh. run.
  cbv zeta beta iota. destruct (db_up w) eqn:Hup; cbn [negb]; [|done].
  destruct (api_key_taken_by_other _ (users w)); [done|]. cbn. by rewrite Hup.
Qed.

Lemma not_taken_by_other issued rows key :
  api_key issued = Some key ->
  api_key_taken_by_other issued rows = false ->
  forall u, In u rows -> api_key u = Some key -> id u = id issued.
Proof.
  intros Hkey Hfree u Hin Hu. unfold api_key_taken_by_other in Hfree.
  destruct (Z.eqb_spec (id u) (id issued)) as [|Hne]; [done|]. exfalso.
  assert (Htaken : existsb (fun u => negb (id u =? id issued)
                    && bool_decide (is_Some (api_key issued))
                    && bool_decide (api_key u = api_key issued)) rows = true).
  { apply existsb_exists. exists u. split; [done|].
    rewrite (proj2 (Z.eqb_neq _ _) Hne). cbn.
    rewrite !bool_decide_true; [done|congruence|by rewrite Hkey]. }
  congruence.
Qed.

Lemma generate_api_key_for_user_unique settings user w :
  api_keys_unique (users w) ->
  api_keys_unique (users (snd (generate_api_key_for_user settings user w))).
Proof.
  intros Hunique. rewrite generate_api_key_for_user_run. cbv zeta.
  destruct (negb (db_up w)); [done|].
  set (issued := set_api_key user _ _).
  destruct (api_key_taken_by_other issued (users w)) eqn:Hfree; [done|]. cbn.
  intros u' v' key Hu' Hv' Hku Hkv.
  apply in_map_iff in Hu' as (u & <- & Hu). apply in_map_iff in Hv' as (v & <- & Hv).
  assert (Hissued : id issued = id user) by done.
  revert Hku Hkv.
  destruct (Z.eqb_spec (id u) (id user)) as [Hidu|Hidu],
           (Z.eqb_spec (id v) (id user)) as [Hidv|Hidv]; intros Hku Hkv.
  - done.
  - symmetry. rewrite Hissued. rewrite <- Hissued.
    by apply (not_taken_by_other issued (users w) key).
  - rewrite Hissued. rewrite <- Hissued.
    by apply (not_taken_by_other issued (users w) key).
  - by apply (Hunique u v key).
Qed.

Lemma sample_accounts_unique : api_keys_unique (users sample_world).
Proof.
  intros u v key Hu Hv Hku Hkv. simpl in Hu, Hv.
  destruct Hu as [<-|[<-|[<-|[]]]]; try discriminate Hku;
    destruct Hv as [<-|[<-|[<-|[]]]]; try discriminate Hkv; reflexivity.
Qed.

Lemma sample_accounts_ids : NoDup (List.map id (users sample_world)).
Proof.
  vm_compute. repeat constructor; intros Hin;
    repeat (apply elem_of_cons in Hin as [Hin|Hin]; [discriminate Hin|]);
    by apply elem_of_nil in Hin.
Qed.

(** X16. Generating an API key keeps the users table free of shared keys:
    if no key is held by two accounts before the call, none is after it,
    whether the call succeeds or fails. *)
Theorem generate_api_key_keeps_keys_unique settings user w :
  api_keys_unique (users w) ->
  api_keys_unique (users (snd (generate_api_key_for_user settings user w))).
Proof.
  apply generate_api_key_for_user_unique.
Qed.

Lemma generate_api_key_keeps_keys_unique_witness :
  api_keys_unique (users sample_world)
  /\ api_keys_unique
       (users (snd (generate_api_key_for_user sample_settings alice sample_world))).
Proof.
  split; [exact sample_accounts_unique|].
  exact (generate_api_key_keeps_keys_unique sample_settings alice sample_world
           sample_accounts_unique).
Defined.






Lemma commit_keeps_ids issued rows :
  List.map id (List.map (fun u => if id u =? id issued then issued else u) rows)
  = List.map id rows.
Proof.
  rewrite map_map. apply map_ext. intros u.
  by destruct (Z.eqb_spec (id u) (id issued)).
Qed.

Lemma at_most_one_row (f : User -> bool) rows :
  NoDup (List.map id rows) ->
  (forall a b, In a rows -> In b rows -> f a = true -> f b = true -> id a = id b) ->
  List.filter f rows = [] \/ exists row, List.filter f rows = [row].
Proof.
  induction rows as [|a rows IH]; intros Hnodup Hsame; [by left|].
  cbn [List.map] in Hnodup. apply NoDup_cons in Hnodup as [Hfresh Hnodup].
  cbn [List.filter]. destruct (f a) eqn:Ha.
  - right. exists a. f_equal. apply filter_nil_iff. intros b Hb.
    destruct (f b) eqn:Hfb; [|done]. exfalso. apply Hfresh.
    rewrite (Hsame a b); [|by left|by right|done..].
    apply list_elem_of_In. by apply in_map.
  - apply IH; [done|]. intros b c Hb Hc. apply Hsame; by right.
Qed.

(** C5. API keys are one-to-one with identities. Of two distinct users who
    each had a key generated by [generate_api_key_for_user], the second at
    whatever time after the first, the stored keys differ; the table holds
    no key twice afterwards, and the exact-match lookup by any key resolves
    at most one identity. (The generator itself does not tell users apart:
    the unique column refuses the second key of a day,
    [second_key_of_the_day_is_refused].) *)
Theorem api_keys_one_to_one settings u v w ku w1 t kv w2 :
  api_keys_unique (users w) ->
  NoDup (List.map id (users w)) ->
  (exists row, In row (users w) /\ id row = id u) ->
  id u <> id v ->
  generate_api_key_for_user settings u w = (Ret ku, w1) ->
  generate_api_key_for_user settings v (with_clock t w1) = (Ret kv, w2) ->
  ku <> kv
  /\ (exists row, In row (users w2) /\ id row = id u /\ api_key row = Some ku)
  /\ (forall row, In row (users w2) -> id row = id v -> api_key row = Some kv)
  /\ api_keys_unique (users w2)
  /\ (forall key,
        get_user_by_api_key key w2 = (Ret None, w2)
        \/ exists row,
             get_user_by_api_key key w2 = (Ret (Some row), w2)
             /\ In row (users w2) /\ api_key row = Some key).
Proof.
  intros Hunique Hnodup (row0 & Hrow0 & Hid0) Hdistinct Hfirst Hsecond.
  pose proof (generate_api_key_for_user_unique settings u w Hunique) as Hunique1.
  pose proof (generate_api_key_for_user_unique settings v (with_clock t w1)) as Hunique2.
  rewrite Hfirst in Hunique1. rewrite Hsecond in Hunique2. cbn [snd] in Hunique1, Hunique2.
  specialize (Hunique2 Hunique1).
  rewrite generate_api_key_for_user_run in Hfirst, Hsecond. cbv zeta in Hfirst, Hsecond.
  destruct (db_up w) eqn:Hup; [|discriminate Hfirst]. cbn [negb] in Hfirst.
  destruct (api_key_taken_by_other _ (users w)) eqn:Hfree1; [discriminate Hfirst|].
  injection Hfirst as Hku Hw1.
  set (issued_u := set_api_key u (Some ku) (Some (clock w + timedelta_days 365))).
  assert (Husers1 : users w1
                    = List.map (fun r => if id r =? id issued_u then issued_u else r)
                        (users w)) by (subst w1 ku; reflexivity).
  assert (Hup1 : db_up (with_clock t w1) = true) by (subst w1; exact Hup).
  rewrite Hup1 in Hsecond. cbn [negb] in Hsecond.
  destruct (api_key_taken_by_other _ (users (with_clock t w1))) eqn:Hfree2;
    [discriminate Hsecond|].
  injection Hsecond as Hkv Hw2.
  set (issued_v := set_api_key v (Some kv)
                     (Some (clock (with_clock t w1) + timedelta_days 365))).
  assert (Hfree2' : api_key_taken_by_other issued_v (users w1) = false)
    by (subst kv; exact Hfree2).
  assert (Husers2 : users w2
                    = List.map (fun r => if id r =? id issued_v then issued_v else r)
                        (users w1)) by (subst w2 kv; reflexivity).
  assert (Hup2 : db_up w2 = true) by (subst w2; exact Hup1).
  assert (Hin1 : In issued_u (users w1)).
  { rewrite Husers1. apply in_map_iff. exists row0. split; [|done].
    by rewrite (proj2 (Z.eqb_eq (id row0) (id issued_u)) Hid0). }
  assert (Hin2 : In issued_u (users w2)).
  { rewrite Husers2. apply in_map_iff. exists issued_u. split; [|done].
    by rewrite (proj2 (Z.eqb_neq (id issued_u) (id issued_v)) Hdistinct). }
  assert (Hnodup2 : NoDup (List.map id (users w2))).
  { by rewrite Husers2, commit_keeps_ids, Husers1, commit_keeps_ids. }
  split; [|split; [|split; [|split]]].
  - intros Hsame. apply Hdistinct.
    apply (not_taken_by_other issued_v (users w1) kv eq_refl Hfree2' issued_u Hin1).
    cbn. by rewrite Hsame.
  - exists issued_u. done.
  - intros row Hrow Hidv. rewrite Husers2 in Hrow.
    apply in_map_iff in Hrow as (r & <- & _). revert Hidv.
    destruct (Z.eqb_spec (id r) (id issued_v)) as [_|Hother]; [done|].
    intros Hidv. by destruct Hother.
  - exact Hunique2.
  - intros key. rewrite get_user_by_api_key_run, Hup2.
    destruct (at_most_one_row (fun r => bool_decide (api_key r = Some key)) (users w2)
                Hnodup2) as [->|[row Hrows]].
    + intros a b Ha Hb Hka Hkb. apply bool_decide_eq_true in Hka, Hkb.
      by apply (Hunique2 a b key).
    + by left.
    + right. exists row. rewrite Hrows. split; [done|].
      apply filter_singleton_In in Hrows as [Hin Hkey].
      by apply bool_decide_eq_true in Hkey.
Qed.

Lemma api_keys_one_to_one_witness :
  exists w1 w2,
    generate_api_key_for_user sample_settings alice sample_world
    = (Ret "sk_0123456789abcdef_20240229", w1)
    /\ generate_api_key_for_user sample_settings bob
         (with_clock (sample_instant + timedelta_days 1) w1)
       = (Ret "sk_0123456789abcdef_20240301", w2)
    /\ "sk_0123456789abcdef_20240229" <> "sk_0123456789abcdef_20240301"
    /\ api_keys_unique (users w2).
Proof.
  destruct (generate_api_key_for_user sample_settings alice sample_world)
    as [[ku|e] w1] eqn:Hfirst; [|vm_compute in Hfirst; discriminate Hfirst].
  destruct (generate_api_key_for_user sample_settings bob
              (with_clock (sample_instant + timedelta_days 1) w1))
    as [[kv|e] w2] eqn:Hsecond;
    [|vm_compute in Hfirst; injection Hfirst as _ <-;
      vm_compute in Hsecond; discriminate Hsecond].
  assert (Hku : ku = "sk_0123456789abcdef_20240229")
    by (vm_compute in Hfirst; congruence).
  assert (Hkv : kv = "sk_0123456789abcdef_20240301").
  { pose proof Hfirst as Hfirst'. vm_compute in Hfirst'. injection Hfirst' as _ <-.
    vm_compute in Hsecond. congruence. }
  destruct (api_keys_one_to_one sample_settings alice bob sample_world ku w1
              (sample_instant + timedelta_days 1) kv w2
              sample_accounts_unique sample_accounts_ids
              (ex_intro _ alice (conj (or_introl eq_refl) eq_refl))
              ltac:(discriminate) Hfirst Hsecond)
    as (Hdiffer & _ & _ & Hunique & _).
  subst ku kv. exists w1, w2. split; [reflexivity|]. split; [exact Hsecond|].
  split; [exact Hdiffer|exact Hunique].
Defined.

(** ** The endpoints of a session *)

Lemma get_current_user_fst settings creds w :
  fst (get_current_user settings creds w)
  = Ret (session_identity settings creds (clock w) (users w) (db_up w)).
Proof.
  unfold get_current_user, session_identity. destruct creds as [c|]; [|done].
  unfold try_except, mbind, M_bind. rewrite verify_token_run.
  destruct (jwt.decode_at _ _ _ _) as [claims|e]; [|by run].
  destruct (is_PyNone (dict_get claims "sub")); [by run|]. cbn [orb].
  destruct (dict_get claims "user_id") as [|s|n|t]; try by run.
  cbn [is_PyNone]. rewrite get_user_by_id_run. destruct (db_up w); [|by run].
  destruct (List.filter _ (users w)) as [|v [|v' l]]; try by run.
  by destruct (is_active v).
Qed.

Lemma same_accounts_refl w : same_accounts w w.
Proof. by repeat split. Qed.

Lemma same_accounts_trans w1 w2 w3 :
  same_accounts w1 w2 -> same_accounts w2 w3 -> same_accounts w1 w3.
Proof. intros (?&?&?) (?&?&?). repeat split; congruence. Qed.

Lemma same_but_log_accounts w w' : same_but_log w w' -> same_accounts w w'.
Proof. by intros (?&?&?&_). Qed.

Lemma get_redis_client_accounts w : same_accounts w (snd (get_redis_client w)).
Proof.
  unfold get_redis_client. run. cbn.
  destruct (redis_client w); cbn; [by repeat split|].
  destruct (redis_up w); cbn; by repeat split.
Qed.

Lemma increment_rate_limit_accounts key expire w :
  same_accounts w (snd (increment_rate_limit key expire w)).
Proof.
  unfold increment_rate_limit. run.
  pose proof (get_redis_client_accounts w) as Hclient.
  destruct (get_redis_client w) as [[[]|e] w1]; cbv beta iota; cbn [snd] in Hclient.
  - destruct (redis_up w1); cbv beta iota.
    + destruct (redis_run_two (clock w1) (INCR key) (EXPIRE key expire) (redis_data w1))
        as (r1 & r2 & d & ->). cbn. exact Hclient.
    + cbn. exact Hclient.
  - cbn. exact Hclient.
Qed.

Lemma rate_limit_middleware_accounts settings request current_user api_user w :
  same_accounts w (snd (rate_limit_middleware settings request current_user api_user w)).
Proof.
  unfold rate_limit_middleware, mbind, M_bind.
  assert (Hkey : (exists key, rate_limit_user_id request current_user api_user w = (Ret key, w))
                 \/ (exists e, rate_limit_user_id request current_user api_user w = (Exc e, w))).
  { unfold rate_limit_user_id. destruct current_user; [by left; eexists|].
    destruct api_user; [by left; eexists|].
    destruct (req_client request); [left|right]; by eexists. }
  destruct Hkey as [[key ->]|[e ->]]; [|apply same_accounts_refl].
  pose proof (increment_rate_limit_accounts key 60 w) as Hinc.
  destruct (increment_rate_limit key 60 w) as [[count|e] w1]; [|exact Hinc].
  by destruct (rate_limit_per_minute settings <? count).
Qed.

(** X18. Logging out revokes nothing: the call changes nothing that
    identity resolution reads, so the credentials that resolved to an
    identity before [logout_user] resolve to the same identity after it. *)
Theorem logout_does_not_revoke settings request creds w :
  fst (get_current_user settings creds (snd (logout_user settings request w)))
  = fst (get_current_user settings creds w).
Proof.
  assert (Hsame : same_accounts w (snd (logout_user settings request w))).
  { unfold logout_user, mbind, M_bind.
    destruct (get_current_user_frame settings (security request) w) as (cu & w1 & -> & Hw1).
    destruct (verify_api_key_frame request w1) as (au & w2 & -> & Hw2).
    pose proof (rate_limit_middleware_accounts settings request cu au w2) as Hw3.
    apply same_but_log_accounts in Hw1, Hw2.
    destruct (rate_limit_middleware settings request cu au w2) as [[[]|e] w3];
      cbn in *; eauto using same_accounts_trans. }
  rewrite !get_current_user_fst. by destruct Hsame as (-> & -> & ->).
Qed.

Lemma rate_limit_middleware_with_identity settings request current_user api_user w :
  is_Some current_user \/ is_Some api_user ->
  exists w',
    rate_limit_middleware settings request current_user api_user w = (Ret tt, w')
    \/ rate_limit_middleware settings request current_user api_user w
       = (Exc (HTTPError (RateLimitExceeded settings)), w').
Proof.
  intros Hidentity.
  assert (Hkey : exists key, forall w0,
             rate_limit_user_id request current_user api_user w0 = (Ret key, w0)).
  { destruct current_user as [cu|]; [by eexists|].
    destruct api_user as [au|]; [by eexists|].
    by destruct Hidentity as [[? ?]|[? ?]]. }
  destruct Hkey as [key Hkey].
  rewrite (rate_limit_middleware_decides _ _ _ _ key) by done.
  destruct (increment_rate_limit_returns key 60 w) as (count & w1 & ->). cbn.
  destruct (rate_limit_per_minute settings <? count); eauto.
Qed.

(** X17. GET /me settles authentication before it counts the request: a
    request that [require_auth] rejects is answered with that rejection and
    leaves the counter store as it was; a request that [require_auth]
    admits is answered with the resolved identity or with the 429 of the
    rate limiter. *)
Theorem me_authenticates_before_counting settings request w :
  (forall e w',
     call_require_auth settings request w = (Exc e, w') ->
     get_current_user_info settings request w = (Exc e, w')
     /\ redis_data w' = redis_data w)
  /\ (forall u w',
        call_require_auth settings request w = (Ret u, w') ->
        exists w'',
          get_current_user_info settings request w = (Ret u, w'')
          \/ get_current_user_info settings request w
             = (Exc (HTTPError (RateLimitExceeded settings)), w'')).
Proof.
  unfold call_require_auth, get_current_user_info, Depends_get_current_user, mbind, M_bind.
  destruct (get_current_user_frame settings (security request) w) as (cu & w1 & -> & Hw1).
  destruct (verify_api_key_frame request w1) as (au & w2 & -> & Hw2).
  assert (Hdata : redis_data w2 = redis_data w).
  { destruct Hw1 as (_&_&_&_&H1&_), Hw2 as (_&_&_&_&H2&_). congruence. }
  split.
  - intros e w'. destruct cu as [u|]; [discriminate|]. destruct au as [u|]; [discriminate|].
    cbn. by intros [= <- <-].
  - intros u w'. unfold require_auth.
    destruct cu as [cu|]; [|destruct au as [au|]; [|discriminate]]; intros [= <- <-];
      unfold mret, M_ret; cbv beta iota.
    + destruct (rate_limit_middleware_with_identity settings request (Some cu) au w2)
        as (w3 & [-> | ->]); [by left; eexists|eauto..].
    + destruct (rate_limit_middleware_with_identity settings request None (Some au) w2)
        as (w3 & [-> | ->]); [by right; eexists|eauto..].
Qed.

Lemma me_authenticates_before_counting_witness :
  exists e w',
    call_require_auth sample_settings request_anonymous sample_world = (Exc e, w')
    /\ get_current_user_info sample_settings request_anonymous sample_world = (Exc e, w')
    /\ redis_data w' = redis_data sample_world.
Proof.
  destruct (call_require_auth sample_settings request_anonymous sample_world)
    as [[u|e] w'] eqn:Hauth; [vm_compute in Hauth; discriminate Hauth|].
  exists e, w'. split; [reflexivity|].
  exact (proj1 (me_authenticates_before_counting sample_settings request_anonymous
                  sample_world) e w' Hauth).
Defined.

(** ** Shape of the score *)

Lemma vote_weight_nonneg m :
  0 <= default 0 (movie.vote_count m) ->
  (0 <= Qmin (inject_Z (default 0%Z (movie.vote_count m)) / 1000) 1)%Q.
Proof.
  intros Hcount. apply Q.min_glb; [|done].
  apply Qle_shift_div_l; [done|]. rewrite Qmult_0_l.
  change 0%Q with (inject_Z 0). by rewrite <- Zle_Qle.
Qed.

(** X19. The score does not decrease when the popularity grows, nor, for a
    movie whose vote count is not negative, when the vote average grows,
    everything else being equal. *)
Theorem popularity_score_is_monotone m w :
  (forall p1 p2, (p1 <= p2)%Q ->
     exists s1 s2,
       movie.popularity_score (with_popularity (Some p1) m) w = (Ret s1, w)
       /\ movie.popularity_score (with_popularity (Some p2) m) w = (Ret s2, w)
       /\ (s1 <= s2)%Q)
  /\ (forall v1 v2, (v1 <= v2)%Q ->
        0 <= default 0 (movie.vote_count m) ->
        exists s1 s2,
          movie.popularity_score (with_vote_average (Some v1) m) w = (Ret s1, w)
          /\ movie.popularity_score (with_vote_average (Some v2) m) w = (Ret s2, w)
          /\ (s1 <= s2)%Q).
Proof.
  split.
  - intros p1 p2 Hle.
    destruct (popularity_score_expected (with_popularity (Some p1) m) w) as (s1 & H1 & E1).
    destruct (popularity_score_expected (with_popularity (Some p2) m) w) as (s2 & H2 & E2).
    exists s1, s2. split; [done|]. split; [done|]. rewrite E1, E2.
    unfold expected_score, expected_vote_component, expected_recency_bonus,
      expected_financial_bonus. cbn.
    repeat apply Qplus_le_compat; try apply Qle_refl. done.
  - intros v1 v2 Hle Hcount.
    destruct (popularity_score_expected (with_vote_average (Some v1) m) w) as (s1 & H1 & E1).
    destruct (popularity_score_expected (with_vote_average (Some v2) m) w) as (s2 & H2 & E2).
    exists s1, s2. split; [done|]. split; [done|]. rewrite E1, E2.
    unfold expected_score, expected_vote_component, expected_recency_bonus,
      expected_financial_bonus. cbn.
    repeat apply Qplus_le_compat; try apply Qle_refl.
    apply Qmult_le_compat_r; [done|]. by apply vote_weight_nonneg.
Qed.

Lemma popularity_score_is_monotone_witness :
  exists s1 s2,
    movie.popularity_score (with_vote_average (Some 5%Q) sample_movie) sample_world
    = (Ret s1, sample_world)
    /\ movie.popularity_score (with_vote_average (Some (17 # 2)%Q) sample_movie) sample_world
       = (Ret s2, sample_world)
    /\ (s1 <= s2)%Q.
Proof.
  apply (proj2 (popularity_score_is_monotone sample_movie sample_world)).
  - vm_compute. discriminate.
  - vm_compute. discriminate.
Defined.

(** ** Ratings *)

Lemma In_same_id (rows : list ratings.UserRating) r e :
  NoDup (List.map ratings.id rows) ->
  In r rows -> In e rows -> ratings.id r = ratings.id e -> r = e.
Proof.
  induction rows as [|a rows IH]; intros Hnodup Hr He Hid; [destruct Hr|].
  cbn in Hnodup. apply NoDup_cons in Hnodup as [Hfresh Hnodup].
  assert (Hin : forall x, In x rows -> ratings.id x ∈ List.map ratings.id rows).
  { intros x Hx. apply list_elem_of_In. by apply in_map. }
  destruct Hr as [<-|Hr], He as [<-|He]; [done| | |by apply IH].
  - destruct Hfresh. rewrite Hid. by apply Hin.
  - destruct Hfresh. rewrite <- Hid. by apply Hin.
Qed.

Lemma NoDup_map_filter {A B} (g : A -> B) (f : A -> bool) l :
  NoDup (List.map g l) -> NoDup (List.map g (List.filter f l)).
Proof.
  induction l as [|a l IH]; [done|]. cbn. intros Hnodup.
  apply NoDup_cons in Hnodup as [Hfresh Hnodup].
  destruct (f a); [|by apply IH]. cbn. apply NoDup_cons. split; [|by apply IH].
  intros Hin. apply Hfresh. apply list_elem_of_In in Hin. apply list_elem_of_In.
  apply in_map_iff in Hin as (x & <- & Hx). apply filter_In in Hx as [Hx _].
  by apply in_map.
Qed.

Lemma filter_filter_kept {A} (f g : A -> bool) l :
  (forall x, In x l -> f x = true -> g x = true) ->
  List.filter f (List.filter g l) = List.filter f l.
Proof.
  induction l as [|a l IH]; [done|]. intros Hkept. cbn.
  assert (IH' := IH (fun x Hx => Hkept x (or_intror Hx))).
  destruct (g a) eqn:Hg; cbn; [by rewrite IH'|].
  destruct (f a) eqn:Hf; [|done].
  rewrite (Hkept a) in Hg; [discriminate|by left|done].
Qed.

Lemma filter_map_same {A} (q : A -> bool) (upd : A -> A) l :
  (forall x, In x l -> q (upd x) = q x) ->
  List.filter q (List.map upd l) = List.map upd (List.filter q l).
Proof.
  induction l as [|a l IH]; [done|]. intros Hsame. cbn.
  rewrite (Hsame a) by (by left). rewrite IH by (intros x Hx; apply Hsame; by right).
  by destruct (q a).
Qed.

Lemma map_fixed {A} (upd : A -> A) l :
  (forall x, In x l -> upd x = x) -> List.map upd l = l.
Proof.
  induction l as [|a l IH]; [done|]. intros Hfixed. cbn.
  rewrite (Hfixed a) by (by left). f_equal. apply IH. intros x Hx. apply Hfixed. by right.
Qed.

Lemma rated_spec uid mid r :
  ratings.rated uid mid r = true <-> ratings.user_id r = uid /\ ratings.movie_id r = mid.
Proof. unfold ratings.rated. rewrite andb_true_iff, !Z.eqb_eq. done. Qed.

Lemma ratings_of_cases uid mid db :
  ratings_wf db ->
  ratings_of uid mid db = [] \/ exists r, ratings_of uid mid db = [r].
Proof.
  intros (Hnodup & _ & Hpair). unfold ratings_of.
  assert (Hnd : NoDup (List.filter (ratings.rated uid mid) (ratings.user_ratings db))).
  { apply (NoDup_map_filter ratings.id (ratings.rated uid mid)) in Hnodup.
    by apply (NoDup_fmap_1 ratings.id). }
  assert (Hin : forall r, In r (List.filter (ratings.rated uid mid) (ratings.user_ratings db)) ->
                          In r (ratings.user_ratings db) /\ ratings.rated uid mid r = true)
    by (intros r; apply filter_In).
  destruct (List.filter _ _) as [|r1 [|r2 l]]; [by left|by right; eexists|exfalso].
  destruct (Hin r1 ltac:(by left)) as [H1 [Hu1 Hm1]%rated_spec].
  destruct (Hin r2 ltac:(by right; left)) as [H2 [Hu2 Hm2]%rated_spec].
  assert (r1 = r2) as -> by (apply Hpair; congruence).
  apply NoDup_cons in Hnd as [Hfresh _]. apply Hfresh. by left.
Qed.

Lemma add_user_rating_existing uid mid value text db old :
  db_up (ratings.world db) = true ->
  ratings_of uid mid db = [old] ->
  let row := {| ratings.id := ratings.id old; ratings.user_id := ratings.user_id old;
                ratings.movie_id := ratings.movie_id old; ratings.rating := value;
                ratings.review := match text with
                                  | Some _ => text
                                  | None => ratings.review old
                                  end;
                ratings.created_at := ratings.created_at old;
                ratings.updated_at := clock (ratings.world db) |} in
  ratings.add_user_rating uid mid value text db =
    (Ret row,
     ratings.with_user_ratings
       (List.map (ratings.replace_row row) (ratings.user_ratings db)) db).
Proof.
  intros Hup Hold row. unfold ratings_of in Hold.
  unfold ratings.add_user_rating, ratings.bind, ratings.execute_select.
  rewrite Hup, Hold. cbn. unfold ratings.commit_update. by rewrite Hup.
Qed.

Lemma add_user_rating_new uid mid value text db :
  db_up (ratings.world db) = true ->
  ratings_of uid mid db = [] ->
  ratings.add_user_rating uid mid value text db =
    ratings.commit_insert uid mid value text db.
Proof.
  intros Hup Hnone. unfold ratings_of in Hnone.
  unfold ratings.add_user_rating, ratings.bind, ratings.execute_select.
  rewrite Hup, Hnone. done.
Qed.

Lemma delete_user_rating_existing uid mid db old :
  db_up (ratings.world db) = true ->
  ratings_of uid mid db = [old] ->
  ratings.delete_user_rating uid mid db =
    (Ret true,
     ratings.with_user_ratings
       (List.filter (fun r => negb (ratings.id r =? ratings.id old))
                    (ratings.user_ratings db)) db).
Proof.
  intros Hup Hold. unfold ratings_of in Hold.
  unfold ratings.delete_user_rating, ratings.bind, ratings.execute_select.
  rewrite Hup, Hold. cbn. unfold ratings.commit_delete. by rewrite Hup.
Qed.

Lemma delete_user_rating_none uid mid db :
  db_up (ratings.world db) = true ->
  ratings_of uid mid db = [] ->
  ratings.delete_user_rating uid mid db = (Ret false, db).
Proof.
  intros Hup Hnone. unfold ratings_of in Hnone.
  unfold ratings.delete_user_rating, ratings.bind, ratings.execute_select.
  rewrite Hup, Hnone. done.
Qed.

Lemma ratings_of_singleton uid mid db old :
  ratings_of uid mid db = [old] ->
  In old (ratings.user_ratings db) /\ ratings.user_id old = uid /\ ratings.movie_id old = mid.
Proof.
  intros Hold.
  assert (Hin : In old (ratings_of uid mid db)) by (rewrite Hold; by left).
  apply filter_In in Hin as [Hin Hrated%rated_spec]. tauto.
Qed.

(** Replacing the row of a pair by a row with the same id and pair. *)
Section row_replaced.
Variables (db : ratings.Database) (old row : ratings.UserRating).
Hypothesis Hwf : ratings_wf db.
Hypothesis Hin : In old (ratings.user_ratings db).
Hypothesis Hid : ratings.id row = ratings.id old.
Hypothesis Huser : ratings.user_id row = ratings.user_id old.
Hypothesis Hmovie : ratings.movie_id row = ratings.movie_id old.

Lemma replace_row_cases r :
  In r (ratings.user_ratings db) ->
  (r = old /\ ratings.replace_row row r = row)
  \/ (r <> old /\ ratings.replace_row row r = r).
Proof using Hwf Hin Hid.
  intros Hr. unfold ratings.replace_row. destruct Hwf as (Hnodup & _ & _).
  destruct (Z.eqb_spec (ratings.id r) (ratings.id row)) as [Heq|Hne].
  - left. split; [|done]. eapply In_same_id; eauto. congruence.
  - right. split; [|done]. intros ->. congruence.
Qed.

Lemma replace_row_id r : ratings.id (ratings.replace_row row r) = ratings.id r.
Proof using.
  unfold ratings.replace_row. by destruct (Z.eqb_spec (ratings.id r) (ratings.id row)).
Qed.

Lemma replace_row_rated uid mid r :
  In r (ratings.user_ratings db) ->
  ratings.rated uid mid (ratings.replace_row row r) = ratings.rated uid mid r.
Proof using Hwf Hin Hid Huser Hmovie.
  intros Hr. destruct (replace_row_cases r Hr) as [[-> ->]|[_ ->]]; [|done].
  unfold ratings.rated. by rewrite Huser, Hmovie.
Qed.

Lemma row_replaced_ratings_of uid mid :
  ratings_of uid mid
    (ratings.with_user_ratings
       (List.map (ratings.replace_row row) (ratings.user_ratings db)) db)
  = List.map (ratings.replace_row row) (ratings_of uid mid db).
Proof using Hwf Hin Hid Huser Hmovie.
  unfold ratings_of. cbn. apply filter_map_same. intros r Hr. by apply replace_row_rated.
Qed.

Lemma row_replaced_own :
  ratings_of (ratings.user_id old) (ratings.movie_id old) db = [old] ->
  ratings_of (ratings.user_id old) (ratings.movie_id old)
    (ratings.with_user_ratings
       (List.map (ratings.replace_row row) (ratings.user_ratings db)) db)
  = [row].
Proof using Hwf Hin Hid Huser Hmovie.
  intros Hold. rewrite row_replaced_ratings_of, Hold. cbn. unfold ratings.replace_row.
  by rewrite Hid, Z.eqb_refl.
Qed.

Lemma row_replaced_others uid mid :
  (uid, mid) <> (ratings.user_id old, ratings.movie_id old) ->
  ratings_of uid mid
    (ratings.with_user_ratings
       (List.map (ratings.replace_row row) (ratings.user_ratings db)) db)
  = ratings_of uid mid db.
Proof using Hwf Hin Hid Huser Hmovie.
  intros Hother. rewrite row_replaced_ratings_of. apply map_fixed.
  intros r Hr. apply filter_In in Hr as [Hr [Hu Hm]%rated_spec].
  destruct (replace_row_cases r Hr) as [[-> _]|[_ ->]]; [|done].
  destruct Hother. congruence.
Qed.

Lemma row_replaced_wf :
  ratings_wf
    (ratings.with_user_ratings
       (List.map (ratings.replace_row row) (ratings.user_ratings db)) db).
Proof using Hwf Hin Hid Huser Hmovie.
  pose proof Hwf as (Hnodup & Hseq & Hpair). split; [|split]; cbn.
  - rewrite map_map. erewrite map_ext; [exact Hnodup|]. intros r. apply replace_row_id.
  - intros r' (r & <- & Hr)%in_map_iff. rewrite replace_row_id. by apply Hseq.
  - intros r1' r2' (r1 & <- & Hr1)%in_map_iff (r2 & <- & Hr2)%in_map_iff Hu Hm.
    assert (Hsame : forall r, In r (ratings.user_ratings db) ->
              ratings.user_id (ratings.replace_row row r) = ratings.user_id r
              /\ ratings.movie_id (ratings.replace_row row r) = ratings.movie_id r).
    { intros r Hr. destruct (replace_row_cases r Hr) as [[-> ->]|[_ ->]]; done. }
    destruct (Hsame r1 Hr1) as [Hu1 Hm1], (Hsame r2 Hr2) as [Hu2 Hm2].
    f_equal. apply Hpair; congruence.
Qed.

End row_replaced.

(** Appending a first row for a pair. *)
Lemma row_inserted_wf db uid mid value text :
  ratings_wf db ->
  ratings_of uid mid db = [] ->
  db_up (ratings.world db) = true ->
  exists row db',
    ratings.commit_insert uid mid value text db = (Ret row, db')
    /\ ratings.world db' = ratings.world db
    /\ ratings.user_ratings db' = (ratings.user_ratings db ++ [row])%list
    /\ ratings.id row = ratings.user_ratings_id_seq db
    /\ ratings.user_id row = uid /\ ratings.movie_id row = mid
    /\ ratings.rating row = value /\ ratings.review row = text
    /\ ratings.created_at row = clock (ratings.world db)
    /\ ratings.updated_at row = clock (ratings.world db)
    /\ ratings_wf db'.
Proof.
  intros (Hnodup & Hseq & Hpair) Hnone Hup. unfold ratings.commit_insert. rewrite Hup.
  eexists _, _. split; [reflexivity|]. cbn. repeat (split; [reflexivity|]).
  assert (Hnew : forall r, In r (ratings.user_ratings db) ->
            ~ (ratings.user_id r = uid /\ ratings.movie_id r = mid)).
  { intros r Hr Hrated%rated_spec.
    assert (Hf : In r (ratings_of uid mid db)) by (by apply filter_In).
    rewrite Hnone in Hf. destruct Hf. }
  split; [|split]; cbn.
  - rewrite map_app. apply NoDup_app. split; [done|]. split.
    + intros i Hi%list_elem_of_In Hi'%list_elem_of_In.
      apply in_map_iff in Hi as (r & <- & Hr). apply Hseq in Hr.
      destruct Hi' as [Heq|[]]. cbn in Heq. lia.
    + cbn. apply NoDup_singleton.
  - intros r [Hr|[<-|[]]]%in_app_or; [apply Hseq in Hr; lia|cbn; lia].
  - intros r1 r2 [H1|[<-|[]]]%in_app_or [H2|[<-|[]]]%in_app_or Hu Hm; cbn in *.
    + by apply Hpair.
    + destruct (Hnew r1 H1). done.
    + destruct (Hnew r2 H2). done.
    + done.
Qed.

Lemma row_deleted db old :
  ratings_wf db ->
  In old (ratings.user_ratings db) ->
  let db' := ratings.with_user_ratings
               (List.filter (fun r => negb (ratings.id r =? ratings.id old))
                            (ratings.user_ratings db)) db in
  ratings_wf db'
  /\ ratings_of (ratings.user_id old) (ratings.movie_id old) db' = []
  /\ forall uid mid, (uid, mid) <> (ratings.user_id old, ratings.movie_id old) ->
       ratings_of uid mid db' = ratings_of uid mid db.
Proof.
  intros (Hnodup & Hseq & Hpair) Hin db'. unfold db'. split; [|split].
  - split; [|split]; cbn.
    + by apply NoDup_map_filter.
    + intros r [Hr _]%filter_In. by apply Hseq.
    + intros r1 r2 [H1 _]%filter_In [H2 _]%filter_In. by apply Hpair.
  - unfold ratings_of. cbn. apply filter_nil_iff.
    intros r [Hr Hkeep]%filter_In.
    destruct (ratings.rated _ _ r) eqn:Hrated; [|done].
    apply rated_spec in Hrated as [Hu Hm].
    assert (r = old) as -> by (by apply Hpair).
    by rewrite Z.eqb_refl in Hkeep.
  - intros uid mid Hother. unfold ratings_of. cbn. apply filter_filter_kept.
    intros r Hr [Hu Hm]%rated_spec. apply negb_true_iff, Z.eqb_neq. intros Hid.
    assert (r = old) as -> by (by eapply In_same_id).
    destruct Hother. congruence.
Qed.

(** X21. [add_user_rating] is an upsert that keeps the table well formed. *)
Theorem add_user_rating_upserts (uid mid value : Z) (text : option string)
    (db : ratings.Database) :
  ratings_wf db ->
  db_up (ratings.world db) = true ->
  exists row db',
    ratings.add_user_rating uid mid value text db = (Ret row, db')
    /\ ratings.user_id row = uid /\ ratings.movie_id row = mid
    /\ ratings.rating row = value
    /\ ratings.updated_at row = clock (ratings.world db)
    /\ ratings_of uid mid db' = [row]
    /\ (forall uid' mid', (uid', mid') <> (uid, mid) ->
          ratings_of uid' mid' db' = ratings_of uid' mid' db)
    /\ ratings_wf db'
    /\ (forall old, ratings_of uid mid db = [old] ->
          ratings.id row = ratings.id old
          /\ ratings.created_at row = ratings.created_at old
          /\ ratings.review row = match text with
                                  | Some _ => text
                                  | None => ratings.review old
                                  end
          /\ length (ratings.user_ratings db') = length (ratings.user_ratings db))
    /\ (ratings_of uid mid db = [] ->
          ratings.review row = text
          /\ ratings.created_at row = clock (ratings.world db)
          /\ ratings.user_ratings db' = (ratings.user_ratings db ++ [row])%list).
Proof.
  intros Hwf Hup. destruct (ratings_of_cases uid mid db Hwf) as [Hnone|[old Hold]].
  - destruct (row_inserted_wf db uid mid value text Hwf Hnone Hup)
      as (row & db' & Hrun & Hworld & Hrows & Hid & Hu & Hm & Hvalue & Hreview
          & Hcreated & Hupdated & Hwf').
    exists row, db'. rewrite add_user_rating_new by done.
    split; [exact Hrun|]. do 4 (split; [done|]).
    assert (Hof : forall uid' mid',
              ratings_of uid' mid' db' =
              (ratings_of uid' mid' db ++ (if ratings.rated uid' mid' row then [row] else []))%list).
    { intros uid' mid'. unfold ratings_of. rewrite Hrows, List.filter_app. done. }
    split; [|split; [|split; [done|split]]].
    + rewrite Hof, Hnone. cbn.
      assert (ratings.rated uid mid row = true) as -> by (by apply rated_spec). done.
    + intros uid' mid' Hother. rewrite Hof.
      destruct (ratings.rated uid' mid' row) eqn:Hrated; [|by rewrite app_nil_r].
      apply rated_spec in Hrated as [Hu' Hm']. destruct Hother. congruence.
    + intros old Hold. rewrite Hnone in Hold. discriminate.
    + done.
  - destruct (ratings_of_singleton _ _ _ _ Hold) as (Hin & Hu & Hm).
    rewrite (add_user_rating_existing uid mid value text db old Hup Hold).
    set (row := ratings.Build_UserRating _ _ _ _ _ _ _).
    exists row, (ratings.with_user_ratings
                   (List.map (ratings.replace_row row) (ratings.user_ratings db)) db).
    split; [reflexivity|]. do 4 (split; [done|]). subst uid mid.
    split; [|split; [|split; [|split]]].
    + by apply (row_replaced_own db old row).
    + intros uid' mid' Hother. by apply (row_replaced_others db old row).
    + by apply (row_replaced_wf db old row).
    + intros old' Hold'. rewrite Hold in Hold'. injection Hold' as <-.
      do 3 (split; [done|]). cbn. by rewrite length_map.
    + intros Hnone. rewrite Hold in Hnone. discriminate.
Qed.

Lemma sample_ratings_wf : ratings_wf sample_ratings.
Proof.
  split; [|split].
  - cbn. repeat (apply NoDup_cons; split; [by intros ?%list_elem_of_In; cbn in *; intuition lia|]).
    apply NoDup_nil_2.
  - intros r Hr. cbn in Hr. destruct Hr as [<-|[<-|[]]]; cbn; lia.
  - intros r1 r2 H1 H2. cbn in H1, H2.
    destruct H1 as [<-|[<-|[]]], H2 as [<-|[<-|[]]]; cbn; intros; (done || lia).
Qed.

Lemma add_user_rating_upserts_witness :
  ratings_wf sample_ratings /\ db_up (ratings.world sample_ratings) = true
  /\ exists row db',
       ratings.add_user_rating 7 603 8 None sample_ratings = (Ret row, db')
       /\ ratings.rating row = 8 /\ ratings.review row = Some "Good"
       /\ ratings_of 7 603 db' = [row]
       /\ ratings_of 8 603 db' = ratings_of 8 603 sample_ratings.
Proof.
  split; [exact sample_ratings_wf|]. split; [reflexivity|].
  destruct (add_user_rating_upserts 7 603 8 None sample_ratings sample_ratings_wf eq_refl)
    as (row & db' & Hrun & _ & _ & Hvalue & _ & Hof & Hothers & _ & Hold & _).
  exists row, db'. split; [exact Hrun|]. split; [exact Hvalue|].
  split; [|split; [exact Hof|]].
  - destruct (Hold _ eq_refl) as (_ & _ & Hreview & _). exact Hreview.
  - apply Hothers. intros Heq. discriminate Heq.
Defined.

(** X22. [delete_user_rating] removes the one rating of the pair. *)
Theorem delete_user_rating_removes (uid mid : Z) (db : ratings.Database) :
  ratings_wf db ->
  db_up (ratings.world db) = true ->
  exists db',
    ratings.delete_user_rating uid mid db
      = (Ret (match ratings_of uid mid db with [] => false | _ => true end), db')
    /\ ratings_of uid mid db' = []
    /\ (forall uid' mid', (uid', mid') <> (uid, mid) ->
          ratings_of uid' mid' db' = ratings_of uid' mid' db)
    /\ ratings_wf db'
    /\ ratings.delete_user_rating uid mid db' = (Ret false, db').
Proof.
  intros Hwf Hup. destruct (ratings_of_cases uid mid db Hwf) as [Hnone|[old Hold]].
  - exists db. rewrite Hnone. rewrite delete_user_rating_none by done. done.
  - destruct (ratings_of_singleton _ _ _ _ Hold) as (Hin & Hu & Hm).
    rewrite Hold, (delete_user_rating_existing uid mid db old Hup Hold).
    destruct (row_deleted db old Hwf Hin) as (Hwf' & Hgone & Hothers).
    eexists. split; [reflexivity|]. subst uid mid.
    split; [exact Hgone|]. split; [exact Hothers|]. split; [exact Hwf'|].
    by apply delete_user_rating_none.
Qed.

Lemma delete_user_rating_removes_witness :
  ratings_wf sample_ratings /\ db_up (ratings.world sample_ratings) = true
  /\ exists db',
       ratings.delete_user_rating 7 603 sample_ratings = (Ret true, db')
       /\ ratings_of 7 603 db' = []
       /\ ratings_of 8 603 db' = ratings_of 8 603 sample_ratings.
Proof.
  split; [exact sample_ratings_wf|]. split; [reflexivity|].
  destruct (delete_user_rating_removes 7 603 sample_ratings sample_ratings_wf eq_refl)
    as (db' & Hrun & Hgone & Hothers & _).
  exists db'. split; [exact Hrun|]. split; [exact Hgone|].
  apply Hothers. intros Heq. discriminate Heq.
Defined.

(** X23. Without the database, or with two rows for the pair, neither
    function changes anything. *)
Theorem ratings_fail_without_change (uid mid value : Z) (text : option string)
    (db : ratings.Database) :
  db_up (ratings.world db) = false \/ (2 <= length (ratings_of uid mid db))%nat ->
  exists e,
    ratings.add_user_rating uid mid value text db = (Exc e, db)
    /\ ratings.delete_user_rating uid mid db = (Exc e, db)
    /\ e = (if db_up (ratings.world db) then MultipleResultsFound else OperationalError).
Proof.
  intros Hcase. unfold ratings.add_user_rating, ratings.delete_user_rating,
    ratings.bind, ratings.execute_select.
  destruct (db_up (ratings.world db)) eqn:Hup.
  - destruct Hcase as [Hdown|Htwo]; [discriminate|]. unfold ratings_of in Htwo.
    destruct (List.filter _ _) as [|r1 [|r2 l]]; cbn in Htwo; [lia|lia|].
    eexists. cbn. done.
  - eexists. done.
Qed.

Lemma ratings_fail_without_change_witness :
  exists e,
    ratings.add_user_rating 7 603 8 None
      (ratings.with_user_ratings
         (ratings.user_ratings sample_ratings ++ ratings.user_ratings sample_ratings)%list
         sample_ratings)
    = (Exc e,
       ratings.with_user_ratings
         (ratings.user_ratings sample_ratings ++ ratings.user_ratings sample_ratings)%list
         sample_ratings)
    /\ e = MultipleResultsFound.
Proof.
  destruct (ratings_fail_without_change 7 603 8 None
              (ratings.with_user_ratings
                 (ratings.user_ratings sample_ratings ++ ratings.user_ratings sample_ratings)%list
                 sample_ratings)) as (e & Hadd & _ & He).
  - right. vm_compute. lia.
  - exists e. split; [exact Hadd|exact He].
Defined.
